(** * Disclaude: the Feishu/Lark relay, its session store and its
    completion client

    A shallow embedding of [src/feishu_bot.py], [src/agent_client.py],
    [src/config.py], of the command side of
    [src/disclaude/discord_bot.py] and of the construction of the session
    manager in [src/disclaude/main.py].

    Conventions of the embedding:
    - a Python [str] is a [string]; a character is an [ascii], so the
      alphabet of the model is the 256 code points U+0000..U+00FF;
    - a Python [dict[str, str]] is a [gmap string string]; the values
      [json.loads] builds are a [pyval];
    - a coroutine is a computation in the monad [M] (state and
      exceptions).  No coroutine of the program awaits anything that
      suspends (file and network calls are the blocking ones), so a task
      runs from start to end without interleaving;
    - the file system, the Lark client and the completion API are part of
      the state [world]: the file system as a table of nodes, the two
      remote services as answer functions;
    - [repr] of floats, lists and dicts is a parameter of
      [load_from_file]. *)

From Stdlib Require Import ZArith NArith String Ascii List Lia.
From stdpp Require Import base option gmap strings list fin_maps pretty.

Set Warnings "-register-all".
Local Open Scope char_scope.

(* ===================================================================== *)
(** * Python strings *)
(* ===================================================================== *)

Module PyStr.

(** [text.replace(old, new)] where [old] is a single character. *)
Fixpoint replace (old : ascii) (new : string) (text : string) : string :=
  match text with
  | EmptyString => EmptyString
  | String c rest =>
      if Ascii.eqb c old then new +:+ replace old new rest
      else String c (replace old new rest)
  end.



(** [text.startswith(prefix)] *)
Definition startswith (prefix text : string) : bool :=
  String.prefix prefix text.

(** [c.isspace()] on the alphabet of the model: the characters
    [str.strip()] removes. *)
Definition isspace (c : ascii) : bool :=
  let n := N_of_ascii c in
  ((9 <=? n) && (n <=? 13) || (28 <=? n) && (n <=? 32)
   || (n =? 133) || (n =? 160))%N.

Fixpoint lstrip (text : string) : string :=
  match text with
  | EmptyString => EmptyString
  | String c rest => if isspace c then lstrip rest else text
  end.

Fixpoint rstrip (text : string) : string :=
  match text with
  | EmptyString => EmptyString
  | String c rest =>
      match rstrip rest with
      | EmptyString => if isspace c then EmptyString else String c EmptyString
      | rest' => String c rest'
      end
  end.

(** [text.strip()] *)
Definition strip (text : string) : string := rstrip (lstrip text).

(** Truth value of a string: [bool(text)]. *)
Definition truthy (text : string) : bool :=
  match text with EmptyString => false | _ => true end.

(** [c in text] *)
Fixpoint contains_char (c : ascii) (text : string) : bool :=
  match text with
  | EmptyString => false
  | String d rest => Ascii.eqb d c || contains_char c rest
  end.

(** [text.rstrip(c)] for one character [c]. *)
Fixpoint rstrip_char (c : ascii) (text : string) : string :=
  match text with
  | EmptyString => EmptyString
  | String d rest =>
      match rstrip_char c rest with
      | EmptyString => if Ascii.eqb d c then EmptyString else String d EmptyString
      | rest' => String d rest'
      end
  end.

(** [all(d == c for d in text)] *)
Fixpoint all_char (c : ascii) (text : string) : bool :=
  match text with
  | EmptyString => true
  | String d rest => Ascii.eqb d c && all_char c rest
  end.

(** [c.lower()] on the alphabet of the model: the capital letters of
    ASCII and of Latin-1 (U+00C0..U+00DE without the multiplication sign
    U+00D7) go to the letter 32 places further. *)
Definition lower_char (c : ascii) : ascii :=
  let n := N_of_ascii c in
  if ((65 <=? n) && (n <=? 90)
      || (192 <=? n) && (n <=? 222) && negb (n =? 215))%N
  then ascii_of_N (n + 32)
  else c.

(** [text.lower()] *)
Fixpoint lower (text : string) : string :=
  match text with
  | EmptyString => EmptyString
  | String c rest => String (lower_char c) (lower rest)
  end.

(** [sep.join(parts)] *)
Fixpoint join (sep : string) (parts : list string) : string :=
  match parts with
  | [] => EmptyString
  | [part] => part
  | part :: more => part +:+ sep +:+ join sep more
  end.

(** [text * n] *)
Fixpoint times (text : string) (n : nat) : string :=
  match n with
  | O => EmptyString
  | S k => text +:+ times text k
  end.

End PyStr.

(* ===================================================================== *)
(** * [os.path] (posixpath) *)
(* ===================================================================== *)

Module OsPath.

(** [head_upto_sep p] is [p[:p.rfind('/') + 1]]: the part of [p] up to
    and including its last slash, empty when [p] has none. *)
Fixpoint head_upto_sep (p : string) : string :=
  match p with
  | EmptyString => EmptyString
  | String c rest =>
      if PyStr.contains_char "/" p then String c (head_upto_sep rest)
      else EmptyString
  end.

(** [os.path.dirname(p)]:
<<
    i = p.rfind('/') + 1
    head = p[:i]
    if head and head != '/'*len(head):
        head = head.rstrip('/')
    return head
>> *)
Definition dirname (p : string) : string :=
  let head := head_upto_sep p in
  if PyStr.truthy head && negb (PyStr.all_char "/" head)
  then PyStr.rstrip_char "/" head
  else head.

End OsPath.


(* ===================================================================== *)
(** * Python values and the [json] module *)
(* ===================================================================== *)

(** The values [json.loads] builds.  A float keeps the text it was read
    from; a dict is its list of items in insertion order, with no key
    twice. *)
Inductive pyval : Type :=
| PyNone
| PyBool (b : bool)
| PyInt (z : Z)
| PyFloat (lexeme : string)
| PyStr (s : string)
| PyList (l : list pyval)
| PyDict (items : list (string * pyval)).

Module PyDictOps.

(** [d[k] = v] on the item list of a dict: an existing key keeps its
    place and takes the new value, a new key goes to the end. *)
Fixpoint setitem {V} (d : list (string * V)) (k : string) (v : V)
  : list (string * V) :=
  match d with
  | [] => [(k, v)]
  | (k', v') :: d' =>
      if String.eqb k' k then (k', v) :: d' else (k', v') :: setitem d' k v
  end.

(** [dict(pairs)] *)
Definition of_pairs {V} (pairs : list (string * V)) : list (string * V) :=
  fold_left (fun d kv => setitem d (fst kv) (snd kv)) pairs [].

(** [d.get(k)] *)
Fixpoint get {V} (d : list (string * V)) (k : string) : option V :=
  match d with
  | [] => None
  | (k', v) :: d' => if String.eqb k' k then Some v else get d' k
  end.

End PyDictOps.

Module Json.

(** The characters the encoder and the decoder name. *)
Definition DQUOTE : ascii := ascii_of_N 34.
Definition BACKSLASH : ascii := "\".
Definition LF : ascii := ascii_of_N 10.
Definition CR : ascii := ascii_of_N 13.
Definition TAB : ascii := ascii_of_N 9.
Definition BS : ascii := ascii_of_N 8.
Definition FF : ascii := ascii_of_N 12.

Definition string_of_char (c : ascii) : string := String c EmptyString.

(** ** Encoder: [json.dumps(obj, indent=2)] for a [dict[str, str]]
    ([ensure_ascii] is on by default) *)

Definition hex_digit (n : N) : ascii :=
  if (n <? 10)%N then ascii_of_N (48 + n) else ascii_of_N (87 + n).

(** ['\\u{0:04x}'.format(n)] *)
Definition escape_u (n : N) : string :=
  String BACKSLASH (String "u"
    (String (hex_digit (n / 4096 mod 16)%N)
    (String (hex_digit (n / 256 mod 16)%N)
    (String (hex_digit (n / 16 mod 16)%N)
    (String (hex_digit (n mod 16)%N) EmptyString))))).

(** One character of [py_encode_basestring_ascii]: the table
    [ESCAPE_DCT], printable ASCII as it is, [\uXXXX] for the rest. *)
Definition encode_char (c : ascii) : string :=
  let n := N_of_ascii c in
  if (n =? 34)%N then String BACKSLASH (String DQUOTE EmptyString)
  else if (n =? 92)%N then "\\"
  else if (n =? 10)%N then "\n"
  else if (n =? 13)%N then "\r"
  else if (n =? 9)%N then "\t"
  else if (n =? 8)%N then "\b"
  else if (n =? 12)%N then "\f"
  else if ((32 <=? n) && (n <=? 126))%N then string_of_char c
  else escape_u n.

Fixpoint encode_chars (s : string) : string :=
  match s with
  | EmptyString => EmptyString
  | String c rest => encode_char c +:+ encode_chars rest
  end.

(** [py_encode_basestring_ascii(s)] *)
Definition encode_basestring_ascii (s : string) : string :=
  String DQUOTE (encode_chars s +:+ string_of_char DQUOTE).

(** One member of the object, on its own line at indent 2. *)
Definition encode_member (kv : string * string) : string :=
  "  " +:+ encode_basestring_ascii kv.1 +:+ ": "
       +:+ encode_basestring_ascii kv.2.

Fixpoint encode_members (items : list (string * string)) : string :=
  match items with
  | [] => EmptyString
  | [kv] => encode_member kv +:+ string_of_char LF
  | kv :: more =>
      encode_member kv +:+ "," +:+ string_of_char LF +:+ encode_members more
  end.

(** The text of an object with the given members: [{}] when there is
    none, else one member per line between the braces. *)
Definition dumps_items (items : list (string * string)) : string :=
  match items with
  | [] => "{}"
  | _ => "{" +:+ string_of_char LF +:+ encode_members items +:+ "}"
  end.

(** [json.dumps(d, indent=2)].  The members are written in the order
    [map_to_list] lists them; Python writes them in insertion order. *)
Definition dumps (d : gmap string string) : string :=
  dumps_items (map_to_list d).

(** ** Decoder: [json.loads] *)

Definition is_ws (c : ascii) : bool :=
  let n := N_of_ascii c in
  ((n =? 32) || (n =? 9) || (n =? 10) || (n =? 13))%N.

(** [WHITESPACE.match(s, end).end()] *)
Fixpoint skip_ws (s : string) : string :=
  match s with
  | String c rest => if is_ws c then skip_ws rest else s
  | EmptyString => EmptyString
  end.

Definition hex_value (c : ascii) : option N :=
  let n := N_of_ascii c in
  if ((48 <=? n) && (n <=? 57))%N then Some (n - 48)%N
  else if ((97 <=? n) && (n <=? 102))%N then Some (n - 87)%N
  else if ((65 <=? n) && (n <=? 70))%N then Some (n - 55)%N
  else None.

(** [_decode_uXXXX]: the value of four hexadecimal digits. *)
Definition decode_uXXXX (h1 h2 h3 h4 : ascii) : option N :=
  a ← hex_value h1; b ← hex_value h2; c ← hex_value h3; d ← hex_value h4;
  Some (4096 * a + 256 * b + 16 * c + d)%N.

(** The table [BACKSLASH] of the one-letter escapes. *)
Definition unescape (e : ascii) : option ascii :=
  let n := N_of_ascii e in
  if (n =? 34)%N then Some DQUOTE
  else if (n =? 92)%N then Some BACKSLASH
  else if (n =? 47)%N then Some "/"
  else if (n =? 98)%N then Some BS
  else if (n =? 102)%N then Some FF
  else if (n =? 110)%N then Some LF
  else if (n =? 114)%N then Some CR
  else if (n =? 116)%N then Some TAB
  else None.

(** [scanstring(s, end, strict=True)], from the character after the
    opening quote: the string read and the text after its closing quote.
    [None] is a [JSONDecodeError] (unterminated string, control character,
    bad escape).  A [\uXXXX] escape above U+00FF names a character outside
    the alphabet of the model and is refused as well. *)
Fixpoint scanstring (s : string) : option (string * string) :=
  match s with
  | EmptyString => None
  | String c rest =>
      if Ascii.eqb c DQUOTE then Some (EmptyString, rest)
      else if Ascii.eqb c BACKSLASH then
        match rest with
        | EmptyString => None
        | String e rest1 =>
            if Ascii.eqb e "u" then
              match rest1 with
              | String h1 (String h2 (String h3 (String h4 rest2))) =>
                  match decode_uXXXX h1 h2 h3 h4 with
                  | Some n =>
                      if (n <? 256)%N then
                        match scanstring rest2 with
                        | Some (str, r) => Some (String (ascii_of_N n) str, r)
                        | None => None
                        end
                      else None
                  | None => None
                  end
              | _ => None
              end
            else
              match unescape e with
              | Some ch =>
                  match scanstring rest1 with
                  | Some (str, r) => Some (String ch str, r)
                  | None => None
                  end
              | None => None
              end
        end
      else if (N_of_ascii c <? 32)%N then None
      else
        match scanstring rest with
        | Some (str, r) => Some (String c str, r)
        | None => None
        end
  end.

Definition is_digit (c : ascii) : bool :=
  let n := N_of_ascii c in ((48 <=? n) && (n <=? 57))%N.

(** The longest run of digits at the head of [s], and what follows. *)
Fixpoint span_digits (s : string) : string * string :=
  match s with
  | String c rest =>
      if is_digit c then
        let '(ds, r) := span_digits rest in (String c ds, r)
      else (EmptyString, s)
  | EmptyString => (EmptyString, EmptyString)
  end.

(** [int(digits)] for a run of decimal digits. *)
Definition int_of_digits (ds : string) : Z :=
  fold_left (fun acc c => 10 * acc + Z.of_N (N_of_ascii c - 48))%Z
            (list_ascii_of_string ds) 0%Z.

(** [s[end:end + 1] == c], with the text after the character. *)
Definition strip_char (c : ascii) (s : string) : option string :=
  match s with
  | String d rest => if Ascii.eqb d c then Some rest else None
  | EmptyString => None
  end.

(** Group 1 of [NUMBER_RE]: an optional minus sign, then either a single
    zero or a nonzero digit and any digits. *)
Definition match_integer (s : string) : option (string * string) :=
  let '(sign, s1) :=
    match strip_char "-" s with
    | Some r => ("-"%string, r)
    | None => (EmptyString, s)
    end in
  match s1 with
  | String c r =>
      if Ascii.eqb c "0" then Some (sign +:+ "0", r)
      else if is_digit c then
        let '(ds, r') := span_digits r in Some (sign +:+ String c ds, r')
      else None
  | EmptyString => None
  end.

(** Group 2, optional: a dot and at least one digit. *)
Definition match_frac (s : string) : string * string :=
  match strip_char "." s with
  | Some r =>
      match span_digits r with
      | (EmptyString, _) => (EmptyString, s)
      | (ds, r') => (String "." ds, r')
      end
  | None => (EmptyString, s)
  end.

(** Group 3, optional: [e] or [E], an optional sign, at least one digit. *)
Definition match_exp (s : string) : string * string :=
  match s with
  | String e r =>
      if Ascii.eqb e "e" || Ascii.eqb e "E" then
        let '(sign, r1) :=
          match strip_char "-" r, strip_char "+" r with
          | Some r1, _ => ("-"%string, r1)
          | None, Some r1 => ("+"%string, r1)
          | None, None => (EmptyString, r)
          end in
        match span_digits r1 with
        | (EmptyString, _) => (EmptyString, s)
        | (ds, r2) => (String e (sign +:+ ds), r2)
        end
      else (EmptyString, s)
  | EmptyString => (EmptyString, s)
  end.

(** [int(integer)] for a text matched by group 1. *)
Definition int_of_lexeme (integer : string) : Z :=
  match strip_char "-" integer with
  | Some ds => (- int_of_digits ds)%Z
  | None => int_of_digits integer
  end.

(** [match_number] and the conversion that follows it in [_scan_once]:
    an [int] when there is neither fraction nor exponent, else a float. *)
Definition match_number (s : string) : option (pyval * string) :=
  match match_integer s with
  | None => None
  | Some (integer, r) =>
      let '(frac, r1) := match_frac r in
      let '(exp, r2) := match_exp r1 in
      match frac, exp with
      | EmptyString, EmptyString => Some (PyInt (int_of_lexeme integer), r2)
      | _, _ => Some (PyFloat (integer +:+ frac +:+ exp), r2)
      end
  end.

(** [s[idx:idx + len(word)] == word], with the text after the word. *)
Fixpoint strip_prefix (word s : string) : option string :=
  match word, s with
  | EmptyString, _ => Some s
  | String a word', String b s' =>
      if Ascii.eqb a b then strip_prefix word' s' else None
  | String _ _, EmptyString => None
  end.

(** The result of a scanning function: the value read and the text that
    follows it, a [JSONDecodeError], or a recursion budget that ran out
    (lemma [decode_fuel] below: [loads] never ends that way). *)
Inductive scan (A : Type) : Type :=
| Scanned (a : A) (rest : string)
| DecodeError
| OutOfFuel.
Arguments Scanned {A} a rest.
Arguments DecodeError {A}.
Arguments OutOfFuel {A}.

(** The words of [_scan_once] that are neither string, object, array nor
    number. *)
Definition scan_constant (s : string) : scan pyval :=
  match strip_prefix "null" s with
  | Some r => Scanned PyNone r
  | None =>
  match strip_prefix "true" s with
  | Some r => Scanned (PyBool true) r
  | None =>
  match strip_prefix "false" s with
  | Some r => Scanned (PyBool false) r
  | None =>
  match match_number s with
  | Some (v, r) => Scanned v r
  | None =>
  match strip_prefix "NaN" s with
  | Some r => Scanned (PyFloat "NaN") r
  | None =>
  match strip_prefix "Infinity" s with
  | Some r => Scanned (PyFloat "Infinity") r
  | None =>
  match strip_prefix "-Infinity" s with
  | Some r => Scanned (PyFloat "-Infinity") r
  | None => DecodeError
  end end end end end end end.

(** [_scan_once], [JSONObject] and [JSONArray].  [members] reads the
    members of an object from the opening quote of a key to the closing
    brace, [elements] the elements of an array from the first character
    of a value to the closing bracket. *)
Fixpoint scan_once (fuel : nat) (s : string) : scan pyval :=
  match fuel with
  | O => OutOfFuel
  | S fuel =>
      match s with
      | EmptyString => DecodeError
      | String c rest =>
          if Ascii.eqb c DQUOTE then
            match scanstring rest with
            | Some (str, r) => Scanned (PyStr str) r
            | None => DecodeError
            end
          else if Ascii.eqb c "{" then
            match strip_char "}" (skip_ws rest) with
            | Some r => Scanned (PyDict []) r
            | None =>
                match members fuel (skip_ws rest) with
                | Scanned pairs r => Scanned (PyDict (PyDictOps.of_pairs pairs)) r
                | DecodeError => DecodeError
                | OutOfFuel => OutOfFuel
                end
            end
          else if Ascii.eqb c "[" then
            match strip_char "]" (skip_ws rest) with
            | Some r => Scanned (PyList []) r
            | None =>
                match elements fuel (skip_ws rest) with
                | Scanned vs r => Scanned (PyList vs) r
                | DecodeError => DecodeError
                | OutOfFuel => OutOfFuel
                end
            end
          else scan_constant s
      end
  end
with members (fuel : nat) (s : string) : scan (list (string * pyval)) :=
  match fuel with
  | O => OutOfFuel
  | S fuel =>
      match strip_char DQUOTE s with
      | None => DecodeError
      | Some rest =>
          match scanstring rest with
          | None => DecodeError
          | Some (key, r) =>
              match strip_char ":" (skip_ws r) with
              | None => DecodeError
              | Some r1 =>
                  match scan_once fuel (skip_ws r1) with
                  | Scanned value r2 =>
                      match strip_char "}" (skip_ws r2) with
                      | Some r3 => Scanned [(key, value)] r3
                      | None =>
                          match strip_char "," (skip_ws r2) with
                          | None => DecodeError
                          | Some r3 =>
                              match members fuel (skip_ws r3) with
                              | Scanned more r4 =>
                                  Scanned ((key, value) :: more) r4
                              | DecodeError => DecodeError
                              | OutOfFuel => OutOfFuel
                              end
                          end
                      end
                  | DecodeError => DecodeError
                  | OutOfFuel => OutOfFuel
                  end
              end
          end
      end
  end
with elements (fuel : nat) (s : string) : scan (list pyval) :=
  match fuel with
  | O => OutOfFuel
  | S fuel =>
      match scan_once fuel s with
      | Scanned value r =>
          match strip_char "]" (skip_ws r) with
          | Some r1 => Scanned [value] r1
          | None =>
              match strip_char "," (skip_ws r) with
              | None => DecodeError
              | Some r1 =>
                  match elements fuel (skip_ws r1) with
                  | Scanned more r2 => Scanned (value :: more) r2
                  | DecodeError => DecodeError
                  | OutOfFuel => OutOfFuel
                  end
              end
          end
      | DecodeError => DecodeError
      | OutOfFuel => OutOfFuel
      end
  end.

(** [JSONDecoder.decode]: one value between optional white space, and
    nothing after it. *)
Definition decode (fuel : nat) (s : string) : scan pyval :=
  match scan_once fuel (skip_ws s) with
  | Scanned v r =>
      match skip_ws r with
      | EmptyString => Scanned v EmptyString
      | _ => DecodeError
      end
  | DecodeError => DecodeError
  | OutOfFuel => OutOfFuel
  end.

(** [json.loads(s)]: the value, or [None] for a [JSONDecodeError].  An
    array costs two units of fuel for each character it opens with, hence
    the budget.  The decoder stands for [json.loads] on the texts whose
    escapes stay within the alphabet, whose numbers have at most the 4300
    digits [int] accepts, and whose nesting is far from the recursion
    limit; beyond them [json.loads] decodes the wider escapes and raises
    a [ValueError] or a [RecursionError], and the statements that depend
    on what was decoded are made for the former texts only. *)
Definition loads (s : string) : option pyval :=
  match decode (S (2 * String.length s)) s with
  | Scanned v _ => Some v
  | _ => None
  end.

End Json.


(* ===================================================================== *)
(** * Exceptions, the state of the process and the monad of coroutines *)
(* ===================================================================== *)

(** The exception classes the program meets.  [APIError] stands for the
    failures of the completion API (connection, status, time-out); only
    [KeyboardInterrupt] is not an [Exception]. *)
Inductive exc_class : Type :=
| FileNotFoundError | FileExistsError | IsADirectoryError | PermissionError
| OSError | JSONDecodeError | AttributeError | IndexError | ValueError
| APIError | KeyboardInterrupt.

(** [isinstance(e, Exception)] *)
Definition is_Exception (c : exc_class) : bool :=
  match c with KeyboardInterrupt => false | _ => true end.

(** An exception: its class and [str(e)]. *)
Record exception : Type := { exc_cls : exc_class; exc_str : string }.

Inductive result (A : Type) : Type :=
| Ok (a : A)
| Raise (e : exception).
Arguments Ok {A} a.
Arguments Raise {A} e.

(** ** The file system *)

Inductive node : Type :=
| Dir
| File (text : string).

(** The nodes by path (paths are compared as texts), the paths the
    process may not open or create, and whether the device is full. *)
Record filesystem : Type := {
  nodes : gmap string node;
  denied : gset string;
  no_space : bool
}.

(** [os.path.isdir(path)] *)
Definition isdir (f : filesystem) (path : string) : bool :=
  match nodes f !! path with Some Dir => true | _ => false end.

(** ** The remote services *)

(** A block of [response.content]: a text block, or a block of another
    class, which has no attribute [text]. *)
Inductive block : Type :=
| TextBlock (text : string)
| OtherBlock (class_name : string).

(** What [client.messages.create] does: a response with its [content],
    or an exception. *)
Inductive api_outcome : Type :=
| ApiResponse (content : list block)
| ApiRaises (e : exception).

(** The body of a [CreateMessageRequest]. *)
Record CreateMessageRequest : Type := {
  receive_id_type : string;
  receive_id : string;
  msg_type : string;
  content : string
}.

(** What [client.im.v1.message.create] does: a response with [code] and
    [msg], or an exception. *)
Inductive lark_outcome : Type :=
| LarkResponse (code : Z) (msg : string)
| LarkRaises (e : exception).

(** ** The objects of the process *)

(** [SessionManager]; its [_lock] is created and never acquired. *)
Record SessionManager : Type := {
  _sessions : gmap string string;
  _persistence_path : string
}.

(** The class attributes of [Config] the embedded code reads, as read from
    the environment: [os.getenv(name)] is [None] for an unset variable,
    [os.getenv(name, default)] is always a string. *)
Record Config : Type := {
  ANTHROPIC_API_KEY : option string;
  CLAUDE_MODEL : string;
  GLM_API_KEY : option string;
  GLM_MODEL : string;
  GLM_API_BASE_URL : string;
  SESSION_PERSISTENCE_PATH : string
}.

Inductive level : Type := INFO | WARNING | ERROR.

(** A call of a method of the session manager, with its arguments. *)
Inductive store_call : Type :=
| CallLoad
| CallSave
| CallGet (chat_id : string)
| CallSet (chat_id session_id : string)
| CallClear (chat_id : string).

(** The state a task runs in: the session manager of the bot, the flag
    [_running], the file system, the records the root logger has emitted
    (its level is [INFO]), the requests handed to the Lark client and the
    prompts handed to the completion API, oldest first, and how the two
    services answer a call given the calls before it.  [store_calls] is a
    ghost field: the calls of the methods of the session manager so far,
    oldest first; no code reads it. *)
Record world : Type := {
  session_manager : SessionManager;
  _running : bool;
  cfg : Config;
  fs : filesystem;
  log : list (level * string);
  sent : list CreateMessageRequest;
  prompts : list string;
  store_calls : list store_call;
  lark_service : list CreateMessageRequest -> CreateMessageRequest -> lark_outcome;
  completion_service : list string -> string -> api_outcome
}.

Definition with_session_manager (sm : SessionManager) (w : world) : world :=
  {| session_manager := sm; _running := _running w; cfg := cfg w;
     fs := fs w; log := log w; sent := sent w; prompts := prompts w;
     store_calls := store_calls w; lark_service := lark_service w;
     completion_service := completion_service w |}.

Definition with_fs (f : filesystem) (w : world) : world :=
  {| session_manager := session_manager w; _running := _running w;
     cfg := cfg w; fs := f; log := log w; sent := sent w;
     prompts := prompts w; store_calls := store_calls w;
     lark_service := lark_service w;
     completion_service := completion_service w |}.

Definition with_log (l : list (level * string)) (w : world) : world :=
  {| session_manager := session_manager w; _running := _running w;
     cfg := cfg w; fs := fs w; log := l; sent := sent w;
     prompts := prompts w; store_calls := store_calls w;
     lark_service := lark_service w;
     completion_service := completion_service w |}.

Definition with_sent (l : list CreateMessageRequest) (w : world) : world :=
  {| session_manager := session_manager w; _running := _running w;
     cfg := cfg w; fs := fs w; log := log w; sent := l;
     prompts := prompts w; store_calls := store_calls w;
     lark_service := lark_service w;
     completion_service := completion_service w |}.

Definition with_prompts (l : list string) (w : world) : world :=
  {| session_manager := session_manager w; _running := _running w;
     cfg := cfg w; fs := fs w; log := log w; sent := sent w;
     prompts := l; store_calls := store_calls w;
     lark_service := lark_service w;
     completion_service := completion_service w |}.

Definition with_store_calls (l : list store_call) (w : world) : world :=
  {| session_manager := session_manager w; _running := _running w;
     cfg := cfg w; fs := fs w; log := log w; sent := sent w;
     prompts := prompts w; store_calls := l;
     lark_service := lark_service w;
     completion_service := completion_service w |}.

Definition with_running (b : bool) (w : world) : world :=
  {| session_manager := session_manager w; _running := b;
     cfg := cfg w; fs := fs w; log := log w; sent := sent w;
     prompts := prompts w; store_calls := store_calls w;
     lark_service := lark_service w;
     completion_service := completion_service w |}.

(** ** The monad *)

(** A computation runs in a state and ends with a value or an exception;
    what it did to the state before it raised stays done. *)
Definition M (A : Type) : Type := world -> result A * world.

#[export] Instance M_ret : MRet M := fun A a w => (Ok a, w).

#[export] Instance M_bind : MBind M := fun A B f c w =>
  match c w with
  | (Ok a, w') => f a w'
  | (Raise e, w') => (Raise e, w')
  end.

Definition raise {A} (cls : exc_class) (msg : string) : M A :=
  fun w => (Raise {| exc_cls := cls; exc_str := msg |}, w).

(** [raise e] for an exception at hand. *)
Definition throw {A} (e : exception) : M A := fun w => (Raise e, w).

Definition get_world : M world := fun w => (Ok w, w).

Definition modify (f : world -> world) : M unit := fun w => (Ok tt, f w).

(** [try: body  except Exception as e: handler(e)] *)
Definition try_except {A} (body : M A) (handler : exception -> M A) : M A :=
  fun w =>
    match body w with
    | (Raise e, w') =>
        if is_Exception (exc_cls e) then handler e w' else (Raise e, w')
    | r => r
    end.

(** [logger.info], [logger.warning], [logger.error]; [logger.debug]
    emits nothing at level [INFO]. *)
Definition logger (lv : level) (msg : string) : M unit :=
  modify (fun w => with_log (log w ++ [(lv, msg)]) w).

Definition logger_debug (msg : string) : M unit := mret tt.

(** Ghost: note a call of a method of the session manager. *)
Definition called (c : store_call) : M unit :=
  modify (fun w => with_store_calls (store_calls w ++ [c]) w).

(** ** [os] and [open] *)

(** The text of an [OSError] is the one of its error number; Python adds
    the file name to it. *)
Module Os.

(** [os.path.exists(path)] *)
Definition path_exists (path : string) : M bool :=
  w ← get_world;
  mret (bool_decide (is_Some (nodes (fs w) !! path))).

(** [os.makedirs(name, exist_ok=True)].  The empty name is no directory
    ([mkdir] fails with ENOENT and [isdir] is false); an existing
    directory is accepted; an existing file is not; else the directory is
    made, with the ancestors it lacks, unless that is refused. *)
Definition makedirs (name : string) : M unit :=
  w ← get_world;
  if PyStr.truthy name then
    match nodes (fs w) !! name with
    | Some Dir => mret tt
    | Some (File _) => raise FileExistsError "[Errno 17] File exists"
    | None =>
        if bool_decide (name ∈ denied (fs w))
        then raise PermissionError "[Errno 13] Permission denied"
        else modify (with_fs
               {| nodes := <[name := Dir]> (nodes (fs w));
                  denied := denied (fs w); no_space := no_space (fs w) |})
    end
  else raise FileNotFoundError "[Errno 2] No such file or directory".

(** [open(path, 'w')]: the file is created or emptied. *)
Definition open_w (path : string) : M unit :=
  w ← get_world;
  match nodes (fs w) !! path with
  | Some Dir => raise IsADirectoryError "[Errno 21] Is a directory"
  | _ =>
      if bool_decide (path ∈ denied (fs w))
      then raise PermissionError "[Errno 13] Permission denied"
      else
        let parent := OsPath.dirname path in
        if PyStr.truthy parent && negb (isdir (fs w) parent)
        then raise FileNotFoundError "[Errno 2] No such file or directory"
        else modify (with_fs
               {| nodes := <[path := File EmptyString]> (nodes (fs w));
                  denied := denied (fs w); no_space := no_space (fs w) |})
  end.

(** Writing [text] to the file opened at [path] and closing it. *)
Definition write (path text : string) : M unit :=
  w ← get_world;
  if no_space (fs w)
  then raise OSError "[Errno 28] No space left on device"
  else modify (with_fs
         {| nodes := <[path := File text]> (nodes (fs w));
            denied := denied (fs w); no_space := no_space (fs w) |}).

(** [open(path, 'r')] and reading the whole file. *)
Definition read (path : string) : M string :=
  w ← get_world;
  match nodes (fs w) !! path with
  | None => raise FileNotFoundError "[Errno 2] No such file or directory"
  | Some Dir => raise IsADirectoryError "[Errno 21] Is a directory"
  | Some (File text) =>
      if bool_decide (path ∈ denied (fs w))
      then raise PermissionError "[Errno 13] Permission denied"
      else mret text
  end.

End Os.


(* ===================================================================== *)
(** * [config.py] *)
(* ===================================================================== *)

Module config.

(** The dictionary [get_agent_config] returns. *)
Record agent_config : Type := {
  api_key : string;
  model : string;
  api_base_url : option string
}.

(** [Config.get_agent_config()]: GLM when its key is set, else Anthropic
    when its key is set, else a [ValueError]. *)
Definition get_agent_config : M agent_config :=
  w ← get_world;
  let cls := cfg w in
  match GLM_API_KEY cls with
  | Some (String _ _ as key) =>
      mret {| api_key := key; model := GLM_MODEL cls;
              api_base_url := Some (GLM_API_BASE_URL cls) |}
  | _ =>
      match ANTHROPIC_API_KEY cls with
      | Some (String _ _ as key) =>
          mret {| api_key := key; model := CLAUDE_MODEL cls;
                  api_base_url := None |}
      | _ =>
          raise ValueError
            "No API key configured. Set GLM_API_KEY or ANTHROPIC_API_KEY"
      end
  end.

(** The class attributes of [Config] that select and configure the
    platform; the keys and models of the agent are in the record [Config]
    above. *)
Record PlatformConfig : Type := {
  PLATFORM : string;
  DISCORD_BOT_TOKEN : option string;
  DISCORD_COMMAND_PREFIX : string;
  FEISHU_APP_ID : option string;
  FEISHU_APP_SECRET : option string;
  AGENT_WORKSPACE : string
}.

(** [os.getenv(name)] and [os.getenv(name, default)] in an environment. *)
Definition getenv (environ : gmap string string) (name : string)
  : option string := environ !! name.

Definition getenv_or (environ : gmap string string) (name fallback : string)
  : string := default fallback (environ !! name).

(** The body of the class [Config], run in an environment. *)
Definition Config_of_environ (environ : gmap string string) : Config :=
  {| ANTHROPIC_API_KEY := getenv environ "ANTHROPIC_API_KEY";
     CLAUDE_MODEL := getenv_or environ "CLAUDE_MODEL" "claude-3-5-sonnet-20241022";
     GLM_API_KEY := getenv environ "GLM_API_KEY";
     GLM_MODEL := getenv_or environ "GLM_MODEL" "glm-4.7";
     GLM_API_BASE_URL :=
       getenv_or environ "GLM_API_BASE_URL"
         "https://open.bigmodel.cn/api/anthropic";
     SESSION_PERSISTENCE_PATH :=
       getenv_or environ "SESSION_PERSISTENCE_PATH" "./sessions.json" |}.

Definition PlatformConfig_of_environ (environ : gmap string string)
  : PlatformConfig :=
  {| PLATFORM := PyStr.lower (getenv_or environ "PLATFORM" "discord");
     DISCORD_BOT_TOKEN := getenv environ "DISCORD_BOT_TOKEN";
     DISCORD_COMMAND_PREFIX := getenv_or environ "DISCORD_COMMAND_PREFIX" "!";
     FEISHU_APP_ID := getenv environ "FEISHU_APP_ID";
     FEISHU_APP_SECRET := getenv environ "FEISHU_APP_SECRET";
     AGENT_WORKSPACE := getenv_or environ "AGENT_WORKSPACE" "./workspace" |}.

(** Truth value of an attribute that is a string or [None]. *)
Definition is_set (value : option string) : bool :=
  match value with
  | Some text => PyStr.truthy text
  | None => false
  end.

(** The list [errors] of [Config.validate] when it reaches its last
    test. *)
Definition validation_errors (cls : PlatformConfig) (keys : Config)
  : list string :=
  let errors := [] in
  let errors :=
    if negb (String.eqb (PLATFORM cls) "discord"
             || String.eqb (PLATFORM cls) "feishu")
    then errors ++ ["PLATFORM must be 'discord' or 'feishu', got: "
                    +:+ PLATFORM cls]
    else errors in
  let errors :=
    if String.eqb (PLATFORM cls) "discord" then
      if negb (is_set (DISCORD_BOT_TOKEN cls))
      then errors ++ ["DISCORD_BOT_TOKEN is required when PLATFORM=discord"%string]
      else errors
    else if String.eqb (PLATFORM cls) "feishu" then
      let errors :=
        if negb (is_set (FEISHU_APP_ID cls))
        then errors ++ ["FEISHU_APP_ID is required when PLATFORM=feishu"%string]
        else errors in
      if negb (is_set (FEISHU_APP_SECRET cls))
      then errors ++ ["FEISHU_APP_SECRET is required when PLATFORM=feishu"%string]
      else errors
    else errors in
  if negb (is_set (GLM_API_KEY keys)) && negb (is_set (ANTHROPIC_API_KEY keys))
  then errors ++ ["At least one API key is required: GLM_API_KEY or ANTHROPIC_API_KEY"%string]
  else errors.

(** [Config.validate()] *)
Definition validate (cls : PlatformConfig) : M bool :=
  w ← get_world;
  match validation_errors cls (cfg w) with
  | [] => mret true
  | errors =>
      raise ValueError
        ("Configuration errors:" +:+ Json.string_of_char Json.LF
         +:+ PyStr.join (Json.string_of_char Json.LF)
               (map (fun e => "  - " +:+ e) errors))
  end.

(** [Config.get_platform_info()] *)
Definition get_platform_info (cls : PlatformConfig) : M string :=
  agent_config ← get_agent_config;
  if String.eqb (PLATFORM cls) "discord"
  then mret ("Discord bot with " +:+ model agent_config)
  else mret ("Feishu/Lark bot with " +:+ model agent_config).

End config.

(* ===================================================================== *)
(** * [agent_client.py] *)
(* ===================================================================== *)

Module agent_client.

Record AgentClient : Type := {
  api_key : option string;
  model : string;
  api_base_url : option string;
  workspace : string
}.

(** What the attribute [content] of a message can hold for
    [_extract_text]: a string, a list of blocks, or something else. *)
Inductive content_value : Type :=
| ContentStr (s : string)
| ContentList (l : list block)
| ContentOther.

(** The local class [Message] of [query_stream]. *)
Record Message : Type := { content : content_value }.

(** [self.client.messages.create] with the model of the client and the
    prompt as the one user message: one call of the completion API. *)
Definition messages_create (self : AgentClient) (prompt : string)
  : M (list block) :=
  w ← get_world;
  modify (with_prompts (prompts w ++ [prompt]));;
  match completion_service w (prompts w) prompt with
  | ApiResponse content => mret content
  | ApiRaises e => throw e
  end.

(** [response.content[0].text] *)
Definition first_text (content : list block) : M string :=
  match content with
  | [] => raise IndexError "list index out of range"
  | TextBlock text :: _ => mret text
  | OtherBlock class_name :: _ =>
      raise AttributeError
        ("'" +:+ class_name +:+ "' object has no attribute 'text'")
  end.

(** [AgentClient.query_stream]: the messages the generator yields, in
    order, when it is run to its end. *)
Definition query_stream (self : AgentClient) (prompt : string)
    (session_id : option string) : M (list Message) :=
  try_except
    (response ← messages_create self prompt;
     text ← first_text response;
     mret [ {| content := ContentStr text |} ])
    (fun e =>
     mret [ {| content := ContentStr ("Error: " +:+ exc_str e) |} ]).

(** Both bots carry the same [_extract_text]. *)
Definition _extract_text (message : Message) : string :=
  match content message with
  | ContentStr s => s
  | ContentList l =>
      fold_left
        (fun parts b =>
           match b with
           | TextBlock text => parts +:+ text
           | OtherBlock _ => parts
           end) l EmptyString
  | ContentOther => EmptyString
  end.

End agent_client.

(* ===================================================================== *)
(** * [feishu_bot.py] *)
(* ===================================================================== *)

Module feishu_bot.

(** ** [SessionManager] *)

(** [SessionManager(persistence_path)] *)
Definition __init__ (persistence_path : string) : SessionManager :=
  {| _sessions := ∅; _persistence_path := persistence_path |}.

Definition set_sessions (d : gmap string string) : M unit :=
  modify (fun w =>
    with_session_manager
      {| _sessions := d;
         _persistence_path := _persistence_path (session_manager w) |} w).

(** The body of the [try] of [save_to_file]. *)
Definition save_to_file_body : M unit :=
  w ← get_world;
  let self := session_manager w in
  Os.makedirs (OsPath.dirname (_persistence_path self));;
  Os.open_w (_persistence_path self);;
  Os.write (_persistence_path self) (Json.dumps (_sessions self)).

Definition save_to_file : M unit :=
  called CallSave;;
  try_except save_to_file_body
    (fun e => logger WARNING ("Failed to save sessions: " +:+ exc_str e)).

Definition get_session_id (chat_id : string) : M (option string) :=
  called (CallGet chat_id);;
  w ← get_world;
  mret (_sessions (session_manager w) !! chat_id).

Definition set_session_id (chat_id session_id : string) : M unit :=
  called (CallSet chat_id session_id);;
  w ← get_world;
  set_sessions (<[chat_id := session_id]> (_sessions (session_manager w)));;
  save_to_file.

Definition clear_session (chat_id : string) : M unit :=
  called (CallClear chat_id);;
  w ← get_world;
  match _sessions (session_manager w) !! chat_id with
  | Some _ =>
      set_sessions (delete chat_id (_sessions (session_manager w)));;
      save_to_file
  | None => mret tt
  end.

(** [type(v).__name__] *)
Definition type_name (v : pyval) : string :=
  match v with
  | PyNone => "NoneType"
  | PyBool _ => "bool"
  | PyInt _ => "int"
  | PyFloat _ => "float"
  | PyStr _ => "str"
  | PyList _ => "list"
  | PyDict _ => "dict"
  end.

Definition no_attribute {A} (v : pyval) (attr : string) : M A :=
  raise AttributeError
    ("'" +:+ type_name v +:+ "' object has no attribute '" +:+ attr +:+ "'").

(** [json.loads(text)] as a computation. *)
Definition json_loads (text : string) : M pyval :=
  match Json.loads text with
  | Some v => mret v
  | None => raise JSONDecodeError "Expecting value"
  end.

(** [data.items()] *)
Definition items_of (data : pyval) : M (list (string * pyval)) :=
  match data with
  | PyDict items => mret items
  | _ => no_attribute data "items"
  end.

Section LoadFromFile.

(** [repr] of a float, a list or a dict, which is what [str] gives for
    them. *)
Variable py_repr : pyval -> string.

(** [str(v)] *)
Definition py_str (v : pyval) : string :=
  match v with
  | PyNone => "None"
  | PyBool true => "True"
  | PyBool false => "False"
  | PyInt z => pretty z
  | PyStr s => s
  | _ => py_repr v
  end.

(** [{str(k): str(v) for k, v in items}]; the keys of a decoded object
    are strings already. *)
Definition str_dict (items : list (string * pyval)) : gmap string string :=
  fold_left (fun d kv => <[kv.1 := py_str kv.2]> d) items ∅.

(** The body of the [try] of [load_from_file]. *)
Definition load_from_file_body : M unit :=
  w ← get_world;
  let self := session_manager w in
  found ← Os.path_exists (_persistence_path self);
  if (found : bool) then
    text ← Os.read (_persistence_path self);
    data ← json_loads text;
    items ← items_of data;
    set_sessions (str_dict items);;
    logger INFO ("Loaded " +:+ pretty (size (str_dict items)) +:+ " sessions")
  else mret tt.

Definition load_from_file : M unit :=
  called CallLoad;;
  try_except load_from_file_body
    (fun e =>
     logger WARNING ("Failed to load sessions: " +:+ exc_str e);;
     set_sessions ∅).

End LoadFromFile.

(** ** The outbound side *)

(** [_escape_lark_text] *)
Definition _escape_lark_text (text : string) : string :=
  PyStr.replace Json.CR "\r"
    (PyStr.replace Json.LF "\n"
      (PyStr.replace Json.DQUOTE (String "\" (String Json.DQUOTE EmptyString))
        (PyStr.replace "\" "\\" text))).

Definition DQ : string := Json.string_of_char Json.DQUOTE.

(** The f-string of [_send_message]: an opening brace, the quoted word
    [text], a colon, the escaped text between quotes, a closing brace. *)
Definition text_payload (escaped_text : string) : string :=
  "{" +:+ DQ +:+ "text" +:+ DQ +:+ ":" +:+ DQ +:+ escaped_text +:+ DQ +:+ "}".

Record FeishuBot : Type := {
  agent : agent_client.AgentClient;
  app_id : string;
  app_secret : string
}.

(** [client.im.v1.message.create(request)] *)
Definition message_create (request : CreateMessageRequest)
  : M (Z * string) :=
  w ← get_world;
  modify (with_sent (sent w ++ [request]));;
  match lark_service w (sent w) request with
  | LarkResponse code msg => mret (code, msg)
  | LarkRaises e => throw e
  end.

Definition _send_message (self : FeishuBot) (chat_id text : string) : M unit :=
  let escaped_text := _escape_lark_text text in
  try_except
    (let request :=
       {| receive_id_type := "chat_id"; receive_id := chat_id;
          msg_type := "text"; content := text_payload escaped_text |} in
     response ← message_create request;
     if (response.1 =? 0)%Z
     then logger_debug ("Message sent to chat " +:+ chat_id)
     else logger ERROR ("Failed to send message: " +:+ response.2
                        +:+ " (code=" +:+ pretty response.1 +:+ ")"))
    (fun e =>
     logger ERROR ("Exception sending message to " +:+ chat_id +:+ ": "
                   +:+ exc_str e)).

(** ** The two kinds of turn *)

Definition _extract_text := agent_client._extract_text.

Definition _process_agent_message (self : FeishuBot) (chat_id prompt : string)
  : M unit :=
  _send_message self chat_id "Processing...";;
  session_id ← get_session_id chat_id;
  try_except
    (messages ← agent_client.query_stream (agent self) prompt session_id;
     let response_text :=
       fold_left
         (fun acc message =>
            let text := _extract_text message in
            if PyStr.truthy text then acc +:+ text else acc)
         messages EmptyString in
     if PyStr.truthy response_text
     then _send_message self chat_id response_text
     else mret tt)
    (fun e =>
     logger ERROR ("Agent error for chat " +:+ chat_id +:+ ": " +:+ exc_str e);;
     _send_message self chat_id ("Error: " +:+ exc_str e)).

Definition NL : string := Json.string_of_char Json.LF.

Definition help_text : string :=
  "Disclaude Bot" +:+ NL +:+ NL +:+
  "Commands:" +:+ NL +:+
  "/reset - Clear session" +:+ NL +:+
  "/status - Show status" +:+ NL +:+
  "/help - Show this help" +:+ NL +:+ NL +:+
  "Just send a message to interact with agent.".

Definition _handle_command (self : FeishuBot) (chat_id text : string)
  : M unit :=
  if String.eqb text "/reset" || String.eqb text "/clear" then
    clear_session chat_id;;
    _send_message self chat_id "Session cleared."
  else if String.eqb text "/status" then
    session_id ← get_session_id chat_id;
    agent_config ← config.get_agent_config;
    let status :=
      "Model: " +:+ config.model agent_config +:+ NL +:+ "Session: " +:+
      (match session_id with
       | Some (String _ _) => "Active"
       | _ => "None"
       end) in
    _send_message self chat_id status
  else if String.eqb text "/help" then
    _send_message self chat_id help_text
  else
    _send_message self chat_id ("Unknown command: " +:+ text).

(** ** The inbound side *)

(** The fields of the event [handle_message_receive_v1] reads. *)
Record P2ImMessageReceiveV1 : Type := {
  chat_id : string;
  message_content : string;
  message_type : string
}.

(** The member [text] of the content, [strip]ped; the empty text when
    the object has no such member. *)
Definition text_of (content : pyval) : M string :=
  match content with
  | PyDict items =>
      match PyDictOps.get items "text" with
      | None => mret (PyStr.strip EmptyString)
      | Some (PyStr s) => mret (PyStr.strip s)
      | Some v => no_attribute v "strip"
      end
  | _ => no_attribute content "get"
  end.

(** [loop.call_soon_threadsafe(lambda: asyncio.create_task(coro))]: the
    task runs; an exception it ends with stays in the task, and asyncio
    reports it on its own logger. *)
Definition create_task (coro : M unit) : M unit :=
  fun w =>
    match coro w with
    | (Ok _, w') => (Ok tt, w')
    | (Raise e, w') =>
        logger ERROR ("Task exception was never retrieved: " +:+ exc_str e) w'
    end.

Definition handle_message_receive_v1 (self : FeishuBot)
    (data : P2ImMessageReceiveV1) : M unit :=
  w ← get_world;
  if negb (_running w) then mret tt
  else
    logger INFO ("[Received] chat_id: " +:+ chat_id data +:+ ", type: "
                 +:+ message_type data);;
    if negb (String.eqb (message_type data) "text") then mret tt
    else
      parsed ← try_except
                 (content ← json_loads (message_content data);
                  text ← text_of content;
                  mret (Some text))
                 (fun e =>
                  logger ERROR ("[Error] Failed to parse content: "
                                +:+ exc_str e);;
                  mret None);
      match parsed with
      | None => mret tt
      | Some text =>
          if negb (PyStr.truthy text) then mret tt
          else if PyStr.startswith "/" text
          then create_task (_handle_command self (chat_id data) text)
          else create_task (_process_agent_message self (chat_id data) text)
      end.

(** [FeishuBot.stop] *)
Definition stop : M unit :=
  modify (with_running false);;
  logger INFO "Feishu bot stopped.".

End feishu_bot.


(* ===================================================================== *)
(** * [discord_bot.py]: the command side *)
(* ===================================================================== *)

Module discord_bot.








(** The fields of a message [on_message] reads: whether the author is a
    bot, the text, whether the bot is among the mentions. *)
Record Message : Type := {
  author_bot : bool;
  content : string;
  mentions_bot : bool
}.


End discord_bot.


(* ===================================================================== *)
(** * [main.py]: how the session manager is made *)
(* ===================================================================== *)

Module main.

(** [os.getenv('SESSION_PERSISTENCE_PATH', './sessions.json')] *)
Definition session_persistence_path (env : option string) : string :=
  match env with
  | Some path => path
  | None => "./sessions.json"
  end.

(** [SessionManager(Config.SESSION_PERSISTENCE_PATH)] of [run_feishu]. *)
Definition session_manager_of (c : Config) : SessionManager :=
  feishu_bot.__init__ (SESSION_PERSISTENCE_PATH c).

(** How [main] ends: [sys.exit(code)], the call of [run_discord] or of
    [run_feishu], or an exception nothing catches. *)
Inductive ending : Type :=
| Exit (code : Z)
| RunDiscord
| RunFeishu
| Uncaught (e : exception).

(** [isinstance(e, ValueError)]; a [JSONDecodeError] is one. *)
Definition is_ValueError (c : exc_class) : bool :=
  match c with ValueError | JSONDecodeError => true | _ => false end.

Definition banner : list string :=
  [PyStr.times "=" 50; "  Disclaude - Agent Bot"%string; PyStr.times "=" 50;
   EmptyString].

(** [main()]: what it prints, one text for each [print], how it ends,
    and the state it leaves. *)
Definition main (cls : config.PlatformConfig) (w : world)
  : list string * ending * world :=
  match config.validate cls w with
  | (Raise e, w1) =>
      if is_ValueError (exc_cls e) then
        (banner ++
           ["Configuration error:" +:+ Json.string_of_char Json.LF +:+ exc_str e;
            Json.string_of_char Json.LF
              +:+ "Please create a .env file based on .env.example"],
         Exit 1, w1)
      else (banner, Uncaught e, w1)
  | (Ok _, w1) =>
      match config.get_platform_info cls w1 with
      | (Raise e, w2) => (banner, Uncaught e, w2)
      | (Ok platform_info, w2) =>
          let printed := banner ++ ["Platform: " +:+ platform_info; EmptyString] in
          if String.eqb (config.PLATFORM cls) "discord"
          then (printed, RunDiscord, w2)
          else if String.eqb (config.PLATFORM cls) "feishu"
          then (printed, RunFeishu, w2)
          else (printed ++ ["Unknown platform: " +:+ config.PLATFORM cls],
                Exit 1, w2)
      end
  end.

End main.


(* ===================================================================== *)
(** * Vocabulary of the statements *)
(* ===================================================================== *)

Import feishu_bot.

(** ** Texts and JSON *)

(** The characters a JSON string may not hold unescaped: below U+0020. *)
Definition is_control (c : ascii) : bool := (N_of_ascii c <? 32)%N.

(** No control character other than line feed and carriage return. *)
Fixpoint plain_text (text : string) : bool :=
  match text with
  | EmptyString => true
  | String c rest =>
      (negb (is_control c) || Ascii.eqb c Json.LF || Ascii.eqb c Json.CR)
      && plain_text rest
  end.

Definition escape_one (c : ascii) : string :=
  if Ascii.eqb c "\" then "\\"
  else if Ascii.eqb c Json.DQUOTE then String "\" (String Json.DQUOTE "")
  else if Ascii.eqb c Json.LF then "\n"
  else if Ascii.eqb c Json.CR then "\r"
  else String c "".

Definition as_pyval (kv : string * string) : string * pyval := (kv.1, PyStr kv.2).

(** No escape [\uXXXX] in the text names a character above U+00FF, the
    last of the alphabet. *)
Fixpoint no_wide_escape (s : string) : bool :=
  match s with
  | EmptyString => true
  | String c rest =>
      (if Ascii.eqb c "\" then
         match rest with
         | String u (String h1 (String h2 (String h3 (String h4 _)))) =>
             if Ascii.eqb u "u" then
               match Json.decode_uXXXX h1 h2 h3 h4 with
               | Some n => (n <? 256)%N
               | None => true
               end
             else true
         | _ => true
         end
       else true)
      && no_wide_escape rest
  end.

(** No run of digits in the text is longer than [limit]; [room] is what
    the run being read may still take. *)
Fixpoint digit_runs_within (limit room : nat) (s : string) : bool :=
  match s with
  | EmptyString => true
  | String c rest =>
      if Json.is_digit c then
        match room with
        | O => false
        | S room' => digit_runs_within limit room' rest
        end
      else digit_runs_within limit limit rest
  end.

(** The text has at most [budget] opening brackets and braces. *)
Fixpoint brackets_within (budget : nat) (s : string) : bool :=
  match s with
  | EmptyString => true
  | String c rest =>
      if Ascii.eqb c "[" || Ascii.eqb c "{" then
        match budget with
        | O => false
        | S budget' => brackets_within budget' rest
        end
      else brackets_within budget rest
  end.

(** The texts on which [Json.loads] stands for [json.loads]: the escapes
    stay within the alphabet, no number has more than the 4300 digits
    [int] accepts, and the nesting is far from the recursion limit. *)
Definition tame_json (s : string) : bool :=
  no_wide_escape s && digit_runs_within 4300 4300 s && brackets_within 50 s.

(** ** Frames *)

(** [keeps p c]: running [c] leaves the component [p] of the state as it
    was, whatever the outcome. *)
Definition keeps {A X} (p : world -> X) (c : M A) : Prop :=
  forall w, p (c w).2 = p w.

(** [calls_only P c]: the calls of methods of the session manager that a
    run of [c] adds all satisfy [P]. *)
Definition calls_only {A} (P : store_call -> Prop) (c : M A) : Prop :=
  forall w, exists l,
    store_calls (c w).2 = store_calls w ++ l /\ Forall P l.

(** No call of [set_session_id]. *)
Definition not_set (c : store_call) : Prop :=
  match c with CallSet _ _ => False | _ => True end.

(** ** The session store *)


(** The outcome of the body of the [try] of [save_to_file] when the method
    is called in state [w]: [Ok] when the mapping was written, the
    exception the [except] clause catches otherwise. *)
Definition flush_outcome (w : world) : result unit :=
  (save_to_file_body (with_store_calls (store_calls w ++ [CallSave]) w)).1.

(** The state in which [set_session_id] calls [save_to_file]: the entry is
    set in memory. *)
Definition mem_set (chat session : string) (w : world) : world :=
  with_session_manager
    {| _sessions := <[chat := session]> (_sessions (session_manager w));
       _persistence_path := _persistence_path (session_manager w) |}
    (with_store_calls (store_calls w ++ [CallSet chat session]) w).

(** The state in which [clear_session] calls [save_to_file] for a key
    that is present. *)
Definition mem_clear (chat : string) (w : world) : world :=
  with_session_manager
    {| _sessions := delete chat (_sessions (session_manager w));
       _persistence_path := _persistence_path (session_manager w) |}
    (with_store_calls (store_calls w ++ [CallClear chat]) w).

Definition save_warning (e : exception) : level * string :=
  (WARNING, "Failed to save sessions: " +:+ exc_str e).

Definition load_info (d : gmap string string) : level * string :=
  (INFO, "Loaded " +:+ pretty (size d) +:+ " sessions").

(** The mapping is empty and the last record of the log is a warning. *)
Definition empty_with_warning (w0 w' : world) : Prop :=
  _sessions (session_manager w') = ∅
  /\ exists msg, log w' = log w0 ++ [(WARNING, msg)].

(** ** Messages *)

(** The request [_send_message] builds for a text. *)
Definition text_request (chat text : string) : CreateMessageRequest :=
  {| receive_id_type := "chat_id"; receive_id := chat; msg_type := "text";
     content := text_payload (_escape_lark_text text) |}.

(** The text [handle_message_receive_v1] takes from the content of an
    event: the stripped member [text] of the JSON object, the empty text
    when the object has no such member, nothing when the content is no
    JSON object or the member is no string. *)
Definition inbound_text (content_str : string) : option string :=
  match Json.loads content_str with
  | Some (PyDict items) =>
      match PyDictOps.get items "text" with
      | None => Some (PyStr.strip EmptyString)
      | Some (PyStr s) => Some (PyStr.strip s)
      | Some _ => None
      end
  | _ => None
  end.

Definition received (data : P2ImMessageReceiveV1) : level * string :=
  (INFO, "[Received] chat_id: " +:+ chat_id data +:+ ", type: "
         +:+ message_type data).


(** ** Concrete states for the examples *)

Definition config0 : Config :=
  {| ANTHROPIC_API_KEY := Some "sk-test"%string;
     CLAUDE_MODEL := "claude-3-5-sonnet-20241022";
     GLM_API_KEY := None; GLM_MODEL := "glm-4.7";
     GLM_API_BASE_URL := "https://open.bigmodel.cn/api/anthropic";
     SESSION_PERSISTENCE_PATH := "./sessions.json" |}.

(** A process in a directory that holds no session file yet. *)
Definition fs0 : filesystem :=
  {| nodes := {[ "."%string := Dir ]}; denied := ∅; no_space := false |}.

Definition fs1 : filesystem :=
  {| nodes := {[ "."%string := Dir;
                 "./sessions.json"%string :=
                   File (Json.dumps {[ "c1"%string := "s1"%string ]}) ]};
     denied := ∅; no_space := false |}.

Definition fs_int_value : filesystem :=
  {| nodes := {[ "."%string := Dir;
                 "./sessions.json"%string :=
                   File ("{" +:+ DQ +:+ "a" +:+ DQ +:+ ": 1}") ]};
     denied := ∅; no_space := false |}.

Definition world0 (path : string) (sessions : gmap string string)
    (f : filesystem) : world :=
  {| session_manager := {| _sessions := sessions; _persistence_path := path |};
     _running := true; cfg := config0; fs := f; log := []; sent := [];
     prompts := []; store_calls := [];
     lark_service := fun _ _ => LarkResponse 0 "success";
     completion_service := fun _ _ => ApiResponse [TextBlock "hi there"] |}.

Definition world_api_down : world :=
  {| session_manager := __init__ "./sessions.json";
     _running := true; cfg := config0; fs := fs0; log := []; sent := [];
     prompts := []; store_calls := [];
     lark_service := fun _ _ => LarkResponse 0 "success";
     completion_service := fun _ _ =>
       ApiRaises {| exc_cls := APIError; exc_str := "Connection error." |} |}.

Definition client0 : agent_client.AgentClient :=
  {| agent_client.api_key := Some "sk-test"%string;
     agent_client.model := "claude-3-5-sonnet-20241022";
     agent_client.api_base_url := None;
     agent_client.workspace := "./workspace" |}.

Definition bot0 : FeishuBot :=
  {| agent := client0; app_id := "cli_test"; app_secret := "secret" |}.

Definition reset_event : P2ImMessageReceiveV1 :=
  {| chat_id := "c1"; message_content := text_payload "/reset";
     message_type := "text" |}.

Definition unknown_event : P2ImMessageReceiveV1 :=
  {| chat_id := "c1"; message_content := text_payload "/frobnicate now";
     message_type := "text" |}.

(** A text with a quote, a backslash, a line feed, a carriage return and
    a character above U+007F. *)
Definition tricky_text : string :=
  "say " +:+ DQ +:+ "hi" +:+ DQ +:+ " \ " +:+ NL +:+ "x"
  +:+ Json.string_of_char Json.CR +:+ Json.string_of_char (ascii_of_N 233).

(** ** Configuration *)

(** The requirements of [Config.validate] on the platform and on the
    keys. *)
Definition platform_ready (cls : config.PlatformConfig) : bool :=
  String.eqb (config.PLATFORM cls) "discord"
    && config.is_set (config.DISCORD_BOT_TOKEN cls)
  || String.eqb (config.PLATFORM cls) "feishu"
     && config.is_set (config.FEISHU_APP_ID cls)
     && config.is_set (config.FEISHU_APP_SECRET cls).

Definition key_ready (keys : Config) : bool :=
  config.is_set (GLM_API_KEY keys) || config.is_set (ANTHROPIC_API_KEY keys).

(** ** Outcomes of the services *)

(** The record [_send_message] logs for an answer of the Lark client,
    if any. *)
Definition send_record (chat : string) (o : lark_outcome)
  : list (level * string) :=
  match o with
  | LarkResponse code msg =>
      if (code =? 0)%Z then []
      else [(ERROR, "Failed to send message: " +:+ msg +:+ " (code="
                    +:+ pretty code +:+ ")")]
  | LarkRaises e =>
      if is_Exception (exc_cls e)
      then [(ERROR, "Exception sending message to " +:+ chat +:+ ": "
                    +:+ exc_str e)]
      else []
  end.

(** The exception that leaves [_send_message], if any: one of the Lark
    client that is no [Exception]. *)
Definition send_result (o : lark_outcome) : result unit :=
  match o with
  | LarkRaises e => if is_Exception (exc_cls e) then Ok tt else Raise e
  | LarkResponse _ _ => Ok tt
  end.

(** The services fail with instances of [Exception] only. *)
Definition polite (w : world) : Prop :=
  (forall history request e,
     lark_service w history request = LarkRaises e ->
     is_Exception (exc_cls e) = true)
  /\ (forall history prompt e,
        completion_service w history prompt = ApiRaises e ->
        is_Exception (exc_cls e) = true).

(** The text of the message [query_stream] yields for an outcome of the
    completion API. *)
Definition reply_of (o : api_outcome) : string :=
  match o with
  | ApiResponse (TextBlock text :: _) => text
  | ApiResponse [] => "Error: list index out of range"
  | ApiResponse (OtherBlock class_name :: _) =>
      "Error: '" +:+ class_name +:+ "' object has no attribute 'text'"
  | ApiRaises e => "Error: " +:+ exc_str e
  end.

(** The requests of a turn: the notice, then the reply unless it is
    empty. *)
Definition turn_requests (chat reply : string) : list CreateMessageRequest :=
  text_request chat "Processing..."
  :: (if PyStr.truthy reply then [text_request chat reply] else []).

(** The request is a text message addressed to the chat [chat]. *)
Definition addressed_to (chat : string) (request : CreateMessageRequest)
  : Prop :=
  receive_id_type request = "chat_id"%string
  /\ receive_id request = chat
  /\ msg_type request = "text"%string.

(** ** Events *)

(** The text an event brings to the bot: the stripped member [text] of
    the content of a text message, when the bot runs and that text is not
    empty. *)
Definition actionable (w : world) (data : P2ImMessageReceiveV1)
  : option string :=
  if _running w && String.eqb (message_type data) "text" then
    match inbound_text (message_content data) with
    | Some text => if PyStr.truthy text then Some text else None
    | None => None
    end
  else None.

(** The events the web-socket client delivers, handled one after the
    other. *)
Fixpoint handle_events (self : FeishuBot) (events : list P2ImMessageReceiveV1)
  : M unit :=
  match events with
  | [] => mret tt
  | data :: rest =>
      handle_message_receive_v1 self data;; handle_events self rest
  end.

(** The event is a text message that asks to forget the session. *)
Definition clears (data : P2ImMessageReceiveV1) : bool :=
  String.eqb (message_type data) "text"
  && match inbound_text (message_content data) with
     | Some text => String.eqb text "/reset" || String.eqb text "/clear"
     | None => false
     end.

(** The prompt a text message carries: its text, unless it is empty or
    starts with a slash. *)
Definition prompt_of (data : P2ImMessageReceiveV1) : option string :=
  if String.eqb (message_type data) "text" then
    match inbound_text (message_content data) with
    | Some text =>
        if PyStr.truthy text && negb (PyStr.startswith "/" text)
        then Some text else None
    | None => None
    end
  else None.

(** The event is within the reach of the decoder: its content is a tame
    text, or is never decoded because the message is no text message. *)
Definition tame_event (data : P2ImMessageReceiveV1) : bool :=
  negb (String.eqb (message_type data) "text")
  || tame_json (message_content data).

(** What an event that brings no text leaves behind. *)
Definition dropped_record (w : world) (data : P2ImMessageReceiveV1)
  : list (level * string) :=
  if _running w then
    received data
    :: (if String.eqb (message_type data) "text" then
          match Json.loads (message_content data) with
          | None => [(ERROR, "[Error] Failed to parse content: "
                             +:+ "Expecting value")]
          | Some (PyDict items) =>
              match PyDictOps.get items "text" with
              | None | Some (PyStr _) => []
              | Some v =>
                  [(ERROR, "[Error] Failed to parse content: "
                           +:+ "'" +:+ type_name v
                           +:+ "' object has no attribute '" +:+ "strip"
                           +:+ "'")]
              end
          | Some v =>
              [(ERROR, "[Error] Failed to parse content: "
                       +:+ "'" +:+ type_name v
                       +:+ "' object has no attribute '" +:+ "get" +:+ "'")]
          end
        else [])
  else [].

(** A text as the model receives it: not empty, no slash in front, no
    white space at either end. *)
Definition trimmed_prompt (text : string) : Prop :=
  PyStr.truthy text = true
  /\ PyStr.startswith "/" text = false
  /\ PyStr.strip text = text.

(** ** What a computation raises and appends *)


(** [appends p P c]: a run of [c] extends the list [p] of the state by
    elements that satisfy [P]. *)
Definition appends {A X} (p : world -> list X) (P : X -> Prop) (c : M A)
  : Prop :=
  forall w, exists l, p (c w).2 = p w ++ l /\ Forall P l.

(** ** Restarts, the device and the file *)

(** The process after a restart: the same files, and a new session
    manager on the same path. *)
Definition restarted (w : world) : world :=
  with_session_manager (__init__ (_persistence_path (session_manager w))) w.

(** The components of a path: the texts between its slashes. *)
Fixpoint components (p : string) : list string :=
  match p with
  | EmptyString => [EmptyString]
  | String c rest =>
      if Ascii.eqb c "/" then EmptyString :: components rest
      else match components rest with
           | first :: more => String c first :: more
           | [] => [String c EmptyString]
           end
  end.

(** A name of a file or directory: not empty, and neither [.] nor
    [..]. *)
Definition proper_name (name : string) : bool :=
  PyStr.truthy name
  && negb (String.eqb name ".") && negb (String.eqb name "..").

(** A path that names its file in one way only: from [.] or from the
    root, through proper names.  The file system is a table of such
    paths, and only for them does a look-up in the table tell what is
    there. *)
Definition canonical_path (p : string) : bool :=
  match components p with
  | first :: name :: more =>
      (String.eqb first "." || String.eqb first EmptyString)
      && forallb proper_name (name :: more)
  | _ => false
  end.

(** The table of a file system is tidy when every path in it is [.], the
    root or a canonical path: then no two of them name the same place. *)
Definition tidy (f : filesystem) : Prop :=
  map_Forall
    (fun path _ =>
       String.eqb path "." || String.eqb path "/" || canonical_path path = true)
    (nodes f).

(** Nothing stands in the way of a flush: the table is tidy, the path is
    canonical, its directory exists, the path is neither refused nor a
    directory, and the device has room. *)
Definition writable (w : world) : Prop :=
  tidy (fs w)
  /\ canonical_path (_persistence_path (session_manager w)) = true
  /\ no_space (fs w) = false
  /\ PyStr.truthy (OsPath.dirname (_persistence_path (session_manager w)))
     = true
  /\ isdir (fs w) (OsPath.dirname (_persistence_path (session_manager w)))
     = true
  /\ (_persistence_path (session_manager w) ∉ denied (fs w))
  /\ isdir (fs w) (_persistence_path (session_manager w)) = false.

(** The file at the persistence path holds a JSON object that reads back
    as the mapping in memory, whatever the order of its members. *)
Definition synced (py_repr : pyval -> string) (w : world) : Prop :=
  exists text items,
    nodes (fs w) !! _persistence_path (session_manager w) = Some (File text)
    /\ Json.loads text = Some (PyDict items)
    /\ str_dict py_repr items = _sessions (session_manager w).

(** The directory of the session file is not there yet, the directory
    above it is, and nothing stands in the way of making the one and of
    writing the file: the table is tidy, the path and its directory are
    canonical, nothing is refused, and the device has room. *)
Definition first_run (w : world) : Prop :=
  let path := _persistence_path (session_manager w) in
  let parent := OsPath.dirname path in
  tidy (fs w)
  /\ canonical_path path = true
  /\ canonical_path parent = true
  /\ PyStr.truthy parent = true
  /\ parent <> path
  /\ isdir (fs w) (OsPath.dirname parent) = true
  /\ nodes (fs w) !! parent = None
  /\ (parent ∉ denied (fs w))
  /\ nodes (fs w) !! path = None
  /\ (path ∉ denied (fs w))
  /\ no_space (fs w) = false.

(** Printable ASCII and line feeds only. *)
Fixpoint ascii_text (text : string) : bool :=
  match text with
  | EmptyString => true
  | String c rest =>
      let n := N_of_ascii c in
      ((n =? 10) || (32 <=? n) && (n <=? 126))%N && ascii_text rest
  end.

(** A mutation of the session store, and a run of such mutations. *)
Inductive store_op : Type :=
| OpSet (chat session : string)
| OpClear (chat : string).

Definition run_op (op : store_op) : M unit :=
  match op with
  | OpSet chat session => set_session_id chat session
  | OpClear chat => clear_session chat
  end.

Fixpoint run_ops (ops : list store_op) : M unit :=
  match ops with
  | [] => mret tt
  | op :: rest => run_op op;; run_ops rest
  end.

(** Reading an escaped text back: the character after a backslash, with
    the letters [n] and [r] standing for line feed and carriage return. *)
Fixpoint unescape_lark (s : string) : string :=
  match s with
  | EmptyString => EmptyString
  | String c rest =>
      if Ascii.eqb c "\" then
        match rest with
        | EmptyString => s
        | String e rest' =>
            String (if Ascii.eqb e "n" then Json.LF
                    else if Ascii.eqb e "r" then Json.CR else e)
                   (unescape_lark rest')
        end
      else String c (unescape_lark rest)
  end.

(** ** Further examples *)

Definition garbled_event : P2ImMessageReceiveV1 :=
  {| chat_id := "c1"; message_content := "{text: hello}";
     message_type := "text" |}.

Definition hello_event : P2ImMessageReceiveV1 :=
  {| chat_id := "c1"; message_content := text_payload "  hello ";
     message_type := "text" |}.


Definition padded_event : P2ImMessageReceiveV1 :=
  {| chat_id := "c1";
     message_content := text_payload ("   what is 2/3?" +:+ "\n" +:+ " ");
     message_type := "text" |}.


(* ===================================================================== *)
(** * Lemmas and theorems *)
(* ===================================================================== *)

(** ** Strings and JSON texts *)


Lemma str_app_nil_l (s : string) : "" +:+ s = s.
Proof. reflexivity. Qed.

Lemma str_app_cons (c : ascii) (s t : string) : String c s +:+ t = String c (s +:+ t).
Proof. reflexivity. Qed.

Lemma str_app_assoc (s t u : string) : (s +:+ t) +:+ u = s +:+ (t +:+ u).
Proof. induction s as [|c s IH]; [reflexivity|]. rewrite !str_app_cons, IH. reflexivity. Qed.

Lemma str_app_nil_r (s : string) : s +:+ "" = s.
Proof. induction s as [|c s IH]; [reflexivity|]. rewrite str_app_cons, IH. reflexivity. Qed.

Ltac case_char c := destruct c as [[] [] [] [] [] [] [] []].

Lemma escape_cons (c : ascii) (text : string) :
  _escape_lark_text (String c text) = escape_one c +:+ _escape_lark_text text.
Proof.
  unfold _escape_lark_text. case_char c; reflexivity.
Qed.

Lemma scanstring_escaped (text rest : string) :
  plain_text text = true ->
  Json.scanstring (_escape_lark_text text +:+ String Json.DQUOTE rest)
  = Some (text, rest).
Proof.
  induction text as [|c text IH]; intros Hp.
  - reflexivity.
  - simpl in Hp. apply andb_true_iff in Hp as [Hc Hp].
    rewrite escape_cons, str_app_assoc. specialize (IH Hp).
    remember (_escape_lark_text text +:+ String Json.DQUOTE rest) as tail.
    case_char c; try discriminate Hc;
      unfold escape_one; simpl; rewrite ?str_app_cons, ?str_app_nil_l; simpl;
      rewrite IH; reflexivity.
Qed.

(** More fuel does not change a result that did not run out of fuel. *)
Lemma fuel_mono (n : nat) :
  forall m s, n <= m ->
    (Json.scan_once n s <> Json.OutOfFuel -> Json.scan_once m s = Json.scan_once n s)
    /\ (Json.members n s <> Json.OutOfFuel -> Json.members m s = Json.members n s)
    /\ (Json.elements n s <> Json.OutOfFuel -> Json.elements m s = Json.elements n s).
Proof.
  induction n as [|n IH]; intros m s Hle.
  - repeat split; intros H; exfalso; apply H; reflexivity.
  - destruct m as [|m]; [lia|]. assert (Hle' : n <= m) by lia.
    pose proof (fun s => proj1 (IH m s Hle')) as IHs.
    pose proof (fun s => proj1 (proj2 (IH m s Hle'))) as IHm.
    pose proof (fun s => proj2 (proj2 (IH m s Hle'))) as IHe.
    clear IH. repeat split.
    + cbn [Json.scan_once]. destruct s as [|c rest]; [reflexivity|].
      destruct (Ascii.eqb c Json.DQUOTE); [reflexivity|].
      destruct (Ascii.eqb c "{").
      { destruct (Json.strip_char "}" (Json.skip_ws rest)); [reflexivity|].
        intros H. rewrite IHm; [reflexivity|].
        intros E. rewrite E in H. apply H. reflexivity. }
      destruct (Ascii.eqb c "["); [|reflexivity].
      destruct (Json.strip_char "]" (Json.skip_ws rest)); [reflexivity|].
      intros H. rewrite IHe; [reflexivity|].
      intros E. rewrite E in H. apply H. reflexivity.
    + cbn [Json.members].
      destruct (Json.strip_char Json.DQUOTE s) as [rest|]; [|reflexivity].
      destruct (Json.scanstring rest) as [[key r]|]; [|reflexivity].
      destruct (Json.strip_char ":" (Json.skip_ws r)) as [r1|]; [|reflexivity].
      intros H. rewrite IHs.
      2:{ intros E. rewrite E in H. apply H. reflexivity. }
      destruct (Json.scan_once n (Json.skip_ws r1)) as [value r2| |]; try reflexivity.
      destruct (Json.strip_char "}" (Json.skip_ws r2)); [reflexivity|].
      destruct (Json.strip_char "," (Json.skip_ws r2)) as [r3|]; [|reflexivity].
      rewrite IHm; [reflexivity|].
      intros E. rewrite E in H. apply H. reflexivity.
    + cbn [Json.elements]. intros H. rewrite IHs.
      2:{ intros E. rewrite E in H. apply H. reflexivity. }
      destruct (Json.scan_once n s) as [value r| |]; try reflexivity.
      destruct (Json.strip_char "]" (Json.skip_ws r)); [reflexivity|].
      destruct (Json.strip_char "," (Json.skip_ws r)) as [r1|]; [|reflexivity].
      rewrite IHe; [reflexivity|].
      intros E. rewrite E in H. apply H. reflexivity.
Qed.

Lemma scan_once_more_fuel (n m : nat) (s : string) (v : pyval) (r : string) :
  Json.scan_once n s = Json.Scanned v r -> n <= m ->
  Json.scan_once m s = Json.Scanned v r.
Proof.
  intros H Hle. destruct (fuel_mono n m s Hle) as [Hs _].
  rewrite Hs; [exact H|]. rewrite H. discriminate.
Qed.

Lemma loads_of_scan (n : nat) (s : string) (v : pyval) :
  Json.scan_once n (Json.skip_ws s) = Json.Scanned v EmptyString ->
  n <= S (2 * String.length s) ->
  Json.loads s = Some v.
Proof.
  intros H Hle. unfold Json.loads, Json.decode.
  rewrite (scan_once_more_fuel _ _ _ _ _ H Hle). reflexivity.
Qed.

Lemma loads_text_payload (text : string) :
  plain_text text = true ->
  Json.loads (text_payload (_escape_lark_text text))
  = Some (PyDict [("text"%string, PyStr text)]).
Proof.
  intros Hp. apply (loads_of_scan 3).
  - unfold text_payload, DQ, Json.string_of_char.
    rewrite !str_app_cons, !str_app_nil_l.
    pose proof (scanstring_escaped text "}" Hp) as Hs.
    remember (_escape_lark_text text +:+ String Json.DQUOTE "}") as tail.
    simpl. rewrite Hs. reflexivity.
  - unfold text_payload, DQ, Json.string_of_char.
    rewrite !str_app_cons, !str_app_nil_l. simpl. lia.
Qed.

Lemma scanstring_encoded (s rest : string) :
  Json.scanstring (Json.encode_chars s +:+ String Json.DQUOTE rest)
  = Some (s, rest).
Proof.
  induction s as [|c s IH].
  - reflexivity.
  - cbn [Json.encode_chars]. rewrite str_app_assoc.
    remember (Json.encode_chars s +:+ String Json.DQUOTE rest) as tail.
    case_char c;
      simpl; rewrite ?str_app_cons, ?str_app_nil_l; simpl; rewrite IH; reflexivity.
Qed.

Lemma scan_once_encoded (fuel : nat) (s rest : string) :
  Json.scan_once (S fuel) (Json.encode_basestring_ascii s +:+ rest)
  = Json.Scanned (PyStr s) rest.
Proof.
  unfold Json.encode_basestring_ascii, Json.string_of_char.
  rewrite str_app_cons, str_app_assoc, str_app_cons, str_app_nil_l.
  cbn [Json.scan_once]. rewrite Ascii.eqb_refl.
  rewrite scanstring_encoded. reflexivity.
Qed.

Lemma skip_ws_encoded (s rest : string) :
  Json.skip_ws (Json.encode_basestring_ascii s +:+ rest)
  = Json.encode_basestring_ascii s +:+ rest.
Proof. unfold Json.encode_basestring_ascii. rewrite str_app_cons. reflexivity. Qed.

(** One member written by the encoder, read by [members]. *)
Lemma members_encoded_head (n : nat) (kv : string * string) (tail : string) :
  Json.members (S (S n)) (Json.skip_ws (Json.encode_member kv +:+ tail))
  = match Json.strip_char "}" (Json.skip_ws tail) with
    | Some r3 => Json.Scanned [as_pyval kv] r3
    | None =>
        match Json.strip_char "," (Json.skip_ws tail) with
        | None => Json.DecodeError
        | Some r3 =>
            match Json.members (S n) (Json.skip_ws r3) with
            | Json.Scanned more r4 => Json.Scanned (as_pyval kv :: more) r4
            | Json.DecodeError => Json.DecodeError
            | Json.OutOfFuel => Json.OutOfFuel
            end
        end
    end.
Proof.
  destruct kv as [k v]. unfold Json.encode_member, as_pyval. cbn [fst snd].
  rewrite !str_app_assoc, !str_app_cons, str_app_nil_l.
  change (Json.skip_ws (String " " (String " " ?x))) with (Json.skip_ws x).
  rewrite skip_ws_encoded.
  remember (S n) as n1 eqn:En1.
  cbn [Json.members]. subst n1.
  unfold Json.encode_basestring_ascii at 1. unfold Json.string_of_char.
  rewrite !str_app_cons, !str_app_assoc, !str_app_cons, !str_app_nil_l.
  cbn [Json.strip_char]. rewrite Ascii.eqb_refl, scanstring_encoded.
  change (Json.skip_ws (String ":" ?x)) with (String ":" x).
  cbn [Json.strip_char]. rewrite Ascii.eqb_refl.
  change (Json.skip_ws (String " " ?x)) with (Json.skip_ws x).
  rewrite skip_ws_encoded, scan_once_encoded. reflexivity.
Qed.

Lemma members_encoded (items : list (string * string)) :
  items <> [] -> forall rest,
  Json.members (S (length items))
    (Json.skip_ws (Json.encode_members items +:+ String "}" rest))
  = Json.Scanned (map as_pyval items) rest.
Proof.
  induction items as [|kv items IH]; [congruence|]. intros _ rest.
  destruct items as [|kv' items'].
  - cbn [Json.encode_members length]. rewrite str_app_assoc, members_encoded_head.
    unfold Json.string_of_char. rewrite str_app_cons, str_app_nil_l.
    change (Json.skip_ws (String Json.LF ?x)) with (Json.skip_ws x).
    change (Json.skip_ws (String "}" ?x)) with (String "}" x).
    cbn [Json.strip_char]. rewrite Ascii.eqb_refl. reflexivity.
  - change (Json.encode_members (kv :: kv' :: items'))
      with (Json.encode_member kv +:+ "," +:+ Json.string_of_char Json.LF
            +:+ Json.encode_members (kv' :: items')).
    change (length (kv :: kv' :: items')) with (S (length (kv' :: items'))).
    rewrite !str_app_assoc, members_encoded_head.
    rewrite !str_app_cons, !str_app_nil_l.
    change (Json.skip_ws (String "," ?x)) with (String "," x).
    cbn [Json.strip_char]. simpl (Ascii.eqb _ _). cbn iota.
    unfold Json.string_of_char. rewrite !str_app_cons, !str_app_nil_l.
    change (Json.skip_ws (String Json.LF ?x)) with (Json.skip_ws x).
    specialize (IH ltac:(discriminate) rest).
    rewrite IH. reflexivity.
Qed.

Lemma str_length_app (s t : string) :
  String.length (s +:+ t) = String.length s + String.length t.
Proof. induction s as [|c s IH]; [reflexivity|]. rewrite str_app_cons. simpl. lia. Qed.

Lemma length_encode_members (items : list (string * string)) :
  length items <= String.length (Json.encode_members items).
Proof.
  induction items as [|kv items IH]; [simpl; lia|].
  destruct items as [|kv' items'].
  - cbn [Json.encode_members]. rewrite str_length_app. simpl. lia.
  - change (Json.encode_members (kv :: kv' :: items'))
      with (Json.encode_member kv +:+ "," +:+ Json.string_of_char Json.LF
            +:+ Json.encode_members (kv' :: items')).
    rewrite !str_length_app. simpl in *. lia.
Qed.

Lemma skip_ws_encode_members (items : list (string * string)) (tail : string) :
  items <> [] ->
  exists x, Json.skip_ws (Json.encode_members items +:+ tail) = String Json.DQUOTE x.
Proof.
  destruct items as [|kv items]; [congruence|]. intros _.
  assert (H : forall t, exists x,
    Json.skip_ws (Json.encode_member kv +:+ t) = String Json.DQUOTE x).
  { intros t. unfold Json.encode_member. rewrite !str_app_assoc, !str_app_cons, str_app_nil_l.
    change (Json.skip_ws (String " " (String " " ?x))) with (Json.skip_ws x).
    rewrite skip_ws_encoded. unfold Json.encode_basestring_ascii.
    rewrite str_app_cons. eauto. }
  destruct items as [|kv' items'].
  - cbn [Json.encode_members]. rewrite str_app_assoc. apply H.
  - change (Json.encode_members (kv :: kv' :: items'))
      with (Json.encode_member kv +:+ "," +:+ Json.string_of_char Json.LF
            +:+ Json.encode_members (kv' :: items')).
    rewrite !str_app_assoc. apply H.
Qed.

Lemma dumps_items_cons (items : list (string * string)) :
  items <> [] ->
  Json.dumps_items items
  = String "{" (String Json.LF (Json.encode_members items +:+ "}")).
Proof. destruct items; [congruence|]. reflexivity. Qed.

(** The decoder reads back the members the encoder wrote. *)
Lemma loads_dumps_items (items : list (string * string)) :
  Json.loads (Json.dumps_items items)
  = Some (PyDict (PyDictOps.of_pairs (map as_pyval items))).
Proof.
  destruct (decide (items = [])) as [->|Hne]; [reflexivity|].
  rewrite (dumps_items_cons items Hne).
  apply (loads_of_scan (S (S (length items)))).
  - change (Json.skip_ws (String "{" ?x)) with (String "{" x).
    remember (S (length items)) as n. cbn [Json.scan_once]. subst n.
    simpl (Ascii.eqb _ _). cbn iota.
    change (Json.skip_ws (String Json.LF ?x)) with (Json.skip_ws x).
    destruct (skip_ws_encode_members items "}" Hne) as [x Hx].
    rewrite Hx. cbn [Json.strip_char]. simpl (Ascii.eqb _ _). cbn iota.
    rewrite <- Hx. rewrite members_encoded by exact Hne. reflexivity.
  - cbn [String.length].
    rewrite str_length_app. pose proof (length_encode_members items). simpl. lia.
Qed.

Lemma setitem_fresh {V} (d : list (string * V)) (k : string) (v : V) :
  k ∉ d.*1 -> PyDictOps.setitem d k v = d ++ [(k, v)].
Proof.
  induction d as [|[k' v'] d IH]; intros Hk; [reflexivity|].
  cbn [PyDictOps.setitem]. rewrite fmap_cons in Hk. cbn [fst] in Hk.
  apply not_elem_of_cons in Hk as [Hne Hk].
  destruct (String.eqb_spec k' k) as [->|_]; [congruence|].
  rewrite IH by exact Hk. reflexivity.
Qed.

Lemma of_pairs_NoDup {V} (pairs : list (string * V)) :
  NoDup pairs.*1 -> PyDictOps.of_pairs pairs = pairs.
Proof.
  unfold PyDictOps.of_pairs.
  enough (H : forall acc, NoDup (acc ++ pairs).*1 ->
            fold_left (fun d kv => PyDictOps.setitem d kv.1 kv.2) pairs acc
            = acc ++ pairs).
  { intros Hnd. apply (H []). exact Hnd. }
  induction pairs as [|[k v] pairs IH]; intros acc Hnd.
  - simpl. rewrite app_nil_r. reflexivity.
  - cbn [fold_left fst snd]. rewrite setitem_fresh.
    + rewrite IH.
      * rewrite <- app_assoc. reflexivity.
      * rewrite <- app_assoc. exact Hnd.
    + rewrite fmap_app in Hnd. apply NoDup_app in Hnd as (_ & Hdisj & _).
      intros Hin. apply (Hdisj k Hin). rewrite fmap_cons. left.
Qed.

Lemma fold_insert_list_to_map (l : list (string * string)) (d : gmap string string) :
  NoDup l.*1 ->
  fold_left (fun d kv => <[kv.1 := kv.2]> d) l d = list_to_map l ∪ d.
Proof.
  revert d. induction l as [|[k v] l IH]; intros d Hnd.
  - simpl. rewrite (left_id_L ∅ (∪)). reflexivity.
  - rewrite fmap_cons in Hnd. apply NoDup_cons in Hnd as [Hk Hnd].
    cbn [fold_left fst snd list_to_map foldr]. rewrite IH by exact Hnd.
    rewrite <- insert_union_l. symmetry. apply insert_union_r.
    apply not_elem_of_list_to_map_1. exact Hk.
Qed.

Section StrDict.
Variable py_repr : pyval -> string.

Lemma str_dict_as_pyval (items : list (string * string)) :
  NoDup items.*1 ->
  str_dict py_repr (map as_pyval items) = list_to_map items.
Proof.
  intros Hnd. unfold str_dict.
  rewrite <- (right_id_L ∅ (∪) (list_to_map items)).
  rewrite <- fold_insert_list_to_map by exact Hnd.
  generalize (∅ : gmap string string).
  induction items as [|[k v] items IH]; intros d; [reflexivity|].
  rewrite fmap_cons in Hnd. apply NoDup_cons in Hnd as [_ Hnd].
  cbn [map fold_left as_pyval fst snd py_str]. apply IH. exact Hnd.
Qed.

(** What [load_from_file] makes of the text [save_to_file] wrote. *)
Lemma loads_dumps (d : gmap string string) :
  exists items,
    Json.loads (Json.dumps d) = Some (PyDict items)
    /\ str_dict py_repr items = d.
Proof.
  exists (map as_pyval (map_to_list d)). split.
  - unfold Json.dumps. rewrite loads_dumps_items.
    rewrite of_pairs_NoDup; [reflexivity|].
    rewrite <- list_fmap_compose.
    apply (NoDup_fst_map_to_list d).
  - rewrite str_dict_as_pyval by apply NoDup_fst_map_to_list.
    apply list_to_map_to_list.
Qed.

End StrDict.



(** ** The decoder never runs out of fuel *)

Lemma skip_ws_length (s : string) : String.length (Json.skip_ws s) <= String.length s.
Proof.
  induction s as [|c s IH]; [reflexivity|]. cbn [Json.skip_ws].
  destruct (Json.is_ws c); cbn [String.length]; lia.
Qed.

Lemma strip_char_length (c : ascii) (s r : string) :
  Json.strip_char c s = Some r -> String.length s = S (String.length r).
Proof.
  destruct s as [|d s]; [discriminate|]. cbn [Json.strip_char].
  destruct (Ascii.eqb d c); [|discriminate]. intros [= ->]. reflexivity.
Qed.

Lemma strip_prefix_length (p s r : string) :
  Json.strip_prefix p s = Some r -> String.length r <= String.length s.
Proof.
  revert s. induction p as [|a p IH]; intros s.
  - destruct s; intros [= ->]; reflexivity.
  - destruct s as [|b s]; [discriminate|]. cbn [Json.strip_prefix].
    destruct (Ascii.eqb a b); [|discriminate]. intros H%IH. cbn [String.length]. lia.
Qed.

Lemma scanstring_length (s str r : string) :
  Json.scanstring s = Some (str, r) -> String.length r < String.length s.
Proof.
  remember (String.length s) as n eqn:En.
  assert (Hn : String.length s <= n) by lia. clear En.
  revert s str r Hn. induction n as [|n IH]; intros s str r Hn.
  { destruct s; [discriminate|]. cbn [String.length] in Hn. lia. }
  destruct s as [|c rest]; [discriminate|].
  cbn [String.length] in Hn. cbn [Json.scanstring].
  destruct (Ascii.eqb c Json.DQUOTE).
  { intros [= <- <-]. cbn [String.length]. lia. }
  destruct (Ascii.eqb c Json.BACKSLASH).
  - destruct rest as [|e rest1]; [discriminate|].
    destruct (Ascii.eqb e "u").
    + destruct rest1 as [|h1 [|h2 [|h3 [|h4 rest2]]]]; try discriminate.
      destruct (Json.decode_uXXXX h1 h2 h3 h4) as [k|]; [|discriminate].
      destruct (k <? 256)%N; [|discriminate].
      destruct (Json.scanstring rest2) as [[str' r']|] eqn:E; [|discriminate].
      intros [= <- <-]. cbn [String.length] in *.
      apply IH in E; lia.
    + destruct (Json.unescape e); [|discriminate].
      destruct (Json.scanstring rest1) as [[str' r']|] eqn:E; [|discriminate].
      intros [= <- <-]. cbn [String.length] in *. apply IH in E; lia.
  - destruct (N_of_ascii c <? 32)%N; [discriminate|].
    destruct (Json.scanstring rest) as [[str' r']|] eqn:E; [|discriminate].
    intros [= <- <-]. cbn [String.length] in *. apply IH in E; lia.
Qed.

Lemma span_digits_length (s ds r : string) :
  Json.span_digits s = (ds, r) -> String.length r <= String.length s.
Proof.
  revert ds r. induction s as [|c s IH]; intros ds r.
  - intros [= <- <-]. reflexivity.
  - cbn [Json.span_digits]. destruct (Json.is_digit c).
    + destruct (Json.span_digits s) as [ds' r'] eqn:E. intros [= <- <-].
      specialize (IH _ _ eq_refl). cbn [String.length]. lia.
    + intros [= <- <-]. reflexivity.
Qed.

Lemma match_integer_length (s i r : string) :
  Json.match_integer s = Some (i, r) -> String.length r <= String.length s.
Proof.
  unfold Json.match_integer.
  destruct (Json.strip_char "-" s) as [s1|] eqn:Es.
  - apply strip_char_length in Es.
    destruct s1 as [|c r0]; [discriminate|]. cbn [String.length] in Es.
    destruct (Ascii.eqb c "0"); [intros [= <- <-]; lia|].
    destruct (Json.is_digit c); [|discriminate].
    destruct (Json.span_digits r0) as [ds r'] eqn:E. intros [= <- <-].
    apply span_digits_length in E. lia.
  - destruct s as [|c r0]; [discriminate|].
    destruct (Ascii.eqb c "0"); [intros [= <- <-]; cbn [String.length]; lia|].
    destruct (Json.is_digit c); [|discriminate].
    destruct (Json.span_digits r0) as [ds r'] eqn:E. intros [= <- <-].
    apply span_digits_length in E. cbn [String.length]. lia.
Qed.

Lemma match_frac_length (s f r : string) :
  Json.match_frac s = (f, r) -> String.length r <= String.length s.
Proof.
  unfold Json.match_frac.
  destruct (Json.strip_char "." s) as [s1|] eqn:Es;
    [|intros [= <- <-]; reflexivity].
  apply strip_char_length in Es.
  destruct (Json.span_digits s1) as [[|a ds] r'] eqn:E; intros [= <- <-];
    [reflexivity|]. apply span_digits_length in E. lia.
Qed.

Lemma match_exp_length (s x r : string) :
  Json.match_exp s = (x, r) -> String.length r <= String.length s.
Proof.
  unfold Json.match_exp. destruct s as [|e s']; [intros [= <- <-]; reflexivity|].
  destruct (Ascii.eqb e "e" || Ascii.eqb e "E"); [|intros [= <- <-]; reflexivity].
  assert (H : forall sign r1, String.length r1 <= String.length s' ->
    match Json.span_digits r1 with
    | (EmptyString, _) => (EmptyString, String e s')
    | (String a s0 as ds, r2) => (String e (sign +:+ ds), r2)
    end = (x, r) -> String.length r <= String.length (String e s')).
  { intros sign r1 Hle.
    destruct (Json.span_digits r1) as [[|a ds] r2] eqn:E; intros [= <- <-];
      [reflexivity|]. apply span_digits_length in E. cbn [String.length]. lia. }
  destruct (Json.strip_char "-" s') as [r1|] eqn:Em.
  { apply H. apply strip_char_length in Em. lia. }
  destruct (Json.strip_char "+" s') as [r1|] eqn:Ep.
  { apply H. apply strip_char_length in Ep. lia. }
  apply H. reflexivity.
Qed.

Lemma match_number_length (s : string) (v : pyval) (r : string) :
  Json.match_number s = Some (v, r) -> String.length r <= String.length s.
Proof.
  unfold Json.match_number.
  destruct (Json.match_integer s) as [[i r0]|] eqn:Ei; [|discriminate].
  destruct (Json.match_frac r0) as [f r1] eqn:Ef.
  destruct (Json.match_exp r1) as [x r2] eqn:Ex.
  apply match_integer_length in Ei. apply match_frac_length in Ef.
  apply match_exp_length in Ex.
  destruct f, x; intros [= <- <-]; lia.
Qed.

Lemma scan_constant_length (s : string) (v : pyval) (r : string) :
  Json.scan_constant s = Json.Scanned v r -> String.length r <= String.length s.
Proof.
  unfold Json.scan_constant.
  repeat match goal with
  | |- context [Json.strip_prefix ?p s] =>
      let E := fresh "E" in
      destruct (Json.strip_prefix p s) eqn:E;
      [apply strip_prefix_length in E; intros [= <- <-]; exact E|]
  | |- context [Json.match_number s] =>
      let E := fresh "E" in
      destruct (Json.match_number s) as [[? ?]|] eqn:E;
      [apply match_number_length in E; intros [= <- <-]; exact E|]
  end.
  discriminate.
Qed.

(** The text left after a value is no longer than the text it was read
    from. *)
Lemma scan_length (n : nat) :
  forall s,
    (forall v r, Json.scan_once n s = Json.Scanned v r -> String.length r <= String.length s)
    /\ (forall v r, Json.members n s = Json.Scanned v r -> String.length r <= String.length s)
    /\ (forall v r, Json.elements n s = Json.Scanned v r -> String.length r <= String.length s).
Proof.
  induction n as [|n IH]; intros s; [repeat split; discriminate|].
  pose proof (fun s => proj1 (IH s)) as IHs.
  pose proof (fun s => proj1 (proj2 (IH s))) as IHm.
  pose proof (fun s => proj2 (proj2 (IH s))) as IHe. clear IH.
  repeat split; intros v r.
  - cbn [Json.scan_once]. destruct s as [|c rest]; [discriminate|].
    pose proof (skip_ws_length rest) as Hws. cbn [String.length].
    destruct (Ascii.eqb c Json.DQUOTE).
    { destruct (Json.scanstring rest) as [[str r']|] eqn:E; [|discriminate].
      intros [= <- <-]. apply scanstring_length in E. lia. }
    destruct (Ascii.eqb c "{").
    { destruct (Json.strip_char "}" (Json.skip_ws rest)) as [r'|] eqn:E.
      - intros [= <- <-]. apply strip_char_length in E. lia.
      - destruct (Json.members n (Json.skip_ws rest)) as [pairs r'| |] eqn:Em;
          try discriminate.
        intros [= <- <-]. apply IHm in Em. lia. }
    destruct (Ascii.eqb c "[").
    { destruct (Json.strip_char "]" (Json.skip_ws rest)) as [r'|] eqn:E.
      - intros [= <- <-]. apply strip_char_length in E. lia.
      - destruct (Json.elements n (Json.skip_ws rest)) as [vs r'| |] eqn:Ee;
          try discriminate.
        intros [= <- <-]. apply IHe in Ee. lia. }
    intros H. apply scan_constant_length in H. cbn [String.length] in H. lia.
  - cbn [Json.members].
    destruct (Json.strip_char Json.DQUOTE s) as [rest|] eqn:E1; [|discriminate].
    apply strip_char_length in E1.
    destruct (Json.scanstring rest) as [[key r0]|] eqn:E2; [|discriminate].
    apply scanstring_length in E2.
    destruct (Json.strip_char ":" (Json.skip_ws r0)) as [r1|] eqn:E3; [|discriminate].
    apply strip_char_length in E3. pose proof (skip_ws_length r0).
    destruct (Json.scan_once n (Json.skip_ws r1)) as [value r2| |] eqn:E4;
      try discriminate.
    apply IHs in E4. pose proof (skip_ws_length r1). pose proof (skip_ws_length r2).
    destruct (Json.strip_char "}" (Json.skip_ws r2)) as [r3|] eqn:E5.
    { intros [= <- <-]. apply strip_char_length in E5. lia. }
    destruct (Json.strip_char "," (Json.skip_ws r2)) as [r3|] eqn:E6; [|discriminate].
    apply strip_char_length in E6.
    destruct (Json.members n (Json.skip_ws r3)) as [more r4| |] eqn:E7;
      try discriminate.
    intros [= <- <-]. apply IHm in E7. pose proof (skip_ws_length r3). lia.
  - cbn [Json.elements].
    destruct (Json.scan_once n s) as [value r0| |] eqn:E1; try discriminate.
    apply IHs in E1. pose proof (skip_ws_length r0).
    destruct (Json.strip_char "]" (Json.skip_ws r0)) as [r1|] eqn:E2.
    { intros [= <- <-]. apply strip_char_length in E2. lia. }
    destruct (Json.strip_char "," (Json.skip_ws r0)) as [r1|] eqn:E3; [|discriminate].
    apply strip_char_length in E3.
    destruct (Json.elements n (Json.skip_ws r1)) as [more r2| |] eqn:E4;
      try discriminate.
    intros [= <- <-]. apply IHe in E4. pose proof (skip_ws_length r1). lia.
Qed.

(** With a budget above twice the length of the text, no scanner runs out
    of fuel. *)
Lemma scan_fuel (n : nat) :
  forall s,
    (2 * String.length s < n -> Json.scan_once n s <> Json.OutOfFuel)
    /\ (2 * String.length s < n -> Json.members n s <> Json.OutOfFuel)
    /\ (2 * String.length s + 1 < n -> Json.elements n s <> Json.OutOfFuel).
Proof.
  induction n as [|n IH]; intros s; [repeat split; lia|].
  pose proof (fun s => proj1 (IH s)) as IHs.
  pose proof (fun s => proj1 (proj2 (IH s))) as IHm.
  pose proof (fun s => proj2 (proj2 (IH s))) as IHe. clear IH.
  repeat split; intros Hn.
  - cbn [Json.scan_once]. destruct s as [|c rest]; [discriminate|].
    pose proof (skip_ws_length rest) as Hws. cbn [String.length] in Hn.
    destruct (Ascii.eqb c Json.DQUOTE).
    { destruct (Json.scanstring rest) as [[str r']|]; discriminate. }
    destruct (Ascii.eqb c "{").
    { destruct (Json.strip_char "}" (Json.skip_ws rest)); [discriminate|].
      specialize (IHm (Json.skip_ws rest) ltac:(lia)).
      destruct (Json.members n (Json.skip_ws rest)); congruence. }
    destruct (Ascii.eqb c "[").
    { destruct (Json.strip_char "]" (Json.skip_ws rest)); [discriminate|].
      specialize (IHe (Json.skip_ws rest) ltac:(lia)).
      destruct (Json.elements n (Json.skip_ws rest)); congruence. }
    unfold Json.scan_constant.
    repeat match goal with
    | |- context [match ?x with _ => _ end] => destruct x
    end; discriminate.
  - cbn [Json.members].
    destruct (Json.strip_char Json.DQUOTE s) as [rest|] eqn:E1; [|discriminate].
    apply strip_char_length in E1.
    destruct (Json.scanstring rest) as [[key r0]|] eqn:E2; [|discriminate].
    apply scanstring_length in E2.
    destruct (Json.strip_char ":" (Json.skip_ws r0)) as [r1|] eqn:E3; [|discriminate].
    apply strip_char_length in E3. pose proof (skip_ws_length r0).
    pose proof (skip_ws_length r1).
    specialize (IHs (Json.skip_ws r1) ltac:(lia)).
    destruct (Json.scan_once n (Json.skip_ws r1)) as [value r2| |] eqn:E4;
      [|discriminate|congruence].
    apply (scan_length n) in E4. pose proof (skip_ws_length r2).
    destruct (Json.strip_char "}" (Json.skip_ws r2)) as [r3|] eqn:E5; [discriminate|].
    destruct (Json.strip_char "," (Json.skip_ws r2)) as [r3|] eqn:E6; [|discriminate].
    apply strip_char_length in E6. pose proof (skip_ws_length r3).
    specialize (IHm (Json.skip_ws r3) ltac:(lia)).
    destruct (Json.members n (Json.skip_ws r3)); congruence.
  - cbn [Json.elements].
    specialize (IHs s ltac:(lia)).
    destruct (Json.scan_once n s) as [value r0| |] eqn:E1;
      [|discriminate|congruence].
    apply (scan_length n) in E1. pose proof (skip_ws_length r0).
    destruct (Json.strip_char "]" (Json.skip_ws r0)) as [r1|] eqn:E2; [discriminate|].
    destruct (Json.strip_char "," (Json.skip_ws r0)) as [r1|] eqn:E3; [|discriminate].
    apply strip_char_length in E3. pose proof (skip_ws_length r1).
    specialize (IHe (Json.skip_ws r1) ltac:(lia)).
    destruct (Json.elements n (Json.skip_ws r1)); congruence.
Qed.

(** [loads] gives [None] for a [JSONDecodeError] only: its budget is
    never used up. *)
Lemma decode_fuel (s : string) :
  Json.decode (S (2 * String.length s)) s <> Json.OutOfFuel.
Proof.
  unfold Json.decode. pose proof (skip_ws_length s) as Hws.
  pose proof (proj1 (scan_fuel (S (2 * String.length s)) (Json.skip_ws s)) ltac:(lia)) as H.
  destruct (Json.scan_once _ _) as [v r| |]; [|discriminate|congruence].
  destruct (Json.skip_ws r); discriminate.
Qed.


Lemma bind_run {A B} (c : M A) (f : A -> M B) (w : world) :
  (c ≫= f) w = match c w with
               | (Ok a, w') => f a w'
               | (Raise e, w') => (Raise e, w')
               end.
Proof. reflexivity. Qed.

Lemma head_upto_sep_no_slash (p : string) :
  PyStr.contains_char "/" p = false -> OsPath.head_upto_sep p = EmptyString.
Proof. destruct p as [|c p]; [reflexivity|]. intros H. cbn [OsPath.head_upto_sep]. rewrite H. reflexivity. Qed.

Lemma dirname_no_slash (p : string) :
  PyStr.contains_char "/" p = false -> OsPath.dirname p = EmptyString.
Proof. intros H. unfold OsPath.dirname. rewrite (head_upto_sep_no_slash p H). reflexivity. Qed.

Lemma save_body_bare (w : world) :
  OsPath.dirname (_persistence_path (session_manager w)) = EmptyString ->
  save_to_file_body w
  = (Raise {| exc_cls := FileNotFoundError;
              exc_str := "[Errno 2] No such file or directory" |}, w).
Proof.
  intros H. unfold save_to_file_body. rewrite bind_run. cbn [get_world].
  rewrite bind_run. unfold Os.makedirs. rewrite bind_run. cbn [get_world].
  rewrite H. reflexivity.
Qed.

Ltac mrun :=
  cbv [mbind M_bind mret M_ret get_world modify raise throw logger
       logger_debug called].

Ltac wsimpl :=
  cbn [fs log sent prompts store_calls session_manager _running cfg
       lark_service completion_service with_fs with_log with_sent
       with_prompts with_store_calls with_session_manager fst snd
       _sessions _persistence_path nodes denied no_space].

Tactic Notation "wsimpl" "in" hyp(H) :=
  cbn [fs log sent prompts store_calls session_manager _running cfg
       lark_service completion_service with_fs with_log with_sent
       with_prompts with_store_calls with_session_manager fst snd
       _sessions _persistence_path nodes denied no_space] in H.

Lemma with_fs_id (w : world) : w = with_fs (fs w) w.
Proof. destruct w; reflexivity. Qed.

Lemma save_body_frame (w : world) :
  exists r w', save_to_file_body w = (r, w')
    /\ w' = with_fs (fs w') w
    /\ (forall e, r = Raise e -> is_Exception (exc_cls e) = true).
Proof.
  unfold save_to_file_body, Os.makedirs, Os.open_w, Os.write. mrun.
  repeat case_match; simplify_eq;
    (eexists _, _; split; [reflexivity|]; split;
      [first [reflexivity | apply with_fs_id]
      | intros e He; inversion He; reflexivity]).
Qed.

(** A flush that went through left the text of the mapping at the path. *)
Lemma save_body_ok (w w1 : world) :
  save_to_file_body w = (Ok tt, w1) ->
  nodes (fs w1) !! _persistence_path (session_manager w)
    = Some (File (Json.dumps (_sessions (session_manager w))))
  /\ _persistence_path (session_manager w) ∉ denied (fs w1).
Proof.
  unfold save_to_file_body, Os.makedirs, Os.open_w, Os.write. mrun.
  repeat case_match; intros Hrun; simplify_eq; cbn;
    (split; [apply lookup_insert_eq|]);
    repeat match goal with
    | H : bool_decide _ = false |- _ => apply bool_decide_eq_false in H
    end; cbn in *; assumption.
Qed.

(** ** A frame calculus for the monad *)

Section Keeps.
Context {X : Type} (p : world -> X).

Lemma keeps_ret {A} (a : A) : keeps p (mret a).
Proof. intros w. reflexivity. Qed.

Lemma keeps_raise {A} cls msg : keeps p (@raise A cls msg).
Proof. intros w. reflexivity. Qed.

Lemma keeps_throw {A} e : keeps p (@throw A e).
Proof. intros w. reflexivity. Qed.

Lemma keeps_get_world : keeps p get_world.
Proof. intros w. reflexivity. Qed.

Lemma keeps_modify (f : world -> world) :
  (forall w, p (f w) = p w) -> keeps p (modify f).
Proof. intros H w. apply H. Qed.

Lemma keeps_bind {A B} (c : M A) (f : A -> M B) :
  keeps p c -> (forall a, keeps p (f a)) -> keeps p (c ≫= f).
Proof.
  intros Hc Hf w. rewrite bind_run. specialize (Hc w).
  destruct (c w) as [[a|e] w']; cbn in *.
  - rewrite Hf. exact Hc.
  - exact Hc.
Qed.

Lemma keeps_try_except {A} (body : M A) (handler : exception -> M A) :
  keeps p body -> (forall e, keeps p (handler e)) ->
  keeps p (try_except body handler).
Proof.
  intros Hb Hh w. unfold try_except. specialize (Hb w).
  destruct (body w) as [[a|e] w']; cbn in *; [exact Hb|].
  destruct (is_Exception (exc_cls e)); [rewrite Hh|]; exact Hb.
Qed.

Lemma keeps_create_task (coro : M unit) :
  (forall w l, p (with_log l w) = p w) ->
  keeps p coro -> keeps p (create_task coro).
Proof.
  intros Hl Hc w. unfold create_task. specialize (Hc w).
  destruct (coro w) as [[a|e] w']; cbn in *; [exact Hc|].
  rewrite Hl. exact Hc.
Qed.

End Keeps.

Ltac keeps_step :=
  first
    [ apply keeps_ret | apply keeps_raise | apply keeps_throw
    | apply keeps_get_world
    | apply keeps_bind; [|intros ?]
    | apply keeps_try_except; [|intros ?]
    | apply keeps_modify; intros ?; reflexivity
    | match goal with
      | |- keeps _ (match ?x with _ => _ end) => destruct x
      end
    | progress unfold logger, logger_debug, called, set_sessions,
        agent_client.first_text, agent_client.messages_create,
        message_create, no_attribute, json_loads, text_of, items_of ].

Ltac keeps_auto := repeat keeps_step.

(** ** What the methods of the session manager change *)

Lemma save_body_fs_only (w : world) :
  (save_to_file_body w).2 = with_fs (fs (save_to_file_body w).2) w.
Proof.
  destruct (save_body_frame w) as (r & w' & E & Hw & _). rewrite E. exact Hw.
Qed.

Lemma save_body_raises_Exception (w w' : world) (e : exception) :
  save_to_file_body w = (Raise e, w') -> is_Exception (exc_cls e) = true.
Proof.
  intros E. destruct (save_body_frame w) as (r & w'' & E' & _ & H).
  rewrite E in E'. inversion E'; subst. apply H. reflexivity.
Qed.

Lemma keeps_save_body {X} (p : world -> X) :
  (forall f w, p (with_fs f w) = p w) -> keeps p save_to_file_body.
Proof. intros H w. rewrite save_body_fs_only. apply H. Qed.

Lemma save_to_file_ok (w : world) : (save_to_file w).1 = Ok tt.
Proof.
  unfold save_to_file. rewrite bind_run. cbn [called modify].
  unfold try_except.
  destruct (save_to_file_body _) as [[[]|e] w'] eqn:E; [reflexivity|].
  rewrite (save_body_raises_Exception _ _ _ E). reflexivity.
Qed.

Lemma keeps_save_session_manager : keeps session_manager save_to_file.
Proof. unfold save_to_file. keeps_auto. Qed.

Lemma keeps_save_sent : keeps sent save_to_file.
Proof. unfold save_to_file. keeps_auto. Qed.

Lemma keeps_save_prompts : keeps prompts save_to_file.
Proof. unfold save_to_file. keeps_auto. Qed.


Lemma keeps_send_session_manager self chat text :
  keeps session_manager (_send_message self chat text).
Proof. unfold _send_message. keeps_auto. Qed.

Lemma keeps_send_store_calls self chat text :
  keeps store_calls (_send_message self chat text).
Proof. unfold _send_message. keeps_auto. Qed.

Lemma send_message_sent self chat text w :
  sent (_send_message self chat text w).2 = sent w ++ [text_request chat text].
Proof.
  unfold _send_message, try_except, message_create. mrun.
  repeat case_match; simplify_eq; reflexivity.
Qed.

Lemma keeps_clear_prompts chat : keeps prompts (clear_session chat).
Proof. unfold clear_session. keeps_auto. Qed.


Lemma keeps_handle_command_prompts self chat text :
  keeps prompts (_handle_command self chat text).
Proof. unfold _handle_command. keeps_auto. Qed.


Lemma set_session_id_unfold chat session w :
  set_session_id chat session w = save_to_file (mem_set chat session w).
Proof. reflexivity. Qed.

Lemma clear_session_unfold chat w v :
  _sessions (session_manager w) !! chat = Some v ->
  clear_session chat w = save_to_file (mem_clear chat w).
Proof.
  intros H. unfold clear_session. rewrite bind_run. cbn [called modify].
  rewrite bind_run. cbn [get_world]. cbn. rewrite H. reflexivity.
Qed.

Lemma save_to_file_run (w : world) :
  let wb := with_store_calls (store_calls w ++ [CallSave]) w in
  save_to_file w =
    match save_to_file_body wb with
    | (Ok _, w') => (Ok tt, w')
    | (Raise e, w') => (Ok tt, with_log (log w' ++ [save_warning e]) w')
    end.
Proof.
  cbn zeta. unfold save_to_file. rewrite bind_run. cbn [called modify].
  unfold try_except.
  destruct (save_to_file_body _) as [[[]|e] w'] eqn:E; [reflexivity|].
  rewrite (save_body_raises_Exception _ _ _ E). reflexivity.
Qed.

Lemma save_to_file_log (w : world) :
  log (save_to_file w).2 =
    match flush_outcome w with
    | Ok _ => log w
    | Raise e => log w ++ [save_warning e]
    end.
Proof.
  rewrite save_to_file_run. cbn zeta. unfold flush_outcome.
  pose proof (save_body_fs_only (with_store_calls (store_calls w ++ [CallSave]) w)) as Hf.
  destruct (save_to_file_body _) as [[[]|e] w'] eqn:E; cbn in *; rewrite Hf; reflexivity.
Qed.

(** ** C2 *)

Lemma set_session_id_sessions chat session w :
  session_manager (set_session_id chat session w).2
  = {| _sessions := <[chat := session]> (_sessions (session_manager w));
       _persistence_path := _persistence_path (session_manager w) |}.
Proof.
  rewrite set_session_id_unfold, keeps_save_session_manager. reflexivity.
Qed.

(** C2, as amended.  [set_session_id] returns normally whether or not the
    mapping could be persisted: a failure of the flush is caught inside
    [save_to_file] and logged as a warning, and no error reaches the
    caller.  In both cases the mapping in memory holds the new value. *)
Theorem set_session_id_swallows_persist_failure
    (chat session : string) (w : world) :
  exists w',
    set_session_id chat session w = (Ok tt, w')
    /\ _sessions (session_manager w') !! chat = Some session
    /\ match flush_outcome (mem_set chat session w) with
       | Ok _ => log w' = log w
       | Raise e => log w' = log w ++ [save_warning e]
       end.
Proof.
  exists (set_session_id chat session w).2. repeat split.
  - rewrite (surjective_pairing (set_session_id chat session w)) at 1.
    f_equal. rewrite set_session_id_unfold. apply save_to_file_ok.
  - rewrite set_session_id_sessions. cbn. apply lookup_insert_eq.
  - rewrite set_session_id_unfold, save_to_file_log.
    destruct (flush_outcome _); reflexivity.
Qed.

(** C2, counterexample.  With the persistence path [sessions.json] the
    flush fails (the directory name is empty), and yet [set_session_id]
    returns normally instead of signalling an error. *)
Lemma set_session_id_no_error_on_failed_persist :
  let w := world0 "sessions.json" ∅ fs0 in
  (exists e, flush_outcome (mem_set "c1" "s1" w) = Raise e)
  /\ (set_session_id "c1" "s1" w).1 = Ok tt
  /\ nodes (fs (set_session_id "c1" "s1" w).2) !! "sessions.json"%string = None.
Proof.
  cbn zeta. split; [|split].
  - eexists. vm_compute. reflexivity.
  - vm_compute. reflexivity.
  - vm_compute. reflexivity.
Qed.

(** ** C8 *)

Lemma clear_session_absent (chat : string) (w : world) :
  _sessions (session_manager w) !! chat = None ->
  clear_session chat w
  = (Ok tt, with_store_calls (store_calls w ++ [CallClear chat]) w).
Proof.
  intros H. unfold clear_session. rewrite bind_run. cbn [called modify].
  rewrite bind_run. cbn [get_world]. cbn. rewrite H. reflexivity.
Qed.

(** C8.  For a conversation id that is not in the mapping, [clear_session]
    returns normally and does nothing: the mapping, the file system (so
    the persisted file and every entry in it) and the log are as before. *)
Theorem clear_session_absent_noop (chat : string) (w : world) :
  _sessions (session_manager w) !! chat = None ->
  exists w',
    clear_session chat w = (Ok tt, w')
    /\ session_manager w' = session_manager w
    /\ fs w' = fs w
    /\ log w' = log w.
Proof.
  intros H.
  exists (with_store_calls (store_calls w ++ [CallClear chat]) w).
  split; [|repeat split]. apply clear_session_absent. exact H.
Qed.

Lemma clear_session_absent_noop_witness :
  let w := world0 "./sessions.json" {[ "c1"%string := "s1"%string ]} fs1 in
  exists w',
    clear_session "c2" w = (Ok tt, w')
    /\ session_manager w' = session_manager w
    /\ fs w' = fs w
    /\ log w' = log w.
Proof.
  apply (clear_session_absent_noop "c2"). vm_compute. reflexivity.
Defined.

(** ** C10 *)

Lemma save_to_file_bare (w : world) :
  PyStr.contains_char "/" (_persistence_path (session_manager w)) = false ->
  flush_outcome w
    = Raise {| exc_cls := FileNotFoundError;
               exc_str := "[Errno 2] No such file or directory" |}
  /\ (save_to_file w).1 = Ok tt
  /\ fs (save_to_file w).2 = fs w
  /\ session_manager (save_to_file w).2 = session_manager w.
Proof.
  intros H. apply dirname_no_slash in H.
  assert (Hb : save_to_file_body (with_store_calls (store_calls w ++ [CallSave]) w)
               = (Raise {| exc_cls := FileNotFoundError;
                           exc_str := "[Errno 2] No such file or directory" |},
                  with_store_calls (store_calls w ++ [CallSave]) w)).
  { apply save_body_bare. exact H. }
  repeat split.
  - unfold flush_outcome. rewrite Hb. reflexivity.
  - apply save_to_file_ok.
  - rewrite save_to_file_run. cbn zeta. rewrite Hb. reflexivity.
  - apply keeps_save_session_manager.
Qed.

(** C10.  When the persistence path has no directory part (no slash in
    it), every call of [save_to_file] fails inside at the creation of the
    directory, whose name is empty, and the failure is swallowed:
    [save_to_file], [set_session_id] and [clear_session] return normally,
    the mapping in memory is updated, and the file system is left as it
    was, so nothing is written for that path. *)
Theorem bare_filename_is_never_written
    (path chat session : string) (w : world) :
  PyStr.contains_char "/" path = false ->
  _persistence_path (session_manager w) = path ->
  (flush_outcome w
     = Raise {| exc_cls := FileNotFoundError;
                exc_str := "[Errno 2] No such file or directory" |}
   /\ (save_to_file w).1 = Ok tt
   /\ fs (save_to_file w).2 = fs w)
  /\ ((set_session_id chat session w).1 = Ok tt
      /\ _sessions (session_manager (set_session_id chat session w).2)
         = <[chat := session]> (_sessions (session_manager w))
      /\ fs (set_session_id chat session w).2 = fs w)
  /\ ((clear_session chat w).1 = Ok tt
      /\ _sessions (session_manager (clear_session chat w).2)
         = delete chat (_sessions (session_manager w))
      /\ fs (clear_session chat w).2 = fs w).
Proof.
  intros Hbare Hpath. subst path. split; [|split].
  - destruct (save_to_file_bare w Hbare) as (H1 & H2 & H3 & _). auto.
  - rewrite set_session_id_unfold.
    destruct (save_to_file_bare (mem_set chat session w) Hbare)
      as (_ & H2 & H3 & H4).
    rewrite H2, H3, H4. auto.
  - destruct (_sessions (session_manager w) !! chat) as [v|] eqn:E.
    + rewrite (clear_session_unfold chat w v E).
      destruct (save_to_file_bare (mem_clear chat w) Hbare)
        as (_ & H2 & H3 & H4).
      rewrite H2, H3, H4. auto.
    + rewrite (clear_session_absent chat w E). cbn.
      rewrite delete_id by exact E. auto.
Qed.

Lemma bare_filename_is_never_written_witness :
  let w := world0 "sessions.json" {[ "c1"%string := "s1"%string ]} fs0 in
  (flush_outcome w
     = Raise {| exc_cls := FileNotFoundError;
                exc_str := "[Errno 2] No such file or directory" |}
   /\ (save_to_file w).1 = Ok tt
   /\ fs (save_to_file w).2 = fs w)
  /\ ((set_session_id "c2" "s2" w).1 = Ok tt
      /\ _sessions (session_manager (set_session_id "c2" "s2" w).2)
         = <["c2"%string := "s2"%string]> (_sessions (session_manager w))
      /\ fs (set_session_id "c2" "s2" w).2 = fs w)
  /\ ((clear_session "c2" w).1 = Ok tt
      /\ _sessions (session_manager (clear_session "c2" w).2)
         = delete "c2"%string (_sessions (session_manager w))
      /\ fs (clear_session "c2" w).2 = fs w).
Proof.
  apply (bare_filename_is_never_written "sessions.json" "c2" "s2");
    reflexivity.
Defined.

(** ** C1 *)

Arguments Json.loads : simpl never.
Arguments Json.dumps : simpl never.

Section Reload.
Variable py_repr : pyval -> string.

(** [load_from_file] on a readable file that holds a JSON object. *)
Lemma load_from_file_object (w : world) (text : string)
    (items : list (string * pyval)) :
  nodes (fs w) !! _persistence_path (session_manager w) = Some (File text) ->
  _persistence_path (session_manager w) ∉ denied (fs w) ->
  Json.loads text = Some (PyDict items) ->
  load_from_file py_repr w
  = (Ok tt,
     with_log (log w ++ [load_info (str_dict py_repr items)])
       (with_session_manager
          {| _sessions := str_dict py_repr items;
             _persistence_path := _persistence_path (session_manager w) |}
          (with_store_calls (store_calls w ++ [CallLoad]) w))).
Proof.
  intros Hnode Hden Hjson.
  unfold load_from_file, load_from_file_body, try_except, Os.path_exists,
    Os.read, json_loads, items_of, set_sessions. mrun. wsimpl.
  rewrite Hnode. rewrite bool_decide_eq_true_2 by eauto. wsimpl.
  rewrite Hnode. rewrite bool_decide_eq_false_2 by exact Hden.
  rewrite Hjson. reflexivity.
Qed.

(** C1.  After [set_session_id(id, session)], [get_session_id(id)] on the
    same manager returns that session.  When the flush of that call went
    through, a fresh manager on the same path loads without error, and the
    mapping it reconstructs is exactly the mapping that was saved: the one
    in memory after the call, which is the old one with the new entry. *)
Theorem set_then_get_and_reload (chat session : string) (w : world) :
  let w1 := (set_session_id chat session w).2 in
  let fresh :=
    with_session_manager (__init__ (_persistence_path (session_manager w1))) w1 in
  (get_session_id chat w1).1 = Ok (Some session)
  /\ _sessions (session_manager w1)
     = <[chat := session]> (_sessions (session_manager w))
  /\ (flush_outcome (mem_set chat session w) = Ok tt ->
      (load_from_file py_repr fresh).1 = Ok tt
      /\ _sessions (session_manager (load_from_file py_repr fresh).2)
         = _sessions (session_manager w1)).
Proof.
  cbn zeta. split; [|split].
  - unfold get_session_id. rewrite bind_run. cbn [called modify].
    rewrite bind_run. cbn [get_world]. cbn.
    rewrite set_session_id_sessions. cbn. rewrite lookup_insert_eq. reflexivity.
  - rewrite set_session_id_sessions. reflexivity.
  - intros Hflush. rewrite set_session_id_sessions. cbn [_persistence_path _sessions].
    rewrite set_session_id_unfold, save_to_file_run. cbn zeta.
    unfold flush_outcome in Hflush.
    destruct (save_to_file_body _) as [[[]|e] w1] eqn:E; [|discriminate Hflush].
    cbn [fst snd]. apply save_body_ok in E as [Hnode Hden]. cbn in Hnode, Hden.
    destruct (loads_dumps py_repr
                (<[chat := session]> (_sessions (session_manager w))))
      as (items & Hjson & Hdict).
    rewrite (load_from_file_object
               (with_session_manager
                  (__init__ (_persistence_path (session_manager w))) w1)
               _ items Hnode Hden Hjson).
    cbn. rewrite Hdict. auto.
Qed.

End Reload.

Lemma set_then_get_and_reload_witness :
  let py_repr := fun _ : pyval => EmptyString in
  let w := world0 "./sessions.json" {[ "c1"%string := "s1"%string ]} fs0 in
  let w1 := (set_session_id "c2" "s2" w).2 in
  let fresh :=
    with_session_manager (__init__ (_persistence_path (session_manager w1))) w1 in
  flush_outcome (mem_set "c2" "s2" w) = Ok tt
  /\ (get_session_id "c2" w1).1 = Ok (Some "s2"%string)
  /\ _sessions (session_manager w1)
     = <["c2"%string := "s2"%string]> (_sessions (session_manager w))
  /\ (load_from_file py_repr fresh).1 = Ok tt
  /\ _sessions (session_manager (load_from_file py_repr fresh).2)
     = _sessions (session_manager w1).
Proof.
  cbn zeta.
  assert (Hflush : flush_outcome
            (mem_set "c2" "s2"
               (world0 "./sessions.json" {[ "c1"%string := "s1"%string ]} fs0))
          = Ok tt) by (vm_compute; reflexivity).
  destruct (set_then_get_and_reload (fun _ => EmptyString) "c2" "s2"
              (world0 "./sessions.json" {[ "c1"%string := "s1"%string ]} fs0))
    as (Hget & Hmem & Hload).
  split; [exact Hflush|]. split; [exact Hget|]. split; [exact Hmem|].
  apply Hload. exact Hflush.
Defined.

(** ** C6 *)

Section LoadCases.
Variable py_repr : pyval -> string.

(** C6, as amended.  [load_from_file] on a fresh manager never raises.
    When no node exists at the path, the mapping stays empty and nothing
    is logged.  When the path cannot be read as a file, the mapping is
    empty and a warning is logged.  When it can be read, the call ends in
    one of two ways, whatever the text: the mapping is empty and a
    warning is logged, or the mapping is made of the members of a JSON
    object with every value converted by [str], and the number of entries
    is logged.  For a text within the reach of the decoder
    ([tame_json]), which of the two is decided here: a text that is not
    JSON, or a JSON value that is not an object, gives the empty mapping
    and the warning; a JSON object gives the mapping of its members, and
    a value that is not a string is converted, not refused. *)
Theorem load_from_file_never_raises (path : string) (w0 : world) :
  let w := with_session_manager (__init__ path) w0 in
  let w' := (load_from_file py_repr w).2 in
  (load_from_file py_repr w).1 = Ok tt
  /\ match nodes (fs w0) !! path with
     | None => _sessions (session_manager w') = ∅ /\ log w' = log w0
     | Some Dir => empty_with_warning w0 w'
     | Some (File text) =>
         if bool_decide (path ∈ denied (fs w0)) then empty_with_warning w0 w'
         else
           (empty_with_warning w0 w'
            \/ exists items,
                 _sessions (session_manager w') = str_dict py_repr items
                 /\ log w' = log w0 ++ [load_info (str_dict py_repr items)])
           /\ (tame_json text = true ->
               match Json.loads text with
               | Some (PyDict items) =>
                   _sessions (session_manager w') = str_dict py_repr items
                   /\ log w' = log w0 ++ [load_info (str_dict py_repr items)]
               | _ => empty_with_warning w0 w'
               end)
     end.
Proof.
  cbn zeta.
  unfold load_from_file, load_from_file_body, try_except, Os.path_exists,
    Os.read, json_loads, items_of, set_sessions, no_attribute, empty_with_warning.
  mrun. unfold __init__. wsimpl.
  destruct (nodes (fs w0) !! path) as [[|text]|] eqn:Hnode.
  - rewrite bool_decide_eq_true_2 by eauto. cbn. rewrite Hnode.
    cbn. eauto.
  - rewrite bool_decide_eq_true_2 by eauto. cbn. rewrite Hnode.
    destruct (bool_decide (path ∈ denied (fs w0))); [cbn; eauto|].
    destruct (Json.loads text) as [[]|]; cbn; eauto 10.
  - rewrite bool_decide_eq_false_2 by apply is_Some_None.
    cbn. auto.
Qed.

End LoadCases.

(** C6, counterexample.  The file holds a JSON object whose value is the
    number 1, which is not a string-to-string object; yet the mapping
    loaded is not empty, it maps [a] to the text [1], and the only record
    logged is informational. *)
Lemma load_from_file_keeps_non_string_value :
  let w := world0 "./sessions.json" ∅ fs_int_value in
  let w' := (load_from_file (fun _ => EmptyString) w).2 in
  _sessions (session_manager w') = {[ "a"%string := "1"%string ]}
  /\ _sessions (session_manager w') <> ∅
  /\ log w' = [(INFO, "Loaded 1 sessions"%string)].
Proof.
  cbn zeta. split; [|split].
  - vm_compute. reflexivity.
  - intros H. apply (f_equal (fun m => m !! "a"%string)) in H.
    vm_compute in H. discriminate H.
  - vm_compute. reflexivity.
Qed.

(** The default path has a directory part, and a flush to it goes
    through in a directory that can be written. *)
Lemma default_path_is_written :
  OsPath.dirname (main.session_persistence_path None) = "."%string
  /\ flush_outcome (world0 (main.session_persistence_path None) ∅ fs0) = Ok tt.
Proof. split; vm_compute; reflexivity. Qed.



(** ** C3 *)

(** C3.  Whatever the prompt, and whether the completion API answers or
    fails with an exception (an instance of [Exception], as every transport
    or provider error is), [query_stream] makes one call of the API, raises
    nothing and yields exactly one message.  After a failure the content of
    that message is the text [Error: ] followed by the description of the
    failure; after an answer whose first block is a text block it is that
    text. *)
Theorem query_stream_yields_one_message
    (self : agent_client.AgentClient) (prompt : string)
    (session_id : option string) (w : world) :
  (forall e, completion_service w (prompts w) prompt = ApiRaises e ->
             is_Exception (exc_cls e) = true) ->
  exists m w',
    agent_client.query_stream self prompt session_id w = (Ok [m], w')
    /\ prompts w' = prompts w ++ [prompt]
    /\ match completion_service w (prompts w) prompt with
       | ApiRaises e =>
           agent_client.content m
           = agent_client.ContentStr ("Error: " +:+ exc_str e)
       | ApiResponse (TextBlock text :: _) =>
           agent_client.content m = agent_client.ContentStr text
       | ApiResponse _ =>
           exists description,
             agent_client.content m
             = agent_client.ContentStr ("Error: " +:+ description)
       end.
Proof.
  intros Hexc.
  unfold agent_client.query_stream, try_except, agent_client.messages_create,
    agent_client.first_text.
  mrun. wsimpl.
  destruct (completion_service w (prompts w) prompt) as [blocks|e] eqn:E.
  - destruct blocks as [|[text|cls] blocks]; cbn; eauto 10.
  - rewrite (Hexc e eq_refl). cbn. eauto 10.
Qed.

Lemma query_stream_yields_one_message_witness :
  (forall e, completion_service world_api_down (prompts world_api_down) "hello"
             = ApiRaises e -> is_Exception (exc_cls e) = true)
  /\ exists m w',
    agent_client.query_stream client0 "hello" None world_api_down = (Ok [m], w')
    /\ prompts w' = prompts world_api_down ++ ["hello"%string]
    /\ match completion_service world_api_down (prompts world_api_down) "hello" with
       | ApiRaises e =>
           agent_client.content m
           = agent_client.ContentStr ("Error: " +:+ exc_str e)
       | ApiResponse (TextBlock text :: _) =>
           agent_client.content m = agent_client.ContentStr text
       | ApiResponse _ =>
           exists description,
             agent_client.content m
             = agent_client.ContentStr ("Error: " +:+ description)
       end.
Proof.
  assert (H : forall e,
    completion_service world_api_down (prompts world_api_down) "hello"
    = ApiRaises e -> is_Exception (exc_cls e) = true).
  { intros e He. cbn in He. inversion He. reflexivity. }
  split; [exact H|].
  exact (query_stream_yields_one_message client0 "hello" None world_api_down H).
Defined.

(** ** The inbound handler *)

(** What the handler comes to for a text event with a text in it: the
    record of the reception is logged and one task is created, for the
    command handler when the text starts with a slash, for the agent
    otherwise. *)
Lemma handle_dispatch (self : FeishuBot) (data : P2ImMessageReceiveV1)
    (text : string) (w : world) :
  _running w = true ->
  message_type data = "text"%string ->
  inbound_text (message_content data) = Some text ->
  PyStr.truthy text = true ->
  handle_message_receive_v1 self data w
  = create_task
      (if PyStr.startswith "/" text
       then _handle_command self (chat_id data) text
       else _process_agent_message self (chat_id data) text)
      (with_log (log w ++ [received data]) w).
Proof.
  intros Hrun Htype Htext Htruthy. unfold received.
  unfold handle_message_receive_v1. rewrite bind_run. cbn [get_world].
  rewrite Hrun. cbn [negb]. rewrite bind_run.
  unfold logger at 1. cbn [modify]. rewrite Htype. cbn [String.eqb Ascii.eqb Bool.eqb negb].
  rewrite bind_run. unfold try_except at 1.
  unfold inbound_text in Htext. unfold json_loads, text_of.
  rewrite !bind_run.
  destruct (Json.loads (message_content data)) as [[]|]; try discriminate Htext.
  cbn [mret M_ret]. rewrite !bind_run.
  destruct (PyDictOps.get items "text") as [[]|]; try discriminate Htext;
    cbn [mret M_ret]; inversion Htext; subst text; rewrite Htruthy; cbn [negb];
    destruct (PyStr.startswith _ _); reflexivity.
Qed.

Lemma create_task_ok (coro : M unit) (w : world) : (create_task coro w).1 = Ok tt.
Proof. unfold create_task. destruct (coro w) as [[[]|e] w']; reflexivity. Qed.

Lemma clear_session_ok (chat : string) (w : world) :
  (clear_session chat w).1 = Ok tt.
Proof.
  destruct (_sessions (session_manager w) !! chat) as [v|] eqn:E.
  - rewrite (clear_session_unfold chat w v E). apply save_to_file_ok.
  - rewrite (clear_session_absent chat w E). reflexivity.
Qed.

Lemma clear_session_sessions (chat : string) (w : world) :
  _sessions (session_manager (clear_session chat w).2)
  = delete chat (_sessions (session_manager w)).
Proof.
  destruct (_sessions (session_manager w) !! chat) as [v|] eqn:E.
  - rewrite (clear_session_unfold chat w v E), keeps_save_session_manager.
    reflexivity.
  - rewrite (clear_session_absent chat w E). cbn. rewrite delete_id by exact E.
    reflexivity.
Qed.


Lemma keeps_create_task_log {X} (p : world -> X) (coro : M unit) :
  (forall w l, p (with_log l w) = p w) -> forall w,
  p (create_task coro w).2 = p (coro w).2.
Proof.
  intros Hl w. unfold create_task.
  destruct (coro w) as [[[]|e] w']; [reflexivity|]. cbn. apply Hl.
Qed.

(** ** C4 *)



(** ** C5 *)

Section CallsOnly.
Context (P : store_call -> Prop).

Lemma calls_only_keeps {A} (c : M A) : keeps store_calls c -> calls_only P c.
Proof. intros H w. exists []. rewrite H, app_nil_r. auto. Qed.

Lemma calls_only_called (x : store_call) : P x -> calls_only P (called x).
Proof. intros H w. exists [x]. cbn. auto. Qed.

Lemma calls_only_bind {A B} (c : M A) (f : A -> M B) :
  calls_only P c -> (forall a, calls_only P (f a)) -> calls_only P (c ≫= f).
Proof.
  intros Hc Hf w. rewrite bind_run. destruct (Hc w) as (l & El & Hl).
  destruct (c w) as [[a|e] w']; cbn in *.
  - destruct (Hf a w') as (l' & El' & Hl'). exists (l ++ l').
    rewrite El', El, app_assoc. split; [reflexivity|]. apply Forall_app. auto.
  - exists l. auto.
Qed.

Lemma calls_only_try_except {A} (body : M A) (handler : exception -> M A) :
  calls_only P body -> (forall e, calls_only P (handler e)) ->
  calls_only P (try_except body handler).
Proof.
  intros Hb Hh w. unfold try_except. destruct (Hb w) as (l & El & Hl).
  destruct (body w) as [[a|e] w']; cbn in *; [eauto|].
  destruct (is_Exception (exc_cls e)); [|eauto].
  destruct (Hh e w') as (l' & El' & Hl'). exists (l ++ l').
  rewrite El', El, app_assoc. split; [reflexivity|]. apply Forall_app. auto.
Qed.

Lemma calls_only_create_task (coro : M unit) :
  calls_only P coro -> calls_only P (create_task coro).
Proof.
  intros Hc w. destruct (Hc w) as (l & El & Hl). exists l.
  rewrite (keeps_create_task_log store_calls) by reflexivity. auto.
Qed.

End CallsOnly.

Ltac calls_step :=
  first
    [ apply calls_only_called; exact I
    | apply calls_only_bind; [|intros ?]
    | apply calls_only_try_except; [|intros ?]
    | apply calls_only_create_task
    | match goal with
      | |- calls_only _ (match ?x with _ => _ end) => destruct x
      end
    | apply calls_only_keeps; solve [keeps_auto] ].

Lemma calls_save_to_file : calls_only not_set save_to_file.
Proof. unfold save_to_file. repeat calls_step. Qed.

Lemma calls_clear_session chat : calls_only not_set (clear_session chat).
Proof.
  unfold clear_session.
  repeat first [ apply calls_save_to_file | calls_step ].
Qed.

Lemma calls_get_session_id chat : calls_only not_set (get_session_id chat).
Proof. unfold get_session_id. repeat calls_step. Qed.

Lemma calls_send_message self chat text :
  calls_only not_set (_send_message self chat text).
Proof. apply calls_only_keeps. intros w. apply keeps_send_store_calls. Qed.

Lemma calls_handle_command self chat text :
  calls_only not_set (_handle_command self chat text).
Proof.
  unfold _handle_command.
  repeat first [ apply calls_clear_session | apply calls_get_session_id
               | apply calls_send_message | calls_step ].
Qed.

Lemma calls_query_stream self prompt session_id :
  calls_only not_set (agent_client.query_stream self prompt session_id).
Proof. apply calls_only_keeps. unfold agent_client.query_stream. keeps_auto. Qed.

Lemma calls_process_agent_message self chat prompt :
  calls_only not_set (_process_agent_message self chat prompt).
Proof.
  unfold _process_agent_message.
  repeat first [ apply calls_get_session_id | apply calls_send_message
               | apply calls_query_stream | calls_step ].
Qed.

Lemma calls_handle_message self data :
  calls_only not_set (handle_message_receive_v1 self data).
Proof.
  unfold handle_message_receive_v1.
  repeat first [ apply calls_handle_command | apply calls_process_agent_message
               | calls_step ].
Qed.

Lemma not_set_Forall (l : list store_call) :
  Forall not_set l -> forall k v, CallSet k v ∉ l.
Proof.
  intros H k v Hin. rewrite Forall_forall in H. exact (H _ Hin).
Qed.

Lemma get_session_id_run (chat : string) (w : world) :
  get_session_id chat w
  = (Ok (_sessions (session_manager w) !! chat),
     with_store_calls (store_calls w ++ [CallGet chat]) w).
Proof. reflexivity. Qed.

(** The calls the handler of [/status] makes: one [get_session_id]. *)
Lemma handle_status_calls (self : FeishuBot) (chat : string) (w : world) :
  store_calls (_handle_command self chat "/status" w).2
  = store_calls w ++ [CallGet chat].
Proof.
  unfold _handle_command. cbn [String.eqb Ascii.eqb Bool.eqb orb].
  rewrite bind_run, get_session_id_run.
  match goal with
  | |- store_calls (?k ?a ?w').2 = _ =>
      assert (Hk : keeps store_calls (k a)) by (cbv beta; keeps_auto);
      rewrite (Hk w')
  end.
  reflexivity.
Qed.

(** C5, as amended.  No run of the inbound handler calls
    [set_session_id]: not the turns that go to the agent, and not the
    commands either.  The handler of [/status] makes one call of the
    session manager, a [get_session_id]; the method [set_session_id] has
    no caller on any path. *)
Theorem set_session_id_is_never_called
    (self : FeishuBot) (data : P2ImMessageReceiveV1) (w : world) :
  (exists l,
     store_calls (handle_message_receive_v1 self data w).2 = store_calls w ++ l
     /\ forall k v, CallSet k v ∉ l)
  /\ (forall chat prompt w0, exists l,
        store_calls (_process_agent_message self chat prompt w0).2
        = store_calls w0 ++ l
        /\ forall k v, CallSet k v ∉ l)
  /\ (forall chat text w0, exists l,
        store_calls (_handle_command self chat text w0).2 = store_calls w0 ++ l
        /\ forall k v, CallSet k v ∉ l)
  /\ (forall chat w0,
        store_calls (_handle_command self chat "/status" w0).2
        = store_calls w0 ++ [CallGet chat]).
Proof.
  split; [|split; [|split]].
  - destruct (calls_handle_message self data w) as (l & El & Hl).
    exists l. split; [exact El|]. apply not_set_Forall. exact Hl.
  - intros chat prompt w0.
    destruct (calls_process_agent_message self chat prompt w0) as (l & El & Hl).
    exists l. split; [exact El|]. apply not_set_Forall. exact Hl.
  - intros chat text w0.
    destruct (calls_handle_command self chat text w0) as (l & El & Hl).
    exists l. split; [exact El|]. apply not_set_Forall. exact Hl.
  - intros chat w0. apply handle_status_calls.
Qed.

(** C5, counterexample.  The claim has [set_session_id] reachable from the
    handler of [/status].  In the state at hand the handler of [/status]
    makes one call of the session manager, a [get_session_id]; and no run
    of that handler, in any state, calls [set_session_id]. *)
Lemma status_handler_never_calls_set :
  store_calls
    (_handle_command bot0 "c1" "/status"
       (world0 "./sessions.json" {[ "c1"%string := "s1"%string ]} fs1)).2
  = [CallGet "c1"]
  /\ ~ exists (self : FeishuBot) (chat : string) (w : world)
              (k v : string) (l : list store_call),
        store_calls (_handle_command self chat "/status" w).2
        = store_calls w ++ l
        /\ CallSet k v ∈ l.
Proof.
  split; [vm_compute; reflexivity|].
  intros (self & chat & w & k & v & l & El & Hin).
  rewrite handle_status_calls in El.
  apply app_inv_head in El. subst l.
  apply list_elem_of_singleton in Hin. discriminate Hin.
Qed.

(** ** C7 *)








(** ** C9 *)

(** C9.  For a text with no control character other than line feed and
    carriage return, the payload [_send_message] builds around the escaped
    text is a JSON text, and it decodes to an object with the one member
    [text], whose value is the original text. *)
Theorem lark_payload_round_trip (text : string) :
  plain_text text = true ->
  Json.loads (text_payload (_escape_lark_text text))
  = Some (PyDict [("text"%string, PyStr text)]).
Proof. intros Hp. exact (loads_text_payload text Hp). Qed.

Lemma lark_payload_round_trip_witness :
  plain_text tricky_text = true
  /\ Json.loads (text_payload (_escape_lark_text tricky_text))
     = Some (PyDict [("text"%string, PyStr tricky_text)]).
Proof.
  split; [reflexivity|].
  apply (lark_payload_round_trip tricky_text). reflexivity.
Defined.

(** The restriction on control characters is needed: a tab goes into the
    payload as it is, and the payload is then no JSON text. *)
Lemma lark_payload_with_tab_is_not_json :
  Json.loads (text_payload (_escape_lark_text
                (String "a" (String Json.TAB (String "b" EmptyString)))))
  = None.
Proof. vm_compute. reflexivity. Qed.



(** ** Configuration and start-up *)

Lemma validation_errors_nil (cls : config.PlatformConfig) (keys : Config) :
  config.validation_errors cls keys = []
  <-> platform_ready cls && key_ready keys = true.
Proof.
  unfold config.validation_errors, platform_ready, key_ready.
  destruct (String.eqb_spec (config.PLATFORM cls) "discord") as [Hd|Hd].
  - rewrite Hd. cbn [String.eqb Ascii.eqb Bool.eqb orb andb negb app].
    destruct (config.is_set (config.DISCORD_BOT_TOKEN cls)),
             (config.is_set (GLM_API_KEY keys)),
             (config.is_set (ANTHROPIC_API_KEY keys)); cbn; split; congruence.
  - destruct (String.eqb_spec (config.PLATFORM cls) "feishu") as [Hf|Hf].
    + destruct (config.is_set (config.FEISHU_APP_ID cls)),
               (config.is_set (config.FEISHU_APP_SECRET cls)),
               (config.is_set (GLM_API_KEY keys)),
               (config.is_set (ANTHROPIC_API_KEY keys)); cbn; split; congruence.
    + destruct (config.is_set (GLM_API_KEY keys)),
               (config.is_set (ANTHROPIC_API_KEY keys)); cbn; split; congruence.
Qed.

Lemma validate_run (cls : config.PlatformConfig) (w : world) :
  config.validate cls w
  = if platform_ready cls && key_ready (cfg w) then (Ok true, w)
    else (Raise {| exc_cls := ValueError;
                   exc_str :=
                     "Configuration errors:" +:+ NL
                     +:+ PyStr.join NL
                           (map (fun e => "  - " +:+ e)
                              (config.validation_errors cls (cfg w))) |}, w).
Proof.
  unfold config.validate. rewrite bind_run. cbn [get_world].
  destruct (platform_ready cls && key_ready (cfg w)) eqn:E.
  - apply validation_errors_nil in E. rewrite E. reflexivity.
  - destruct (config.validation_errors cls (cfg w)) eqn:Ev; [|reflexivity].
    apply validation_errors_nil in Ev. congruence.
Qed.

(** X1.  [Config.validate] returns [True] exactly when the platform is
    [discord] with a bot token or [feishu] with an application id and
    secret, and one of the two API keys is set, an empty value counting
    as not set.  Otherwise it raises a [ValueError].  In both cases it
    changes nothing. *)
Theorem validate_accepts_exactly (cls : config.PlatformConfig) (w : world) :
  if platform_ready cls && key_ready (cfg w)
  then config.validate cls w = (Ok true, w)
  else exists msg,
         config.validate cls w
         = (Raise {| exc_cls := ValueError; exc_str := msg |}, w).
Proof.
  rewrite validate_run. destruct (platform_ready cls && key_ready (cfg w)); eauto.
Qed.

Lemma get_agent_config_run (w : world) :
  key_ready (cfg w) = true ->
  exists ac,
    config.get_agent_config w = (Ok ac, w)
    /\ PyStr.truthy (config.api_key ac) = true
    /\ (if config.is_set (GLM_API_KEY (cfg w))
        then config.model ac = GLM_MODEL (cfg w)
             /\ config.api_base_url ac = Some (GLM_API_BASE_URL (cfg w))
             /\ GLM_API_KEY (cfg w) = Some (config.api_key ac)
        else config.model ac = CLAUDE_MODEL (cfg w)
             /\ config.api_base_url ac = None
             /\ ANTHROPIC_API_KEY (cfg w) = Some (config.api_key ac)).
Proof.
  unfold key_ready, config.get_agent_config. rewrite bind_run. cbn [get_world].
  destruct (GLM_API_KEY (cfg w)) as [[|c k]|];
    destruct (ANTHROPIC_API_KEY (cfg w)) as [[|c' k']|];
    cbn; intros H; try discriminate H; eexists; (split; [reflexivity|]); auto.
Qed.

Lemma get_agent_config_no_key (w : world) :
  key_ready (cfg w) = false ->
  exists msg,
    config.get_agent_config w
    = (Raise {| exc_cls := ValueError; exc_str := msg |}, w).
Proof.
  unfold key_ready, config.get_agent_config. rewrite bind_run. cbn [get_world].
  destruct (GLM_API_KEY (cfg w)) as [[|c k]|];
    destruct (ANTHROPIC_API_KEY (cfg w)) as [[|c' k']|];
    cbn; intros H; try discriminate H; eexists; reflexivity.
Qed.

(** X2.  The provider [get_agent_config] chooses.  It raises a [ValueError]
    exactly when neither key is set, an empty key counting as not set.
    Otherwise the key it returns is not empty; it is the GLM key, with the
    GLM model and base URL, whenever the GLM key is set, whatever the
    Anthropic key is, and else the Anthropic key with the Claude model and
    no base URL. *)
Theorem get_agent_config_prefers_glm (w : world) :
  if key_ready (cfg w)
  then exists ac,
         config.get_agent_config w = (Ok ac, w)
         /\ PyStr.truthy (config.api_key ac) = true
         /\ (if config.is_set (GLM_API_KEY (cfg w))
             then config.model ac = GLM_MODEL (cfg w)
                  /\ config.api_base_url ac = Some (GLM_API_BASE_URL (cfg w))
                  /\ GLM_API_KEY (cfg w) = Some (config.api_key ac)
             else config.model ac = CLAUDE_MODEL (cfg w)
                  /\ config.api_base_url ac = None
                  /\ ANTHROPIC_API_KEY (cfg w) = Some (config.api_key ac))
  else exists msg,
         config.get_agent_config w
         = (Raise {| exc_cls := ValueError; exc_str := msg |}, w).
Proof.
  destruct (key_ready (cfg w)) eqn:E.
  - apply get_agent_config_run. exact E.
  - apply get_agent_config_no_key. exact E.
Qed.

Lemma get_platform_info_run (cls : config.PlatformConfig) (w : world) :
  key_ready (cfg w) = true ->
  exists ac,
    config.get_agent_config w = (Ok ac, w)
    /\ config.get_platform_info cls w
       = (Ok ((if String.eqb (config.PLATFORM cls) "discord"
               then "Discord bot with " else "Feishu/Lark bot with ")
              +:+ config.model ac), w).
Proof.
  intros H. destruct (get_agent_config_run w H) as (ac & Hac & _).
  exists ac. split; [exact Hac|].
  unfold config.get_platform_info. rewrite bind_run, Hac.
  destruct (String.eqb (config.PLATFORM cls) "discord"); reflexivity.
Qed.

(** X3.  How [main] ends.  When [Config.validate] accepts the configuration,
    [main] prints the description [get_platform_info] gives, which cannot
    fail then, and goes on to the platform that was selected; when it does
    not, [main] prints the errors and exits with code 1.  So [main] never
    ends with an exception of the configuration, and its last branch, for
    an unknown platform, is never taken.  It leaves the state as it was. *)
Theorem main_runs_the_validated_platform
    (cls : config.PlatformConfig) (w : world) :
  if platform_ready cls && key_ready (cfg w)
  then exists ac,
         config.get_agent_config w = (Ok ac, w)
         /\ main.main cls w
            = (main.banner
               ++ ["Platform: "
                   +:+ (if String.eqb (config.PLATFORM cls) "discord"
                        then "Discord bot with " else "Feishu/Lark bot with ")
                   +:+ config.model ac; EmptyString],
               if String.eqb (config.PLATFORM cls) "discord"
               then main.RunDiscord else main.RunFeishu,
               w)
         /\ (String.eqb (config.PLATFORM cls) "discord"
             || String.eqb (config.PLATFORM cls) "feishu") = true
  else exists msg,
         main.main cls w
         = (main.banner
            ++ ["Configuration error:" +:+ NL +:+ msg;
                NL +:+ "Please create a .env file based on .env.example"],
            main.Exit 1, w).
Proof.
  unfold main.main. rewrite validate_run.
  destruct (platform_ready cls && key_ready (cfg w)) eqn:E.
  - apply andb_true_iff in E as [Hp Hk].
    destruct (get_platform_info_run cls w Hk) as (ac & Hac & Hinfo).
    rewrite Hinfo. unfold platform_ready in Hp. exists ac.
    destruct (String.eqb (config.PLATFORM cls) "discord") eqn:Ed.
    + repeat split; eauto.
    + destruct (String.eqb (config.PLATFORM cls) "feishu") eqn:Ef;
        [|discriminate Hp].
      repeat split; eauto.
  - cbn. eexists. reflexivity.
Qed.

Lemma lower_char_idempotent (c : ascii) :
  PyStr.lower_char (PyStr.lower_char c) = PyStr.lower_char c.
Proof. case_char c; reflexivity. Qed.

Lemma lower_idempotent (text : string) :
  PyStr.lower (PyStr.lower text) = PyStr.lower text.
Proof.
  induction text as [|c text IH]; [reflexivity|].
  cbn [PyStr.lower]. rewrite lower_char_idempotent, IH. reflexivity.
Qed.

(** X4.  The platform is read from the environment without regard to the
    case of its letters: the attribute [PLATFORM] is always in lower case,
    and writing the variable in another case gives the same configuration.
    Without the variable the platform is [discord]. *)
Theorem platform_name_ignores_case
    (environ : gmap string string) (name : string) :
  PyStr.lower (config.PLATFORM (config.PlatformConfig_of_environ environ))
  = config.PLATFORM (config.PlatformConfig_of_environ environ)
  /\ config.PlatformConfig_of_environ (<["PLATFORM"%string := name]> environ)
     = config.PlatformConfig_of_environ
         (<["PLATFORM"%string := PyStr.lower name]> environ)
  /\ config.PLATFORM
       (config.PlatformConfig_of_environ (delete "PLATFORM"%string environ))
     = "discord"%string.
Proof.
  split; [|split].
  - apply lower_idempotent.
  - unfold config.PlatformConfig_of_environ, config.getenv_or, config.getenv.
    rewrite !lookup_insert_eq.
    rewrite !lookup_insert_ne by discriminate.
    simpl. rewrite lower_idempotent. reflexivity.
  - unfold config.PlatformConfig_of_environ, config.getenv_or.
    cbn [config.PLATFORM]. rewrite lookup_delete_eq. reflexivity.
Qed.



(** ** Sending *)

Lemma send_message_run (self : FeishuBot) (chat text : string) (w : world) :
  let o := lark_service w (sent w) (text_request chat text) in
  _send_message self chat text w
  = (send_result o,
     with_log (log w ++ send_record chat o)
       (with_sent (sent w ++ [text_request chat text]) w)).
Proof.
  cbn zeta. unfold _send_message, try_except, message_create, text_request,
    send_result, send_record. mrun. wsimpl.
  destruct (lark_service w (sent w) _) as [code msg|e]; cbn.
  - destruct (code =? 0)%Z; cbn; [|reflexivity].
    rewrite app_nil_r. destruct w; reflexivity.
  - destruct (is_Exception (exc_cls e)); cbn; [reflexivity|].
    rewrite app_nil_r. destruct w; reflexivity.
Qed.

(** X5.  What [_send_message] does, whatever the Lark client answers.  It
    hands one request to the client and never a second one.  A refusal
    (a code other than 0) or an exception of the client is logged as one
    error record and not reported to the caller: the call ends normally,
    and only an exception that is no [Exception] passes through.  Nothing
    else of the state changes. *)
Theorem send_message_never_retries
    (self : FeishuBot) (chat text : string) (w : world) :
  let r := (_send_message self chat text w).1 in
  let w' := (_send_message self chat text w).2 in
  sent w' = sent w ++ [text_request chat text]
  /\ w' = with_log (log w') (with_sent (sent w') w)
  /\ match lark_service w (sent w) (text_request chat text) with
     | LarkResponse code msg =>
         r = Ok tt
         /\ log w'
            = log w
              ++ (if (code =? 0)%Z then []
                  else [(ERROR, "Failed to send message: " +:+ msg
                                +:+ " (code=" +:+ pretty code +:+ ")")])
     | LarkRaises e =>
         if is_Exception (exc_cls e)
         then r = Ok tt
              /\ log w'
                 = log w ++ [(ERROR, "Exception sending message to " +:+ chat
                                     +:+ ": " +:+ exc_str e)]
         else r = Raise e /\ log w' = log w
     end.
Proof.
  cbn zeta. rewrite send_message_run. cbn zeta. cbn [fst snd].
  split; [reflexivity|]. split; [reflexivity|].
  unfold send_result, send_record.
  destruct (lark_service w (sent w) _) as [code msg|e]; wsimpl.
  - split; reflexivity.
  - destruct (is_Exception (exc_cls e)); wsimpl; [split; reflexivity|].
    rewrite app_nil_r. split; reflexivity.
Qed.

(** ** A turn of the agent *)

Lemma query_stream_run (self : agent_client.AgentClient) (prompt : string)
    (session_id : option string) (w : world) :
  (forall e, completion_service w (prompts w) prompt = ApiRaises e ->
             is_Exception (exc_cls e) = true) ->
  agent_client.query_stream self prompt session_id w
  = (Ok [ {| agent_client.content :=
               agent_client.ContentStr
                 (reply_of (completion_service w (prompts w) prompt)) |} ],
     with_prompts (prompts w ++ [prompt]) w).
Proof.
  intros Hexc.
  unfold agent_client.query_stream, try_except, agent_client.messages_create,
    agent_client.first_text, reply_of.
  mrun. wsimpl.
  destruct (completion_service w (prompts w) prompt) as [blocks|e] eqn:E.
  - destruct blocks as [|[text|cls] blocks]; reflexivity.
  - rewrite (Hexc e eq_refl). reflexivity.
Qed.

Lemma send_message_polite (self : FeishuBot) (chat text : string) (w : world) :
  polite w ->
  exists l,
    _send_message self chat text w
    = (Ok tt, with_log (log w ++ l)
                (with_sent (sent w ++ [text_request chat text]) w)).
Proof.
  intros [Hl _]. rewrite send_message_run. cbn zeta.
  exists (send_record chat (lark_service w (sent w) (text_request chat text))).
  f_equal. unfold send_result.
  destruct (lark_service w (sent w) _) as [code msg|e] eqn:E; [reflexivity|].
  rewrite (Hl _ _ _ E). reflexivity.
Qed.

Lemma process_agent_message_run (self : FeishuBot) (chat prompt : string)
    (w : world) :
  polite w ->
  let reply := reply_of (completion_service w (prompts w) prompt) in
  exists l,
    _process_agent_message self chat prompt w
    = (Ok tt,
       with_log (log w ++ l)
         (with_sent (sent w ++ turn_requests chat reply)
            (with_prompts (prompts w ++ [prompt])
               (with_store_calls (store_calls w ++ [CallGet chat]) w)))).
Proof.
  intros Hp. cbn zeta. unfold _process_agent_message.
  rewrite bind_run.
  destruct (send_message_polite self chat "Processing..." w Hp) as (l1 & ->).
  rewrite bind_run, get_session_id_run. wsimpl.
  unfold try_except. rewrite bind_run.
  rewrite query_stream_run by (intros e He; exact (proj2 Hp _ _ _ He)).
  wsimpl. cbn [fold_left _extract_text agent_client._extract_text
               agent_client.content].
  set (reply := reply_of (completion_service w (prompts w) prompt)).
  unfold turn_requests.
  destruct (PyStr.truthy reply) eqn:Et.
  - change (EmptyString +:+ reply) with reply. rewrite Et.
    match goal with
    | |- context [_send_message self chat reply ?w1] =>
        destruct (send_message_polite self chat reply w1) as (l2 & ->)
    end.
    { exact Hp. }
    wsimpl. exists (l1 ++ l2). rewrite <- !app_assoc. reflexivity.
  - cbn. exists l1. reflexivity.
Qed.



(** ** The handler of inbound events, case by case *)

Lemma string_eqb_eq (a b : string) : String.eqb a b = true -> a = b.
Proof. apply String.eqb_eq. Qed.

Lemma handle_actionable (self : FeishuBot) (data : P2ImMessageReceiveV1)
    (text : string) (w : world) :
  actionable w data = Some text ->
  handle_message_receive_v1 self data w
  = create_task
      (if PyStr.startswith "/" text
       then _handle_command self (chat_id data) text
       else _process_agent_message self (chat_id data) text)
      (with_log (log w ++ [received data]) w).
Proof.
  unfold actionable. intros H.
  destruct (_running w) eqn:Hrun; [|discriminate H].
  destruct (String.eqb (message_type data) "text") eqn:Htype; [|discriminate H].
  cbn [andb] in H.
  destruct (inbound_text (message_content data)) as [t|] eqn:Htext;
    [|discriminate H].
  destruct (PyStr.truthy t) eqn:Ht; [|discriminate H].
  inversion H; subst t.
  apply handle_dispatch; auto using string_eqb_eq.
Qed.

Local Ltac fin :=
  mrun; cbn; wsimpl; rewrite <- ?app_assoc, ?app_nil_r; reflexivity.

Lemma handle_dropped (self : FeishuBot) (data : P2ImMessageReceiveV1)
    (w : world) :
  actionable w data = None ->
  handle_message_receive_v1 self data w
  = (Ok tt, with_log (log w ++ dropped_record w data) w).
Proof.
  unfold actionable, dropped_record, inbound_text. intros H.
  unfold handle_message_receive_v1. rewrite bind_run. cbn [get_world].
  destruct (_running w) eqn:Hrun; cbn [negb andb] in *.
  2:{ cbn. rewrite app_nil_r. destruct w; cbn in *. subst. reflexivity. }
  rewrite bind_run. unfold logger at 1. cbn [modify]. unfold received.
  destruct (String.eqb (message_type data) "text") eqn:Htype; cbn [negb];
    [|fin].
  rewrite bind_run. unfold try_except at 1. unfold json_loads, text_of.
  rewrite !bind_run.
  destruct (Json.loads (message_content data)) as [v|].
  2:{ fin. }
  cbn [mret M_ret]. rewrite !bind_run.
  destruct v as [| | | | | | items]; try (fin).
  destruct (PyDictOps.get items "text") as [v|].
  2:{ cbn [mret M_ret]. cbn [PyStr.truthy] in H.
      change (PyStr.truthy (PyStr.strip EmptyString)) with false.
      fin. }
  destruct v; try (fin).
  cbn [mret M_ret].
  match type of H with
  | (if ?b then _ else _) = _ => destruct b eqn:Ht; [discriminate H|]
  end.
  fin.
Qed.

Lemma handle_ok (self : FeishuBot) (data : P2ImMessageReceiveV1) (w : world) :
  (handle_message_receive_v1 self data w).1 = Ok tt.
Proof.
  destruct (actionable w data) as [text|] eqn:E.
  - rewrite (handle_actionable self data text w E). apply create_task_ok.
  - rewrite (handle_dropped self data w E). reflexivity.
Qed.

Lemma handle_events_cons self data rest w :
  handle_events self (data :: rest) w
  = handle_events self rest (handle_message_receive_v1 self data w).2.
Proof.
  cbn [handle_events]. rewrite bind_run. pose proof (handle_ok self data w) as H.
  destruct (handle_message_receive_v1 self data w) as [[[]|e] w'];
    [reflexivity|discriminate H].
Qed.

(** X6.  The handler the bot registers for inbound messages never raises
    into the event dispatcher of the SDK, whatever the event and the
    state: content that is no JSON, JSON that is no object, a member
    [text] that is no string, a command or a turn of the agent that
    fails all end in a normal return, for one event and for any sequence
    of events. *)
Theorem handler_never_raises (self : FeishuBot) :
  (forall data w, (handle_message_receive_v1 self data w).1 = Ok tt)
  /\ (forall events w, (handle_events self events w).1 = Ok tt).
Proof.
  split; [apply handle_ok|].
  induction events as [|data rest IH]; intros w; [reflexivity|].
  rewrite handle_events_cons. apply IH.
Qed.

(** X7.  An event that brings no text (the bot does not run, the message
    is no text message, its content cannot be decoded, or the text is
    empty once stripped) is dropped: nothing is sent to the chat, no
    prompt reaches the model, the sessions and the file system are as
    before.  Only the log grows, by the record of the reception first,
    and by nothing at all when the bot does not run.  This is for the
    events within the reach of the decoder. *)
Theorem dropped_event_changes_only_the_log
    (self : FeishuBot) (data : P2ImMessageReceiveV1) (w : world) :
  tame_event data = true ->
  actionable w data = None ->
  exists l,
    handle_message_receive_v1 self data w = (Ok tt, with_log (log w ++ l) w)
    /\ (if _running w
        then exists l', l = received data :: l' /\ length l' <= 1
        else l = []).
Proof.
  intros _ H. exists (dropped_record w data).
  split; [apply handle_dropped; exact H|].
  unfold dropped_record. destruct (_running w); [|reflexivity].
  eexists. split; [reflexivity|].
  repeat case_match; cbn; lia.
Qed.

Lemma dropped_event_changes_only_the_log_witness :
  let w := world0 "./sessions.json" {[ "c1"%string := "s1"%string ]} fs1 in
  tame_event garbled_event = true
  /\ actionable w garbled_event = None
  /\ exists l,
       handle_message_receive_v1 bot0 garbled_event w
       = (Ok tt, with_log (log w ++ l) w)
       /\ (if _running w
           then exists l', l = received garbled_event :: l' /\ length l' <= 1
           else l = []).
Proof.
  cbn zeta.
  assert (Ht : tame_event garbled_event = true) by (vm_compute; reflexivity).
  assert (Ha : actionable
                 (world0 "./sessions.json" {[ "c1"%string := "s1"%string ]} fs1)
                 garbled_event = None) by (vm_compute; reflexivity).
  split; [exact Ht|]. split; [exact Ha|].
  exact (dropped_event_changes_only_the_log bot0 garbled_event _ Ht Ha).
Defined.


Lemma polite_world0 path sessions f : polite (world0 path sessions f).
Proof. split; intros ? ? e H; discriminate H. Qed.


(** ** What the handler keeps *)

Local Ltac frame :=
  repeat first
    [ keeps_step
    | apply keeps_create_task; [intros ? ?; reflexivity|]
    | progress unfold _handle_command, _process_agent_message, _send_message,
        get_session_id, config.get_agent_config, agent_client.query_stream ].

Lemma keeps_handle_running self data :
  keeps _running (handle_message_receive_v1 self data).
Proof. unfold handle_message_receive_v1. frame. Qed.

Lemma keeps_handle_lark self data :
  keeps lark_service (handle_message_receive_v1 self data).
Proof. unfold handle_message_receive_v1. frame. Qed.

Lemma keeps_handle_completion self data :
  keeps completion_service (handle_message_receive_v1 self data).
Proof. unfold handle_message_receive_v1. frame. Qed.

Lemma keeps_handle_cfg self data :
  keeps cfg (handle_message_receive_v1 self data).
Proof. unfold handle_message_receive_v1. frame. Qed.

Lemma keeps_process_session_manager self chat prompt :
  keeps session_manager (_process_agent_message self chat prompt).
Proof. frame. Qed.

Lemma keeps_process_fs self chat prompt :
  keeps fs (_process_agent_message self chat prompt).
Proof. frame. Qed.

(** A command that is neither [/reset] nor [/clear] leaves the session
    manager and the files alone. *)
Lemma keeps_other_command {X} (p : world -> X) self chat text :
  (forall l w, p (with_log l w) = p w) ->
  (forall l w, p (with_sent l w) = p w) ->
  (forall l w, p (with_store_calls l w) = p w) ->
  String.eqb text "/reset" || String.eqb text "/clear" = false ->
  keeps p (_handle_command self chat text).
Proof.
  intros Hl Hs Hc H. unfold _handle_command. rewrite H.
  repeat first
    [ apply keeps_modify; intros ?; first [apply Hl | apply Hs | apply Hc]
    | keeps_step
    | progress unfold _send_message, get_session_id, config.get_agent_config ].
Qed.

Lemma handle_clear (self : FeishuBot) (chat text : string) (w : world) :
  String.eqb text "/reset" || String.eqb text "/clear" = true ->
  _handle_command self chat text w
  = _send_message self chat "Session cleared." (clear_session chat w).2.
Proof.
  intros H. unfold _handle_command. rewrite H.
  rewrite bind_run. pose proof (clear_session_ok chat w) as Hok.
  destruct (clear_session chat w) as [[[]|e] w']; [reflexivity|discriminate Hok].
Qed.

Lemma clear_starts_with_slash text :
  String.eqb text "/reset" || String.eqb text "/clear" = true ->
  PyStr.startswith "/" text = true /\ PyStr.truthy text = true.
Proof.
  intros H. apply orb_true_iff in H.
  destruct H as [H|H]; apply String.eqb_eq in H; subst; split; reflexivity.
Qed.

Lemma clear_session_path chat w :
  _persistence_path (session_manager (clear_session chat w).2)
  = _persistence_path (session_manager w).
Proof.
  destruct (_sessions (session_manager w) !! chat) as [v|] eqn:E.
  - rewrite (clear_session_unfold chat w v E), keeps_save_session_manager.
    reflexivity.
  - rewrite (clear_session_absent chat w E). reflexivity.
Qed.

(** The sessions after one event. *)
Lemma handle_sessions (self : FeishuBot) (data : P2ImMessageReceiveV1)
    (w : world) :
  let w' := (handle_message_receive_v1 self data w).2 in
  _persistence_path (session_manager w') = _persistence_path (session_manager w)
  /\ _sessions (session_manager w')
     = if _running w && clears data
       then delete (chat_id data) (_sessions (session_manager w))
       else _sessions (session_manager w).
Proof.
  cbn zeta. destruct (actionable w data) as [text|] eqn:E.
  - rewrite (handle_actionable self data text w E).
    rewrite !(keeps_create_task_log session_manager) by reflexivity.
    unfold actionable in E. unfold clears.
    destruct (_running w); [|discriminate E].
    destruct (String.eqb (message_type data) "text"); [|discriminate E].
    cbn [andb] in *.
    destruct (inbound_text (message_content data)) as [t|]; [|discriminate E].
    destruct (PyStr.truthy t) eqn:Ht; [|discriminate E].
    inversion E; subst t.
    destruct (String.eqb text "/reset" || String.eqb text "/clear") eqn:Hc.
    + destruct (clear_starts_with_slash text Hc) as [-> _].
      rewrite (handle_clear self _ text _ Hc), keeps_send_session_manager.
      rewrite clear_session_path, clear_session_sessions. auto.
    + destruct (PyStr.startswith "/" text).
      * rewrite (keeps_other_command session_manager) by (auto; reflexivity).
        auto.
      * rewrite keeps_process_session_manager. auto.
  - rewrite (handle_dropped self data w E). wsimpl.
    split; [reflexivity|].
    unfold actionable in E. unfold clears.
    destruct (_running w); [|reflexivity].
    destruct (String.eqb (message_type data) "text"); [|reflexivity].
    cbn [andb] in *.
    destruct (inbound_text (message_content data)) as [t|]; [|reflexivity].
    destruct t; [reflexivity|discriminate E].
Qed.

(** X9.  Whatever events arrive, in whatever order, the sessions in
    memory only shrink: after a run of events the entry of a chat is gone
    when the bot runs and one of the events is a text message [/reset] or
    [/clear] from that chat, and is what it was before otherwise.  No
    event adds or changes an entry, and the path of the session file
    stays.  This is for the events within the reach of the decoder. *)
Theorem sessions_after_events
    (self : FeishuBot) (events : list P2ImMessageReceiveV1) (w : world)
    (chat : string) :
  forallb tame_event events = true ->
  let w' := (handle_events self events w).2 in
  _persistence_path (session_manager w') = _persistence_path (session_manager w)
  /\ _sessions (session_manager w') !! chat
     = if _running w
          && existsb (fun data => clears data && String.eqb (chat_id data) chat)
               events
       then None
       else _sessions (session_manager w) !! chat.
Proof.
  intros _. cbn zeta. revert w. induction events as [|data rest IH]; intros w.
  - cbn. rewrite andb_false_r. auto.
  - rewrite handle_events_cons.
    destruct (IH (handle_message_receive_v1 self data w).2) as [IHp IHs].
    destruct (handle_sessions self data w) as [Hp Hs]. cbn zeta in Hp, Hs.
    rewrite IHp, IHs, Hp, Hs, keeps_handle_running. split; [reflexivity|].
    cbn [existsb]. destruct (_running w); [|reflexivity]. cbn [andb].
    destruct (clears data); cbn [andb orb]; [|reflexivity].
    destruct (String.eqb (chat_id data) chat) eqn:Ec; cbn [orb].
    + apply String.eqb_eq in Ec. subst chat.
      rewrite lookup_delete_eq. destruct (existsb _ rest); reflexivity.
    + apply String.eqb_neq in Ec. rewrite lookup_delete_ne by exact Ec.
      reflexivity.
Qed.

Lemma sessions_after_events_witness :
  let events := [hello_event; garbled_event; reset_event; hello_event] in
  let w := world0 "./sessions.json"
             {[ "c1"%string := "s1"%string; "c2"%string := "s2"%string ]} fs1 in
  let w' := (handle_events bot0 events w).2 in
  forallb tame_event events = true
  /\ _sessions (session_manager w') !! "c1"%string = None
  /\ _sessions (session_manager w') !! "c2"%string = Some "s2"%string.
Proof.
  cbn zeta.
  assert (Ht : forallb tame_event
                 [hello_event; garbled_event; reset_event; hello_event] = true)
    by (vm_compute; reflexivity).
  split; [exact Ht|]. split.
  - exact (proj2 (sessions_after_events bot0 _
                    (world0 "./sessions.json"
                       {[ "c1"%string := "s1"%string;
                          "c2"%string := "s2"%string ]} fs1)
                    "c1" Ht)).
  - exact (proj2 (sessions_after_events bot0 _
                    (world0 "./sessions.json"
                       {[ "c1"%string := "s1"%string;
                          "c2"%string := "s2"%string ]} fs1)
                    "c2" Ht)).
Defined.

Lemma handle_events_stopped self events w :
  _running w = false -> handle_events self events w = (Ok tt, w).
Proof.
  intros H. induction events as [|data rest IH]; [reflexivity|].
  rewrite handle_events_cons, handle_dropped
    by (unfold actionable; rewrite H; reflexivity).
  unfold dropped_record. rewrite H, app_nil_r. cbn [snd].
  replace (with_log (log w) w) with w by (destruct w; reflexivity).
  exact IH.
Qed.

(** X10.  Once [stop] has run, every event is ignored: a run of events
    after it leaves the state exactly as [stop] left it, with the flag
    down and the record of the stop as the last of the log.  Nothing is
    sent, no prompt reaches the model and no session is touched. *)
Theorem stop_then_events_are_ignored
    (self : FeishuBot) (events : list P2ImMessageReceiveV1) (w : world) :
  (stop;; handle_events self events) w
  = (Ok tt, with_log (log w ++ [(INFO, "Feishu bot stopped."%string)])
              (with_running false w)).
Proof.
  rewrite bind_run. unfold stop. rewrite bind_run. cbn [modify].
  unfold logger. cbn [modify]. wsimpl.
  apply handle_events_stopped. reflexivity.
Qed.

(** ** The prompts of a run of events *)

Lemma polite_ext (w w' : world) :
  lark_service w' = lark_service w ->
  completion_service w' = completion_service w ->
  polite w -> polite w'.
Proof. unfold polite. intros -> ->. auto. Qed.

Lemma handle_prompts (self : FeishuBot) (data : P2ImMessageReceiveV1)
    (w : world) :
  polite w ->
  prompts (handle_message_receive_v1 self data w).2
  = prompts w ++ (if _running w then option_list (prompt_of data) else []).
Proof.
  intros Hp. destruct (actionable w data) as [text|] eqn:E.
  - rewrite (handle_actionable self data text w E).
    rewrite (keeps_create_task_log prompts) by reflexivity.
    unfold actionable in E. unfold prompt_of.
    destruct (_running w); [|discriminate E].
    destruct (String.eqb (message_type data) "text"); [|discriminate E].
    cbn [andb] in *.
    destruct (inbound_text (message_content data)) as [t|]; [|discriminate E].
    destruct (PyStr.truthy t) eqn:Ht; [|discriminate E].
    inversion E; subst t. cbn [andb].
    destruct (PyStr.startswith "/" text); cbn [negb option_list].
    + rewrite keeps_handle_command_prompts. wsimpl. rewrite app_nil_r.
      reflexivity.
    + destruct (process_agent_message_run self (chat_id data) text
                  (with_log (log w ++ [received data]) w) Hp) as (l & ->).
      reflexivity.
  - rewrite (handle_dropped self data w E). wsimpl.
    unfold actionable in E. unfold prompt_of.
    destruct (_running w); [|rewrite app_nil_r; reflexivity].
    destruct (String.eqb (message_type data) "text");
      [|rewrite app_nil_r; reflexivity].
    cbn [andb] in *.
    destruct (inbound_text (message_content data)) as [t|];
      [|rewrite app_nil_r; reflexivity].
    destruct t; [|discriminate E]. rewrite app_nil_r. reflexivity.
Qed.

(** X11.  Over any run of events, with services that fail with instances
    of [Exception] only, the prompts the completion API receives are
    exactly the texts of the text messages that are not empty and start
    with no slash, each once and in the order of arrival.  Commands,
    other kinds of message and undecodable content never reach the
    model, and a bot that does not run sends it nothing.  This is for the
    events within the reach of the decoder. *)
Theorem prompts_after_events
    (self : FeishuBot) (events : list P2ImMessageReceiveV1) (w : world) :
  forallb tame_event events = true ->
  polite w ->
  prompts (handle_events self events w).2
  = prompts w ++ (if _running w then omap prompt_of events else []).
Proof.
  intros _. revert w. induction events as [|data rest IH]; intros w Hp.
  - cbn. destruct (_running w); rewrite app_nil_r; reflexivity.
  - rewrite handle_events_cons, IH, handle_prompts, keeps_handle_running
      by first [ exact Hp
               | apply (polite_ext w);
                 [apply keeps_handle_lark|apply keeps_handle_completion|exact Hp] ].
    destruct (_running w); [|rewrite !app_nil_r; reflexivity].
    rewrite <- app_assoc. f_equal.
    change (omap prompt_of (data :: rest))
      with (match prompt_of data with
            | Some text => text :: omap prompt_of rest
            | None => omap prompt_of rest
            end).
    destruct (prompt_of data); reflexivity.
Qed.

Lemma prompts_after_events_witness :
  let events := [hello_event; reset_event; garbled_event; unknown_event;
                 hello_event] in
  forallb tame_event events = true
  /\ prompts (handle_events bot0 events
                (world0 "./sessions.json" {[ "c1"%string := "s1"%string ]} fs1)).2
     = ["hello"%string; "hello"%string].
Proof.
  cbn zeta.
  assert (Ht : forallb tame_event
                 [hello_event; reset_event; garbled_event; unknown_event;
                  hello_event] = true) by (vm_compute; reflexivity).
  split; [exact Ht|].
  rewrite (prompts_after_events bot0 _ _ Ht (polite_world0 _ _ _)).
  vm_compute. reflexivity.
Defined.

(** ** What a turn of the agent can raise and send *)









Section Appends.
Context {X : Type} (p : world -> list X) (P : X -> Prop).

Lemma appends_keeps {A} (c : M A) : keeps p c -> appends p P c.
Proof. intros H w. exists []. rewrite H, app_nil_r. auto. Qed.

Lemma appends_bind {A B} (c : M A) (f : A -> M B) :
  appends p P c -> (forall a, appends p P (f a)) -> appends p P (c ≫= f).
Proof.
  intros Hc Hf w. rewrite bind_run. destruct (Hc w) as (l & El & Hl).
  destruct (c w) as [[a|e] w']; cbn in *.
  - destruct (Hf a w') as (l' & El' & Hl'). exists (l ++ l').
    rewrite El', El, app_assoc. split; [reflexivity|].
    apply Forall_app; auto.
  - eauto.
Qed.

End Appends.




(** ** The command [/status] *)

(** X13.  The command [/status] only reads.  With an API key configured
    it sends one message, the model in use (the GLM model when the GLM
    key is set, the Claude model otherwise) and [Session: Active] when
    the chat has a session identifier that is not the empty string,
    [Session: None] otherwise; the sessions, the file system and the
    prompts are as before.  With no key configured the command raises the
    [ValueError] of [get_agent_config] and sends nothing at all. *)
Theorem status_command_reply (self : FeishuBot) (chat : string) (w : world) :
  let r := (_handle_command self chat "/status" w).1 in
  let w' := (_handle_command self chat "/status" w).2 in
  let model := if config.is_set (GLM_API_KEY (cfg w))
               then GLM_MODEL (cfg w) else CLAUDE_MODEL (cfg w) in
  let session := match _sessions (session_manager w) !! chat with
                 | Some (String _ _) => "Active"%string
                 | _ => "None"%string
                 end in
  session_manager w' = session_manager w /\ fs w' = fs w
  /\ prompts w' = prompts w
  /\ if key_ready (cfg w)
     then sent w'
          = sent w ++ [text_request chat ("Model: " +:+ model +:+ NL
                                          +:+ "Session: " +:+ session)]
     else sent w' = sent w
          /\ exists msg, r = Raise {| exc_cls := ValueError; exc_str := msg |}.
Proof.
  cbn zeta.
  split; [apply (keeps_other_command session_manager); auto|].
  split; [apply (keeps_other_command fs); auto|].
  split; [apply keeps_handle_command_prompts|].
  unfold _handle_command. cbn [String.eqb Ascii.eqb Bool.eqb orb].
  rewrite bind_run, get_session_id_run, bind_run.
  destruct (key_ready (cfg w)) eqn:Hk.
  - destruct (get_agent_config_run
                (with_store_calls (store_calls w ++ [CallGet chat]) w) Hk)
      as (ac & -> & _ & Hm).
    wsimpl in Hm. rewrite send_message_sent. wsimpl.
    destruct (config.is_set (GLM_API_KEY (cfg w)));
      destruct Hm as (-> & _); reflexivity.
  - destruct (get_agent_config_no_key
                (with_store_calls (store_calls w ++ [CallGet chat]) w) Hk)
      as (msg & ->).
    split; [reflexivity|]. exists msg. reflexivity.
Qed.

(** ** A reset with nothing to forget *)




(** ** Where the replies go *)

Lemma appends_try_except {A X} (p : world -> list X) (P : X -> Prop)
    (body : M A) (handler : exception -> M A) :
  appends p P body -> (forall e, appends p P (handler e)) ->
  appends p P (try_except body handler).
Proof.
  intros Hb Hh w. unfold try_except. destruct (Hb w) as (l & El & Hl).
  destruct (body w) as [[a|e] w']; cbn in *; [eauto|].
  destruct (is_Exception (exc_cls e)); [|eauto].
  destruct (Hh e w') as (l' & El' & Hl'). exists (l ++ l').
  rewrite El', El, app_assoc. split; [reflexivity|].
  apply Forall_app; auto.
Qed.

Lemma appends_create_task {X} (p : world -> list X) (P : X -> Prop)
    (coro : M unit) :
  (forall w l, p (with_log l w) = p w) ->
  appends p P coro -> appends p P (create_task coro).
Proof.
  intros Hlog Hc w. rewrite (keeps_create_task_log p coro Hlog). apply Hc.
Qed.

Lemma appends_send_sent self chat text :
  appends sent (addressed_to chat) (_send_message self chat text).
Proof.
  intros w. exists [text_request chat text].
  split; [apply send_message_sent|]. repeat constructor.
Qed.

Local Ltac sends :=
  repeat first
    [ apply appends_send_sent
    | apply appends_bind; [|intros ?]
    | apply appends_try_except; [|intros ?]
    | apply appends_create_task; [intros ? ?; reflexivity|]
    | apply appends_keeps; solve [frame]
    | match goal with
      | |- appends _ _ (match ?x with _ => _ end) => destruct x
      | |- appends _ _ (let _ := _ in _) => cbn zeta
      end ].

Lemma appends_handle_sent self data :
  appends sent (addressed_to (chat_id data))
    (handle_message_receive_v1 self data).
Proof.
  unfold handle_message_receive_v1, _handle_command, _process_agent_message.
  sends.
Qed.

(** X15.  No reply goes astray.  Whatever an event holds and whatever
    the services answer, every request the handler hands to the Lark
    client while it handles the event is a text message addressed, by
    chat id, to the chat the event came from; and over a run of events
    every request sent is addressed to the chat of one of the events. *)
Theorem replies_go_to_the_asking_chat (self : FeishuBot) :
  (forall data w, exists l,
     sent (handle_message_receive_v1 self data w).2 = sent w ++ l
     /\ Forall (addressed_to (chat_id data)) l)
  /\ (forall events w, exists l,
        sent (handle_events self events w).2 = sent w ++ l
        /\ Forall (fun request =>
                     exists data, data ∈ events
                                  /\ addressed_to (chat_id data) request) l).
Proof.
  split; [intros data w; apply appends_handle_sent|].
  induction events as [|data rest IH]; intros w.
  - exists []. rewrite app_nil_r. split; [reflexivity|constructor].
  - rewrite handle_events_cons.
    destruct (appends_handle_sent self data w) as (l1 & E1 & H1).
    destruct (IH (handle_message_receive_v1 self data w).2) as (l2 & E2 & H2).
    exists (l1 ++ l2). rewrite E2, E1, app_assoc. split; [reflexivity|].
    apply Forall_app. split.
    + eapply Forall_impl; [exact H1|]. intros r Hr. exists data.
      split; [set_solver|exact Hr].
    + eapply Forall_impl; [exact H2|]. intros r (d & Hd & Hr). exists d.
      split; [set_solver|exact Hr].
Qed.



(** ** The session file across a restart *)

Section Restart.
Variable py_repr : pyval -> string.

Lemma save_then_load (w : world) :
  flush_outcome w = Ok tt ->
  load_from_file py_repr (restarted (save_to_file w).2)
  = (Ok tt,
     with_log (log w ++ [load_info (_sessions (session_manager w))])
       (with_session_manager (session_manager w)
          (with_store_calls (store_calls w ++ [CallSave; CallLoad])
             (save_to_file w).2))).
Proof.
  intros Hflush. unfold restarted.
  rewrite keeps_save_session_manager.
  pose proof (save_to_file_log w) as Hlog. rewrite Hflush in Hlog.
  assert (Hcalls : store_calls (save_to_file w).2 = store_calls w ++ [CallSave]).
  { unfold save_to_file. rewrite bind_run. cbn [called modify].
    rewrite (keeps_try_except store_calls); [reflexivity| |].
    - apply keeps_save_body. reflexivity.
    - intros e. keeps_auto. }
  revert Hlog Hcalls. rewrite save_to_file_run. cbn zeta.
  unfold flush_outcome in Hflush.
  destruct (save_to_file_body _) as [[[]|e] w1] eqn:E; [|discriminate Hflush].
  cbn [fst snd]. intros Hlog Hcalls.
  apply save_body_ok in E as [Hnode Hden]. cbn in Hnode, Hden.
  destruct (loads_dumps py_repr (_sessions (session_manager w)))
    as (items & Hjson & Hdict).
  rewrite (load_from_file_object py_repr
             (with_session_manager
                (__init__ (_persistence_path (session_manager w))) w1)
             _ items Hnode Hden Hjson).
  wsimpl. rewrite Hdict, Hlog, Hcalls, <- app_assoc.
  destruct (session_manager w). reflexivity.
Qed.

(** X16.  A reset survives a restart.  When [clear_session] removes the
    entry of a chat and the flush goes through, a new manager on the same
    path loads without error exactly the mapping without that entry: the
    chat has no session any more, and every other chat has the session
    it had. *)
Theorem clear_then_restart (chat session : string) (w : world) :
  _sessions (session_manager w) !! chat = Some session ->
  flush_outcome (mem_clear chat w) = Ok tt ->
  let w1 := (load_from_file py_repr (restarted (clear_session chat w).2)).2 in
  (load_from_file py_repr (restarted (clear_session chat w).2)).1 = Ok tt
  /\ _sessions (session_manager w1) = delete chat (_sessions (session_manager w))
  /\ _sessions (session_manager w1) !! chat = None
  /\ (forall other, other <> chat ->
        _sessions (session_manager w1) !! other
        = _sessions (session_manager w) !! other).
Proof.
  intros Hin Hflush. cbn zeta.
  rewrite (clear_session_unfold chat w session Hin).
  rewrite (save_then_load _ Hflush). wsimpl.
  split; [reflexivity|]. split; [reflexivity|].
  split; [apply lookup_delete_eq|].
  intros other Hne. apply lookup_delete_ne. congruence.
Qed.

End Restart.

Lemma clear_then_restart_witness :
  let w := world0 "./sessions.json"
             {[ "c1"%string := "s1"%string; "c2"%string := "s2"%string ]} fs0 in
  let w1 := (load_from_file (fun _ => EmptyString)
               (restarted (clear_session "c1" w).2)).2 in
  (load_from_file (fun _ => EmptyString)
     (restarted (clear_session "c1" w).2)).1 = Ok tt
  /\ _sessions (session_manager w1)
     = delete "c1"%string (_sessions (session_manager w))
  /\ _sessions (session_manager w1) !! "c1"%string = None
  /\ (forall other, other <> "c1"%string ->
        _sessions (session_manager w1) !! other
        = _sessions (session_manager w) !! other).
Proof.
  apply (clear_then_restart (fun _ => EmptyString) "c1" "s1");
    vm_compute; reflexivity.
Defined.

(** ** The text of the session file *)

Lemma ascii_text_app (s t : string) :
  ascii_text (s +:+ t) = ascii_text s && ascii_text t.
Proof.
  induction s as [|c s IH]; [reflexivity|].
  rewrite str_app_cons. cbn [ascii_text]. rewrite IH, andb_assoc. reflexivity.
Qed.

Lemma ascii_text_encode_char (c : ascii) :
  ascii_text (Json.encode_char c) = true.
Proof. case_char c; reflexivity. Qed.

Lemma ascii_text_encode_chars (s : string) :
  ascii_text (Json.encode_chars s) = true.
Proof.
  induction s as [|c s IH]; [reflexivity|].
  cbn [Json.encode_chars]. rewrite ascii_text_app, ascii_text_encode_char, IH.
  reflexivity.
Qed.

Lemma ascii_text_encode_member (kv : string * string) :
  ascii_text (Json.encode_member kv) = true.
Proof.
  unfold Json.encode_member, Json.encode_basestring_ascii.
  rewrite !ascii_text_app. cbn [ascii_text].
  rewrite !ascii_text_app, !ascii_text_encode_chars. reflexivity.
Qed.

Lemma ascii_text_encode_members (items : list (string * string)) :
  ascii_text (Json.encode_members items) = true.
Proof.
  induction items as [|kv items IH]; [reflexivity|].
  destruct items as [|kv' items].
  - cbn [Json.encode_members].
    rewrite ascii_text_app, ascii_text_encode_member. reflexivity.
  - change (Json.encode_members (kv :: kv' :: items))
      with (Json.encode_member kv +:+ "," +:+ Json.string_of_char Json.LF
            +:+ Json.encode_members (kv' :: items)).
    rewrite !ascii_text_app, ascii_text_encode_member, IH. reflexivity.
Qed.

Lemma ascii_text_dumps (d : gmap string string) :
  ascii_text (Json.dumps d) = true.
Proof.
  unfold Json.dumps, Json.dumps_items.
  destruct (map_to_list d) as [|kv items]; [reflexivity|].
  rewrite !ascii_text_app, ascii_text_encode_members. reflexivity.
Qed.

(** X18.  The session file is plain text.  After a flush that goes
    through, the file at the persistence path holds printable ASCII
    characters and line feeds only, whatever characters the identifiers
    of the chats and of the sessions are made of (quotes, backslashes,
    control characters, characters above U+007F), and that text is a JSON
    object with one member for each entry of the mapping. *)
Theorem session_file_is_ascii_json (w : world) :
  flush_outcome w = Ok tt ->
  exists text,
    nodes (fs (save_to_file w).2) !! _persistence_path (session_manager w)
    = Some (File text)
    /\ ascii_text text = true
    /\ Json.loads text
       = Some (PyDict (map as_pyval (map_to_list (_sessions (session_manager w))))).
Proof.
  intros Hflush. exists (Json.dumps (_sessions (session_manager w))).
  split; [|split].
  - rewrite save_to_file_run. cbn zeta. unfold flush_outcome in Hflush.
    destruct (save_to_file_body _) as [[[]|e] w1] eqn:E; [|discriminate Hflush].
    apply save_body_ok in E as [Hnode _]. exact Hnode.
  - apply ascii_text_dumps.
  - unfold Json.dumps. rewrite loads_dumps_items.
    rewrite of_pairs_NoDup; [reflexivity|].
    rewrite <- list_fmap_compose. apply (NoDup_fst_map_to_list _).
Qed.

Lemma session_file_is_ascii_json_witness :
  let w := world0 "./sessions.json"
             {[ tricky_text := String (ascii_of_N 200) "s" ]} fs0 in
  exists text,
    nodes (fs (save_to_file w).2) !! "./sessions.json"%string = Some (File text)
    /\ ascii_text text = true
    /\ Json.loads text
       = Some (PyDict (map as_pyval (map_to_list (_sessions (session_manager w))))).
Proof.
  apply (session_file_is_ascii_json
           (world0 "./sessions.json"
              {[ tricky_text := String (ascii_of_N 200) "s" ]} fs0)).
  vm_compute. reflexivity.
Defined.

(** ** Memory and file stay in step *)

Lemma save_body_writable (w : world) :
  writable w ->
  save_to_file_body w
  = (Ok tt,
     with_fs
       {| nodes := <[_persistence_path (session_manager w)
                     := File (Json.dumps (_sessions (session_manager w)))]>
                     (<[_persistence_path (session_manager w)
                        := File EmptyString]> (nodes (fs w)));
          denied := denied (fs w); no_space := no_space (fs w) |} w).
Proof.
  intros (_ & _ & Hroom & Ht & Hdir & Hden & Hnotdir).
  unfold save_to_file_body, Os.makedirs, Os.open_w, Os.write. mrun.
  unfold isdir in Hdir, Hnotdir. rewrite Ht.
  destruct (nodes (fs w) !! OsPath.dirname (_persistence_path (session_manager w)))
    as [[|?]|] eqn:Ed; try discriminate Hdir.
  cbn.
  destruct (nodes (fs w) !! _persistence_path (session_manager w))
    as [[|?]|] eqn:Ep; try discriminate Hnotdir;
    rewrite bool_decide_eq_false_2 by exact Hden;
    unfold isdir; wsimpl; rewrite Ed; cbn; rewrite Hroom; reflexivity.
Qed.

Lemma synced_of_dumps (py_repr : pyval -> string) (w : world) :
  nodes (fs w) !! _persistence_path (session_manager w)
  = Some (File (Json.dumps (_sessions (session_manager w)))) ->
  synced py_repr w.
Proof.
  intros H.
  destruct (loads_dumps py_repr (_sessions (session_manager w)))
    as (items & Hjson & Hdict).
  exists (Json.dumps (_sessions (session_manager w))), items. auto.
Qed.

Lemma save_to_file_writable (py_repr : pyval -> string) (w : world) :
  writable w ->
  let w' := (save_to_file w).2 in
  (save_to_file w).1 = Ok tt
  /\ writable w' /\ synced py_repr w'
  /\ session_manager w' = session_manager w /\ log w' = log w.
Proof.
  intros Hw. cbn zeta. rewrite save_to_file_run. cbn zeta.
  rewrite save_body_writable by exact Hw. wsimpl.
  destruct Hw as (Htidy & Hcan & Hroom & Ht & Hdir & Hden & Hnotdir).
  assert (Hne : OsPath.dirname (_persistence_path (session_manager w))
                <> _persistence_path (session_manager w)).
  { intros E. rewrite E in Hdir. congruence. }
  split; [reflexivity|]. split; [|split; [|split; reflexivity]].
  - unfold writable, tidy, isdir in *. wsimpl.
    rewrite insert_insert_eq.
    rewrite lookup_insert_ne by (intros E; apply Hne; symmetry; exact E).
    rewrite lookup_insert_eq.
    split; [|auto 6].
    apply map_Forall_insert_2; [|exact Htidy].
    rewrite Hcan. apply orb_true_r.
  - apply synced_of_dumps. wsimpl. apply lookup_insert_eq.
Qed.

Lemma writable_ext (w w' : world) :
  fs w' = fs w ->
  _persistence_path (session_manager w')
  = _persistence_path (session_manager w) ->
  writable w -> writable w'.
Proof. unfold writable. intros -> ->. auto. Qed.

Lemma run_op_writable (py_repr : pyval -> string) (op : store_op)
    (w : world) :
  writable w -> synced py_repr w ->
  let w' := (run_op op w).2 in
  (run_op op w).1 = Ok tt /\ writable w' /\ synced py_repr w'
  /\ log w' = log w.
Proof.
  intros Hw Hs. cbn zeta. destruct op as [chat session|chat]; cbn [run_op].
  - rewrite set_session_id_unfold.
    destruct (save_to_file_writable py_repr (mem_set chat session w))
      as (Hok & Hw' & Hs' & Hsm & Hlog);
      [apply (writable_ext w); [reflexivity|reflexivity|exact Hw]|].
    cbn zeta in *. rewrite Hlog. auto.
  - destruct (_sessions (session_manager w) !! chat) as [v|] eqn:E.
    + rewrite (clear_session_unfold chat w v E).
      destruct (save_to_file_writable py_repr (mem_clear chat w))
        as (Hok & Hw' & Hs' & Hsm & Hlog);
        [apply (writable_ext w); [reflexivity|reflexivity|exact Hw]|].
      cbn zeta in *. rewrite Hlog. auto.
    + rewrite (clear_session_absent chat w E). wsimpl. auto.
Qed.

Lemma run_ops_cons op rest w :
  (run_op op w).1 = Ok tt ->
  run_ops (op :: rest) w = run_ops rest (run_op op w).2.
Proof.
  intros H. cbn [run_ops]. rewrite bind_run.
  destruct (run_op op w) as [[[]|e] w']; [reflexivity|discriminate H].
Qed.

(** X19.  While nothing stands in the way of a flush, the memory and the
    file stay in step.  On a writable path [set_session_id] leaves in the
    file a JSON object that reads back as the mapping in memory, and from
    then on any run of [set_session_id] and [clear_session], in any
    order, returns normally, logs nothing, keeps the path writable and
    leaves such a file again, including after a [clear_session] of a chat
    with no session, which writes nothing.  A new manager on the same
    path then loads exactly the mapping in memory. *)
Theorem store_and_file_stay_in_sync
    (py_repr : pyval -> string) (chat session : string)
    (ops : list store_op) (w : world) :
  writable w ->
  let w1 := (set_session_id chat session w).2 in
  let w2 := (run_ops ops w1).2 in
  synced py_repr w1
  /\ (run_ops ops w1).1 = Ok tt
  /\ synced py_repr w2 /\ writable w2 /\ log w2 = log w
  /\ _sessions (session_manager (load_from_file py_repr (restarted w2)).2)
     = _sessions (session_manager w2).
Proof.
  intros Hw. cbn zeta.
  assert (Hload : forall w2, synced py_repr w2 -> writable w2 ->
    _sessions (session_manager (load_from_file py_repr (restarted w2)).2)
    = _sessions (session_manager w2)).
  { intros w2 (text & items & Hnode & Hjson & Hdict)
           (_ & _ & _ & _ & _ & Hden & _).
    rewrite (load_from_file_object py_repr (restarted w2) _ items Hnode Hden Hjson).
    wsimpl. exact Hdict. }
  assert (H1 : writable (set_session_id chat session w).2
               /\ synced py_repr (set_session_id chat session w).2
               /\ log (set_session_id chat session w).2 = log w).
  { rewrite set_session_id_unfold.
    destruct (save_to_file_writable py_repr (mem_set chat session w))
      as (_ & Hw' & Hs' & _ & Hlog);
      [apply (writable_ext w); [reflexivity|reflexivity|exact Hw]|].
    auto. }
  destruct H1 as (Hw1 & Hs1 & Hl1).
  split; [exact Hs1|]. rewrite <- Hl1.
  generalize dependent (set_session_id chat session w).2.
  intros w1 Hw1 Hs1 _. revert w1 Hw1 Hs1.
  induction ops as [|op rest IH]; intros w1 Hw1 Hs1; [cbn; auto 6|].
  destruct (run_op_writable py_repr op w1 Hw1 Hs1) as (Hok & Hw2 & Hs2 & Hl2).
  rewrite (run_ops_cons op rest w1 Hok), <- Hl2. apply IH; assumption.
Qed.

Lemma tidy_fs0 : tidy fs0.
Proof.
  intros path node H. unfold fs0 in H. cbn [nodes] in H.
  apply lookup_singleton_Some in H as [<- _]. reflexivity.
Qed.

Lemma writable_world0 sessions : writable (world0 "./sessions.json" sessions fs0).
Proof.
  split; [exact tidy_fs0|].
  repeat split; try (vm_compute; reflexivity). apply not_elem_of_empty.
Qed.

Lemma store_and_file_stay_in_sync_witness :
  let py_repr := fun _ : pyval => EmptyString in
  let w := world0 "./sessions.json" ∅ fs0 in
  let w2 := (run_ops [OpSet "c2" "s2"; OpClear "c1"; OpClear "c3"; OpSet "c2" "s3"]
               (set_session_id "c1" "s1" w).2).2 in
  synced py_repr w2 /\ writable w2 /\ log w2 = []
  /\ _sessions (session_manager (load_from_file py_repr (restarted w2)).2)
     = _sessions (session_manager w2).
Proof.
  destruct (store_and_file_stay_in_sync (fun _ => EmptyString) "c1" "s1"
              [OpSet "c2" "s2"; OpClear "c1"; OpClear "c3"; OpSet "c2" "s3"]
              (world0 "./sessions.json" ∅ fs0) (writable_world0 ∅))
    as (_ & _ & H).
  exact H.
Defined.

(** ** The first flush *)

(** X20.  The first flush makes the directory.  When the directory of
    the persistence path does not exist yet and may be made,
    [save_to_file] makes it, writes the file and logs nothing; from then
    on the path is writable and the file reads back as the mapping in
    memory.  So [set_session_id] on a first run returns normally with
    the entry in memory and on disk. *)
Theorem first_flush_makes_the_directory
    (py_repr : pyval -> string) (chat session : string) (w : world) :
  first_run w ->
  let w' := (set_session_id chat session w).2 in
  (set_session_id chat session w).1 = Ok tt
  /\ isdir (fs w')
       (OsPath.dirname (_persistence_path (session_manager w))) = true
  /\ _sessions (session_manager w')
     = <[chat := session]> (_sessions (session_manager w))
  /\ log w' = log w
  /\ writable w' /\ synced py_repr w'.
Proof.
  intros (Htidy & Hcan & Hcanp & Ht & Hne & _ & Hnodir & Hdend & Hnofile
          & Hden & Hroom).
  cbn zeta.
  rewrite set_session_id_unfold, save_to_file_run. cbn zeta.
  assert (Hbody :
    save_to_file_body
      (with_store_calls
         (store_calls (mem_set chat session w) ++ [CallSave])
         (mem_set chat session w))
    = (Ok tt,
       with_fs
         {| nodes :=
              <[_persistence_path (session_manager w)
                := File (Json.dumps
                           (<[chat := session]> (_sessions (session_manager w))))]>
                (<[_persistence_path (session_manager w) := File EmptyString]>
                   (<[OsPath.dirname (_persistence_path (session_manager w))
                      := Dir]> (nodes (fs w))));
            denied := denied (fs w); no_space := no_space (fs w) |}
         (with_store_calls
            (store_calls (mem_set chat session w) ++ [CallSave])
            (mem_set chat session w)))).
  { unfold save_to_file_body, Os.makedirs, Os.open_w, Os.write. mrun.
    unfold mem_set. wsimpl. rewrite Ht, Hnodir.
    rewrite bool_decide_eq_false_2 by exact Hdend. wsimpl.
    rewrite lookup_insert_ne by exact Hne. rewrite Hnofile.
    rewrite bool_decide_eq_false_2 by exact Hden.
    unfold isdir. wsimpl. rewrite lookup_insert_eq. cbn [andb negb].
    wsimpl. rewrite Hroom. reflexivity. }
  rewrite Hbody. cbn [fst snd].
  split; [reflexivity|].
  assert (Hdir' : forall X (a b : X),
    match (<[_persistence_path (session_manager w)
             := File (Json.dumps
                        (<[chat := session]> (_sessions (session_manager w))))]>
             (<[_persistence_path (session_manager w) := File EmptyString]>
                (<[OsPath.dirname (_persistence_path (session_manager w))
                   := Dir]> (nodes (fs w)))))
          !! OsPath.dirname (_persistence_path (session_manager w))
    with Some Dir => a | _ => b end = a).
  { intros X a b. rewrite insert_insert_eq.
    rewrite lookup_insert_ne by (intros E; apply Hne; symmetry; exact E).
    rewrite lookup_insert_eq. reflexivity. }
  split; [unfold isdir, mem_set; wsimpl; apply Hdir'|].
  split; [reflexivity|]. split; [reflexivity|]. split.
  - unfold writable, tidy, isdir, mem_set. wsimpl. rewrite Hdir'.
    rewrite lookup_insert_eq. split; [|auto 7].
    rewrite insert_insert_eq.
    apply map_Forall_insert_2; [rewrite Hcan; apply orb_true_r|].
    apply map_Forall_insert_2; [rewrite Hcanp; apply orb_true_r|].
    exact Htidy.
  - apply synced_of_dumps. unfold mem_set. wsimpl. apply lookup_insert_eq.
Qed.

Lemma first_flush_makes_the_directory_witness :
  let py_repr := fun _ : pyval => EmptyString in
  let w := world0 "./data/sessions.json" ∅ fs0 in
  let w' := (set_session_id "c1" "s1" w).2 in
  nodes (fs w) !! "./data"%string = None
  /\ (set_session_id "c1" "s1" w).1 = Ok tt
  /\ isdir (fs w') "./data" = true
  /\ _sessions (session_manager w') = {[ "c1"%string := "s1"%string ]}
  /\ log w' = []
  /\ writable w' /\ synced py_repr w'.
Proof.
  cbn zeta. split; [vm_compute; reflexivity|].
  assert (H : first_run (world0 "./data/sessions.json" ∅ fs0)).
  { split; [exact tidy_fs0|].
    repeat split; try (vm_compute; reflexivity);
      first [discriminate | apply not_elem_of_empty]. }
  exact (first_flush_makes_the_directory (fun _ => EmptyString) "c1" "s1" _ H).
Defined.



(** ** The payload of a message, for every text *)

Lemma scanstring_control (text rest : string) :
  plain_text text = false ->
  Json.scanstring (_escape_lark_text text +:+ String Json.DQUOTE rest) = None.
Proof.
  induction text as [|c text IH]; intros Hp; [discriminate Hp|].
  simpl in Hp. rewrite escape_cons, str_app_assoc.
  remember (_escape_lark_text text +:+ String Json.DQUOTE rest) as tail.
  case_char c; unfold escape_one; simpl in Hp |- *;
    rewrite ?str_app_cons, ?str_app_nil_l; simpl;
    first [reflexivity | rewrite (IH Hp); reflexivity].
Qed.

Lemma loads_of_scan_error (n : nat) (s : string) :
  Json.scan_once n (Json.skip_ws s) = Json.DecodeError ->
  n <= S (2 * String.length s) ->
  Json.loads s = None.
Proof.
  intros H Hle. unfold Json.loads, Json.decode.
  destruct (fuel_mono n (S (2 * String.length s)) (Json.skip_ws s) Hle)
    as [Hs _].
  rewrite Hs, H; [reflexivity|]. rewrite H. discriminate.
Qed.

(** X21.  The payload [_send_message] builds is a JSON text exactly when
    the text holds no control character other than line feed and carriage
    return.  For such a text it decodes to the object with the one member
    [text] holding the text; for any other text (one with a tab, a form
    feed, an escape character, ...) the control character goes into the
    payload as it is and the payload is no JSON text at all. *)
Theorem lark_payload_is_json_iff_plain (text : string) :
  Json.loads (text_payload (_escape_lark_text text))
  = if plain_text text then Some (PyDict [("text"%string, PyStr text)])
    else None.
Proof.
  destruct (plain_text text) eqn:Hp; [apply loads_text_payload; exact Hp|].
  apply (loads_of_scan_error 3).
  - unfold text_payload, DQ, Json.string_of_char.
    rewrite !str_app_cons, !str_app_nil_l.
    pose proof (scanstring_control text "}" Hp) as Hs.
    remember (_escape_lark_text text +:+ String Json.DQUOTE "}") as tail.
    simpl. rewrite Hs. reflexivity.
  - unfold text_payload, DQ, Json.string_of_char.
    rewrite !str_app_cons, !str_app_nil_l. simpl. lia.
Qed.

(** ** The escaping loses nothing *)

Lemma unescape_escape (text : string) :
  unescape_lark (_escape_lark_text text) = text.
Proof.
  induction text as [|c text IH]; [reflexivity|].
  rewrite escape_cons.
  remember (_escape_lark_text text) as tail.
  case_char c; unfold escape_one; simpl;
    rewrite ?str_app_cons, ?str_app_nil_l; simpl; rewrite IH; reflexivity.
Qed.

Lemma str_app_inv_head (p a b : string) : p +:+ a = p +:+ b -> a = b.
Proof.
  induction p as [|c p IH]; [rewrite !str_app_nil_l; auto|].
  rewrite !str_app_cons. intros H. inversion H. auto.
Qed.

Lemma str_app_inv_tail (s a b : string) : a +:+ s = b +:+ s -> a = b.
Proof.
  revert b. induction a as [|c a IH]; intros [|d b] H.
  - reflexivity.
  - apply (f_equal String.length) in H.
    rewrite str_app_nil_l, str_length_app in H. cbn in H. lia.
  - apply (f_equal String.length) in H.
    rewrite str_app_nil_l, str_length_app in H. cbn in H. lia.
  - rewrite !str_app_cons in H. inversion H. f_equal. auto.
Qed.

(** X22.  The escaping of [_escape_lark_text] loses nothing, although
    its four replacements run one after the other over the whole text:
    the text can be read back from the escaped text, so two different
    texts never have the same escaped text, and never the same payload. *)
Theorem escape_lark_text_is_injective :
  (forall text, unescape_lark (_escape_lark_text text) = text)
  /\ (forall a b, _escape_lark_text a = _escape_lark_text b -> a = b)
  /\ (forall chat a b, text_request chat a = text_request chat b -> a = b).
Proof.
  assert (Hinj : forall a b, _escape_lark_text a = _escape_lark_text b -> a = b).
  { intros a b H. rewrite <- (unescape_escape a), <- (unescape_escape b), H.
    reflexivity. }
  split; [exact unescape_escape|]. split; [exact Hinj|].
  intros chat a b H. apply Hinj.
  unfold text_request in H. inversion H as [Hc].
  unfold text_payload in Hc.
  repeat apply str_app_inv_head in Hc.
  apply str_app_inv_tail in Hc. exact Hc.
Qed.

(** ** The prompts are trimmed *)

Lemma lstrip_head (s : string) :
  match PyStr.lstrip s with
  | EmptyString => True
  | String c _ => PyStr.isspace c = false
  end.
Proof.
  induction s as [|c s IH]; [exact I|].
  cbn [PyStr.lstrip]. destruct (PyStr.isspace c) eqn:E; [exact IH|exact E].
Qed.

Lemma rstrip_idempotent (s : string) :
  PyStr.rstrip (PyStr.rstrip s) = PyStr.rstrip s.
Proof.
  induction s as [|c s IH]; [reflexivity|].
  cbn [PyStr.rstrip].
  destruct (PyStr.rstrip s) as [|d r] eqn:E.
  - destruct (PyStr.isspace c) eqn:Ec; [reflexivity|].
    cbn [PyStr.rstrip]. rewrite Ec. reflexivity.
  - change (PyStr.rstrip (String c (String d r)))
      with (match PyStr.rstrip (String d r) with
            | EmptyString =>
                if PyStr.isspace c then EmptyString else String c EmptyString
            | rest' => String c rest'
            end).
    rewrite IH. reflexivity.
Qed.

Lemma rstrip_head (c : ascii) (s : string) :
  PyStr.isspace c = false ->
  exists r, PyStr.rstrip (String c s) = String c r.
Proof.
  intros Hc. cbn [PyStr.rstrip].
  destruct (PyStr.rstrip s); [rewrite Hc|]; eauto.
Qed.

Lemma strip_idempotent (s : string) :
  PyStr.strip (PyStr.strip s) = PyStr.strip s.
Proof.
  unfold PyStr.strip. pose proof (lstrip_head s) as Hh.
  destruct (PyStr.lstrip s) as [|c u]; [reflexivity|].
  destruct (rstrip_head c u Hh) as (r & Er).
  rewrite Er. cbn [PyStr.lstrip]. rewrite Hh, <- Er.
  apply rstrip_idempotent.
Qed.

Lemma prompt_of_trimmed (data : P2ImMessageReceiveV1) (text : string) :
  prompt_of data = Some text -> trimmed_prompt text.
Proof.
  unfold prompt_of, inbound_text.
  destruct (String.eqb (message_type data) "text"); [|discriminate].
  destruct (Json.loads (message_content data)) as [[| | | | | |items]|];
    try discriminate.
  assert (H : forall s,
    (if PyStr.truthy (PyStr.strip s)
        && negb (PyStr.startswith "/" (PyStr.strip s))
     then Some (PyStr.strip s) else None) = Some text ->
    trimmed_prompt text).
  { intros s H.
    destruct (PyStr.truthy (PyStr.strip s)) eqn:Et; [|discriminate H].
    destruct (PyStr.startswith "/" (PyStr.strip s)) eqn:Es; [discriminate H|].
    inversion H; subst. repeat split; auto using strip_idempotent. }
  destruct (PyDictOps.get items "text") as [[| | | |s| |]|];
    try discriminate; apply H.
Qed.

(** X23.  Every prompt the handler hands to the completion API is
    trimmed: over any run of events, with services that fail with
    instances of [Exception] only, each prompt added is not empty, starts
    with no slash, and has no white space at its start or at its end,
    whatever white space the message had around its text. *)
Theorem prompts_are_trimmed
    (self : FeishuBot) (events : list P2ImMessageReceiveV1) (w : world) :
  polite w ->
  exists added,
    prompts (handle_events self events w).2 = prompts w ++ added
    /\ Forall trimmed_prompt added.
Proof.
  revert w. induction events as [|data rest IH]; intros w Hp.
  - exists []. rewrite app_nil_r. split; [reflexivity|constructor].
  - rewrite handle_events_cons.
    destruct (IH (handle_message_receive_v1 self data w).2) as (l & El & Hl).
    { apply (polite_ext w);
        [apply keeps_handle_lark|apply keeps_handle_completion|exact Hp]. }
    rewrite El, (handle_prompts self data w Hp), <- app_assoc.
    eexists. split; [reflexivity|].
    apply Forall_app. split; [|exact Hl].
    destruct (_running w); [|constructor].
    destruct (prompt_of data) as [text|] eqn:E; [|constructor].
    constructor; [exact (prompt_of_trimmed data text E)|constructor].
Qed.

Lemma prompts_are_trimmed_witness :
  exists added,
    prompts (handle_events bot0 [padded_event; reset_event]
               (world0 "./sessions.json" ∅ fs0)).2
    = [] ++ added
    /\ Forall trimmed_prompt added.
Proof.
  exact (prompts_are_trimmed bot0 [padded_event; reset_event]
           (world0 "./sessions.json" ∅ fs0) (polite_world0 _ _ _)).
Defined.

